(** * LeadScrapper: the crawl-and-extract engine, embedded and verified

    A shallow embedding of the Python sources
      src/config.py, src/url_builder.py, src/models.py,
      src/parser.py and src/scraper.py
    followed by the properties the specification states about them.

    Conventions of the embedding.
    - A Python [str] is a sequence of Unicode code points: [pystr = list N].
      Literals are written [u "..."], the UTF-8 decoding of the bytes of
      the literal.
    - A Python [int] is a [Z]; [len] and loop counters are [nat].
    - A Python [float] holding seconds or a percentage is an exact
      rational [Q]; rounding of binary64 is outside the model.
    - A function that may raise returns a [result]; code with effects
      (HTTP, sleeping, random numbers, the disk) runs in the monad [M],
      whose state holds the scraper object and the observable trace. *)

From Stdlib Require Import String Ascii DecimalString.
From Stdlib Require Import Bool Arith NArith ZArith QArith Lia Lqa List.
From Stdlib Require DecimalZ.
Import ListNotations.
Close Scope Q_scope.

Set Implicit Arguments.
Set Warnings "-register-all".

(** ** Python strings *)

Definition pystr : Type := list N.

(** UTF-8 decoding of the bytes of a literal (well-formed input assumed;
    a truncated sequence ends the result). *)
Fixpoint utf8_decode (bs : list N) : pystr :=
  match bs with
  | [] => []
  | b :: r1 =>
    if (b <? 128)%N then b :: utf8_decode r1
    else if (b <? 224)%N then
      match r1 with
      | b2 :: r2 =>
        (N.land b 31 * 64 + N.land b2 63)%N :: utf8_decode r2
      | _ => []
      end
    else if (b <? 240)%N then
      match r1 with
      | b2 :: b3 :: r3 =>
        (N.land b 15 * 4096 + N.land b2 63 * 64 + N.land b3 63)%N
          :: utf8_decode r3
      | _ => []
      end
    else
      match r1 with
      | b2 :: b3 :: b4 :: r4 =>
        (N.land b 7 * 262144 + N.land b2 63 * 4096
         + N.land b3 63 * 64 + N.land b4 63)%N :: utf8_decode r4
      | _ => []
      end
  end.

Definition u (s : string) : pystr :=
  utf8_decode (map N_of_ascii (list_ascii_of_string s)).

Definition py_eqb (a b : pystr) : bool :=
  if list_eq_dec N.eq_dec a b then true else false.

(** [s.startswith(p)] *)
Fixpoint startswith (s p : pystr) {struct p} : bool :=
  match p, s with
  | [], _ => true
  | _ :: _, [] => false
  | c :: p', d :: s' => (c =? d)%N && startswith s' p'
  end.

(** [s.endswith(p)] *)
Definition endswith (s p : pystr) : bool := startswith (rev s) (rev p).

(** [needle in hay] *)
Fixpoint contains (needle hay : pystr) : bool :=
  startswith hay needle ||
  match hay with
  | [] => false
  | _ :: t => contains needle t
  end.

(** [sep.join(parts)] *)
Fixpoint join (sep : pystr) (parts : list pystr) : pystr :=
  match parts with
  | [] => []
  | [p] => p
  | p :: rest => p ++ sep ++ join sep rest
  end.

(** [s.split(sep)[0]]: the text before the first occurrence of [sep]
    (all of [s] when [sep] does not occur). *)
Fixpoint split_head (sep s : pystr) : pystr :=
  if startswith s sep then []
  else match s with
       | [] => []
       | c :: t => c :: split_head sep t
       end.

(** [str.isspace] on one code point; the class also used by [\s] in a
    [str] pattern and by [str.strip()]. *)
Definition isspace (c : N) : bool :=
  ((9 <=? c) && (c <=? 13) || (28 <=? c) && (c <=? 32)
   || (c =? 133) || (c =? 160) || (c =? 5760)
   || (8192 <=? c) && (c <=? 8202)
   || (c =? 8232) || (c =? 8233) || (c =? 8239) || (c =? 8287)
   || (c =? 12288))%N.

Fixpoint lstrip (s : pystr) : pystr :=
  match s with
  | c :: t => if isspace c then lstrip t else s
  | [] => []
  end.

(** [s.strip()] *)
Definition strip (s : pystr) : pystr := rev (lstrip (rev (lstrip s))).

(** [re.sub(r"\s+", " ", s)]: every maximal run of whitespace becomes
    one space.  [in_run] tells that the previous code point was
    whitespace. *)
Fixpoint sub_spaces (in_run : bool) (s : pystr) : pystr :=
  match s with
  | [] => []
  | c :: t =>
    if isspace c
    then if in_run then sub_spaces true t else 32%N :: sub_spaces true t
    else c :: sub_spaces false t
  end.

(** [str(n)] for an [int]. *)
Definition str_of_Z (n : Z) : pystr :=
  u (NilZero.string_of_int (Z.to_int n)).

(** Truth value of a [str]: only the empty string is false. *)
Definition nonempty (s : pystr) : bool :=
  match s with
  | [] => false
  | _ :: _ => true
  end.

(** Truth value of an [Optional[str]]: [None] and the empty string are
    false. *)
Definition truthy (o : option pystr) : bool :=
  match o with
  | Some (_ :: _) => true
  | _ => false
  end.

(** An [Optional[str]] inside an f-string. *)
Definition text_of (o : option pystr) : pystr :=
  match o with
  | Some s => s
  | None => u "None"
  end.

(** ** Exceptions and results *)

Inductive exn : Type :=
| ValueError (msg : pystr)
| ScraperError (msg : pystr)
| CaptchaError (url : pystr)
| RateLimitError (retry_after : Z)
| TypeError (msg : pystr)
| RequestException (msg : pystr)
| OSError (msg : pystr).

Inductive result (A : Type) : Type :=
| Ok (a : A)
| Raise (e : exn).
Arguments Ok {A} a.
Arguments Raise {A} e.

(** ** src/config.py *)

Definition BASE_URL : pystr := u "https://empresite.eleconomista.es".
Definition REQUEST_DELAY_MIN : Q := 5.
Definition REQUEST_DELAY_MAX : Q := 10.
Definition MAX_RETRIES : nat := 4.
Definition RETRY_BACKOFF_BASE : Z := 30.
Definition RESULTS_PER_PAGE : Z := 30.
Definition SAVE_EVERY_N : nat := 10.

(** ** src/url_builder.py *)

(** The list [parts] as it stands before the join. *)
Definition listing_parts
    (actividad_slug provincia_slug localidad_slug : option pystr)
    : list pystr :=
  let parts := [BASE_URL] in
  let parts :=
    if truthy actividad_slug
    then parts ++ [u "/Actividad/" ++ text_of actividad_slug]
    else parts in
  let parts :=
    if truthy localidad_slug
    then parts ++ [u "/localidad/" ++ text_of localidad_slug]
    else if truthy provincia_slug
    then parts ++ [u "/provincia/" ++ text_of provincia_slug]
    else parts in
  parts.

Definition build_listing_url
    (actividad_slug provincia_slug localidad_slug : option pystr)
    (page : Z) : result pystr :=
  if negb (truthy actividad_slug || truthy provincia_slug
           || truthy localidad_slug)
  then Raise (ValueError
    (u "Debe especificar al menos un filtro (actividad, provincia o localidad)"))
  else
    let parts := listing_parts actividad_slug provincia_slug localidad_slug in
    let url := join [] parts ++ u "/" in
    let url :=
      if (page >? 1)%Z then url ++ u "PgNum-" ++ str_of_Z page ++ u "/"
      else url in
    Ok url.

Definition build_company_url (slug : pystr) : pystr :=
  if startswith slug (u "http") then slug
  else BASE_URL ++ u "/" ++ slug.

(** ** src/models.py *)

(** The dataclass [Empresa]: twenty [str] attributes, in the order of
    their declaration. *)
Record Empresa : Type := {
  razon_social : pystr;
  cif : pystr;
  forma_juridica : pystr;
  url_ficha : pystr;
  sector : pystr;
  actividad : pystr;
  cnae : pystr;
  objeto_social : pystr;
  estado : pystr;
  fecha_constitucion : pystr;
  direccion : pystr;
  telefono : pystr;
  email : pystr;
  web : pystr;
  ventas : pystr;
  num_empleados : pystr;
  participaciones : pystr;
  operaciones_internacionales : pystr;
  grupo_sector : pystr;
  cotiza_bolsa : pystr
}.

(** The names of the attributes, for assignments [empresa.f = v] and for
    statements that range over all attributes. *)
Inductive field : Type :=
| f_razon_social
| f_cif
| f_forma_juridica
| f_url_ficha
| f_sector
| f_actividad
| f_cnae
| f_objeto_social
| f_estado
| f_fecha_constitucion
| f_direccion
| f_telefono
| f_email
| f_web
| f_ventas
| f_num_empleados
| f_participaciones
| f_operaciones_internacionales
| f_grupo_sector
| f_cotiza_bolsa.

Definition field_eqb (a b : field) : bool :=
  match a, b with
  | f_razon_social, f_razon_social => true
  | f_cif, f_cif => true
  | f_forma_juridica, f_forma_juridica => true
  | f_url_ficha, f_url_ficha => true
  | f_sector, f_sector => true
  | f_actividad, f_actividad => true
  | f_cnae, f_cnae => true
  | f_objeto_social, f_objeto_social => true
  | f_estado, f_estado => true
  | f_fecha_constitucion, f_fecha_constitucion => true
  | f_direccion, f_direccion => true
  | f_telefono, f_telefono => true
  | f_email, f_email => true
  | f_web, f_web => true
  | f_ventas, f_ventas => true
  | f_num_empleados, f_num_empleados => true
  | f_participaciones, f_participaciones => true
  | f_operaciones_internacionales, f_operaciones_internacionales => true
  | f_grupo_sector, f_grupo_sector => true
  | f_cotiza_bolsa, f_cotiza_bolsa => true
  | _, _ => false
  end.

Definition all_fields : list field :=
  [f_razon_social;
   f_cif;
   f_forma_juridica;
   f_url_ficha;
   f_sector;
   f_actividad;
   f_cnae;
   f_objeto_social;
   f_estado;
   f_fecha_constitucion;
   f_direccion;
   f_telefono;
   f_email;
   f_web;
   f_ventas;
   f_num_empleados;
   f_participaciones;
   f_operaciones_internacionales;
   f_grupo_sector;
   f_cotiza_bolsa].

(** [getattr(e, f)] *)
Definition get_field (f : field) (e : Empresa) : pystr :=
  match f with
  | f_razon_social => razon_social e
  | f_cif => cif e
  | f_forma_juridica => forma_juridica e
  | f_url_ficha => url_ficha e
  | f_sector => sector e
  | f_actividad => actividad e
  | f_cnae => cnae e
  | f_objeto_social => objeto_social e
  | f_estado => estado e
  | f_fecha_constitucion => fecha_constitucion e
  | f_direccion => direccion e
  | f_telefono => telefono e
  | f_email => email e
  | f_web => web e
  | f_ventas => ventas e
  | f_num_empleados => num_empleados e
  | f_participaciones => participaciones e
  | f_operaciones_internacionales => operaciones_internacionales e
  | f_grupo_sector => grupo_sector e
  | f_cotiza_bolsa => cotiza_bolsa e
  end.

(** [e.f = v] *)
Definition set_field (f : field) (v : pystr) (e : Empresa) : Empresa :=
  let g x := if field_eqb x f then v else get_field x e in
  {| razon_social := g f_razon_social;
     cif := g f_cif;
     forma_juridica := g f_forma_juridica;
     url_ficha := g f_url_ficha;
     sector := g f_sector;
     actividad := g f_actividad;
     cnae := g f_cnae;
     objeto_social := g f_objeto_social;
     estado := g f_estado;
     fecha_constitucion := g f_fecha_constitucion;
     direccion := g f_direccion;
     telefono := g f_telefono;
     email := g f_email;
     web := g f_web;
     ventas := g f_ventas;
     num_empleados := g f_num_empleados;
     participaciones := g f_participaciones;
     operaciones_internacionales := g f_operaciones_internacionales;
     grupo_sector := g f_grupo_sector;
     cotiza_bolsa := g f_cotiza_bolsa |}.

(** [Empresa(url_ficha=url)]: every other attribute takes its default,
    the empty string. *)
Definition new_Empresa (url : pystr) : Empresa :=
  {| razon_social := [];
     cif := [];
     forma_juridica := [];
     url_ficha := url;
     sector := [];
     actividad := [];
     cnae := [];
     objeto_social := [];
     estado := [];
     fecha_constitucion := [];
     direccion := [];
     telefono := [];
     email := [];
     web := [];
     ventas := [];
     num_empleados := [];
     participaciones := [];
     operaciones_internacionales := [];
     grupo_sector := [];
     cotiza_bolsa := [] |}.
(** Statements that update a record in place, as state transformers:
    [assign f v] is [empresa.f = v], [when c body] is [if c: body], and
    [block] runs statements in sequence. *)
Definition stmt : Type := Empresa -> Empresa.

Definition assign (f : field) (v : pystr) : stmt := set_field f v.

Definition when (c : Empresa -> bool) (body : stmt) : stmt :=
  fun empresa => if c empresa then body empresa else empresa.

Fixpoint block (stmts : list stmt) (empresa : Empresa) : Empresa :=
  match stmts with
  | [] => empresa
  | s :: rest => block rest (s empresa)
  end.

(** An entry of [empresas_error]: the dict [{"url": url, "error": error}]. *)
Record error_entry : Type := {
  err_url : pystr;
  err_error : pystr
}.

(** The dataclass [ScrapeProgress]. *)
Record ScrapeProgress : Type := {
  total_esperado : Z;
  empresas_ok : list Empresa;
  empresas_error : list error_entry
}.

Definition new_ScrapeProgress : ScrapeProgress :=
  {| total_esperado := 0; empresas_ok := []; empresas_error := [] |}.

Definition total_procesadas (p : ScrapeProgress) : Z :=
  Z.of_nat (length (empresas_ok p)) + Z.of_nat (length (empresas_error p)).

Inductive arith_error : Type := ZeroDivisionError.

(** [a / b] on two [int]s: true division, which raises on a zero divisor. *)
Definition truediv (a b : Z) : arith_error + Q :=
  if (b =? 0)%Z then inl ZeroDivisionError
  else inr (inject_Z a / inject_Z b)%Q.

Definition tasa_exito (p : ScrapeProgress) : arith_error + Q :=
  if (total_procesadas p =? 0)%Z then inr 0%Q
  else
    match truediv (Z.of_nat (length (empresas_ok p))) (total_procesadas p) with
    | inl e => inl e
    | inr q => inr (q * 100)%Q
    end.

Definition add_success (empresa : Empresa) (p : ScrapeProgress)
    : ScrapeProgress :=
  {| total_esperado := total_esperado p;
     empresas_ok := empresas_ok p ++ [empresa];
     empresas_error := empresas_error p |}.

Definition add_error (url error : pystr) (p : ScrapeProgress)
    : ScrapeProgress :=
  {| total_esperado := total_esperado p;
     empresas_ok := empresas_ok p;
     empresas_error :=
       empresas_error p ++ [{| err_url := url; err_error := error |}] |}.

Definition set_total_esperado (n : Z) (p : ScrapeProgress) : ScrapeProgress :=
  {| total_esperado := n;
     empresas_ok := empresas_ok p;
     empresas_error := empresas_error p |}.

(** ** The document tree of BeautifulSoup

    A parsed page is a tree of tags and text nodes.  The value of an
    attribute is a string, or a list of strings for the multi-valued
    attributes ([class], [rel], ...).  The attributes of a tag are a
    dict, kept here as an association list read through [lookup_attr]. *)

Inductive attrval : Type :=
| AStr (s : pystr)
| AList (tokens : list pystr).

Inductive node : Type :=
| Text (s : pystr)
| Elem (name : pystr) (attrs : list (pystr * attrval)) (contents : list node).

Fixpoint lookup_attr (k : pystr) (attrs : list (pystr * attrval))
    : option attrval :=
  match attrs with
  | [] => None
  | (k', v) :: rest => if py_eqb k k' then Some v else lookup_attr k rest
  end.

Fixpoint list_eqb {A : Type} (eqb : A -> A -> bool) (l1 l2 : list A) : bool :=
  match l1, l2 with
  | [], [] => true
  | x :: l1', y :: l2' => eqb x y && list_eqb eqb l1' l2'
  | _, _ => false
  end.

Definition attrval_eqb (a b : attrval) : bool :=
  match a, b with
  | AStr x, AStr y => py_eqb x y
  | AList x, AList y => list_eqb py_eqb x y
  | _, _ => false
  end.

(** Equality of two attribute dicts: the same keys with equal values,
    whatever the order. *)
Definition attrs_sub (a b : list (pystr * attrval)) : bool :=
  forallb (fun kv =>
    match lookup_attr (fst kv) a, lookup_attr (fst kv) b with
    | Some v, Some w => attrval_eqb v w
    | _, _ => false
    end) a.

Definition attrs_eqb (a b : list (pystr * attrval)) : bool :=
  attrs_sub a b && attrs_sub b a.

(** [a == b] on page elements: [Tag.__eq__] compares name, attributes
    and contents; two text nodes compare as strings. *)
Fixpoint node_eqb (a b : node) : bool :=
  match a, b with
  | Text s, Text t => py_eqb s t
  | Elem n1 a1 c1, Elem n2 a2 c2 =>
    py_eqb n1 n2 && attrs_eqb a1 a2 &&
    (fix all2 (l1 l2 : list node) : bool :=
       match l1, l2 with
       | [], [] => true
       | x :: l1', y :: l2' => node_eqb x y && all2 l1' l2'
       | _, _ => false
       end) c1 c2
  | _, _ => false
  end.

(** [element.get_text()]: the text nodes below, concatenated. *)
Fixpoint get_text (n : node) : pystr :=
  match n with
  | Text s => s
  | Elem _ _ cs => concat (map get_text cs)
  end.

(** A node found in the tree, with what navigation from it needs. *)
Record located : Type := {
  here : node;
  next_siblings : list node;
  parent : node
}.

(** Everything below [n], in document order. *)
Fixpoint descendants (n : node) : list located :=
  match n with
  | Text _ => []
  | Elem _ _ cs =>
    (fix walk (l : list node) : list located :=
       match l with
       | [] => []
       | c :: rest =>
         {| here := c; next_siblings := rest; parent := n |}
           :: descendants c ++ walk rest
       end) cs
  end.

Definition is_tag (n : node) : bool :=
  match n with
  | Elem _ _ _ => true
  | Text _ => false
  end.

Definition has_name (name : pystr) (n : node) : bool :=
  match n with
  | Elem nm _ _ => py_eqb nm name
  | Text _ => false
  end.

Definition get_attr (k : pystr) (n : node) : option attrval :=
  match n with
  | Elem _ attrs _ => lookup_attr k attrs
  | Text _ => None
  end.

Definition children (n : node) : list node :=
  match n with
  | Elem _ _ cs => cs
  | Text _ => []
  end.

(** A string filter against an attribute value: a multi-valued attribute
    matches through any of its values, or as a whole joined by spaces. *)
Definition attr_matches (v : attrval) (x : pystr) : bool :=
  match v with
  | AStr s => py_eqb s x
  | AList l => existsb (fun t => py_eqb t x) l || py_eqb (join (u " ") l) x
  end.

Definition has_attr_value (k x : pystr) (n : node) : bool :=
  match get_attr k n with
  | Some v => attr_matches v x
  | None => false
  end.

(** [root.find_all(...)] with the filter [p] on tags. *)
Definition find_all (p : node -> bool) (root : node) : list located :=
  filter (fun d => is_tag (here d) && p (here d)) (descendants root).

(** [root.find(...)] *)
Definition find (p : node -> bool) (root : node) : option located :=
  hd_error (find_all p root).

(** [tag.find_next_sibling()]: the next sibling that is a tag. *)
Definition find_next_sibling (d : located) : option node :=
  List.find is_tag (next_siblings d).

(** ** What the embedding takes from the Python runtime and libraries

    Tables and library code that are not part of the repository. *)
Record Runtime : Type := {
  (** [str.lower()] *)
  str_lower : pystr -> pystr;
  (** the value of a decimal digit outside ASCII (Unicode category Nd) *)
  decimal_of : N -> option N;
  (** the substitution of character references that [html.unescape]
      performs on a text containing an ampersand *)
  charref_sub : pystr -> pystr;
  (** [BeautifulSoup(markup, "lxml")] *)
  BeautifulSoup : pystr -> node;
  (** [repr(s)] for a string *)
  py_repr : pystr -> pystr;
  (** [str(l)] for a list of strings *)
  str_of_list : list pystr -> pystr
}.

(** ** Regular expressions of module [re]

    The fragment the sources use: literals, an optional character,
    greedy repetition of a character class, one capturing group. *)

Inductive cclass : Type :=
| CDigit    (* \d *)
| CSpace.   (* \s *)

Inductive regex : Type :=
| RLit (s : pystr)
| ROpt (c : N)
| RStar (k : cclass)
| RPlus (k : cclass)
| RGroup (r : regex)
| RSeq (r1 r2 : regex).

(** The match object, reduced to [group(1)]; [None] when the group took
    no part in the match. *)
Record match_object : Type := { group1 : option pystr }.

Section Extraction.

Variable R : Runtime.

(** The value of a decimal digit, [None] for any other code point. *)
Definition digit_value (c : N) : option N :=
  if (c <? 128)%N
  then if ((48 <=? c) && (c <=? 57))%N then Some (c - 48)%N else None
  else decimal_of R c.

Definition in_class (k : cclass) (c : N) : bool :=
  match k with
  | CDigit => match digit_value c with Some _ => true | None => false end
  | CSpace => isspace c
  end.

(** Greedy repetition with backtracking: take one more code point of the
    class if the rest of the pattern then succeeds, else stop here. *)
Fixpoint rstar {X : Type} (k : cclass) (s : pystr)
    (cont : pystr -> option X) : option X :=
  match s with
  | c :: t =>
    if in_class k c
    then match rstar k t cont with
         | Some x => Some x
         | None => cont s
         end
    else cont s
  | [] => cont s
  end.

(** [rmatch r s g cont]: match [r] at the start of [s]; [cont] receives
    what is left of [s] and the capture. *)
Fixpoint rmatch {X : Type} (r : regex) (s : pystr) (g : option pystr)
    (cont : pystr -> option pystr -> option X) : option X :=
  match r with
  | RLit l =>
    if startswith s l then cont (skipn (length l) s) g else None
  | ROpt c =>
    match s with
    | d :: t =>
      if (c =? d)%N
      then match cont t g with
           | Some x => Some x
           | None => cont s g
           end
      else cont s g
    | [] => cont s g
    end
  | RStar k => rstar k s (fun rest => cont rest g)
  | RPlus k =>
    match s with
    | c :: t => if in_class k c then rstar k t (fun rest => cont rest g)
                else None
    | [] => None
    end
  | RGroup r' =>
    rmatch r' s g
      (fun rest _ => cont rest (Some (firstn (length s - length rest) s)))
  | RSeq r1 r2 =>
    rmatch r1 s g (fun rest g' => rmatch r2 rest g' cont)
  end.

(** [re.search(r, s)]: the leftmost position at which [r] matches. *)
Fixpoint re_search (r : regex) (s : pystr) : option match_object :=
  match rmatch r s None (fun _ g => Some {| group1 := g |}) with
  | Some m => Some m
  | None =>
    match s with
    | [] => None
    | _ :: t => re_search r t
    end
  end.

(** [int(s)] for a string: surrounding whitespace, an optional sign,
    decimal digits, single underscores between digits.  (The limit an
    interpreter may set on the number of digits is not modelled.) *)
Fixpoint digits_value (acc : Z) (after_digit : bool) (s : pystr) : option Z :=
  match s with
  | [] => if after_digit then Some acc else None
  | c :: t =>
    match digit_value c with
    | Some d => digits_value (acc * 10 + Z.of_N d) true t
    | None =>
      if (c =? 95)%N && after_digit then digits_value acc false t else None
    end
  end.

Definition py_int (s : pystr) : result Z :=
  let body := strip s in
  let parsed :=
    match body with
    | c :: t =>
      if (c =? 43)%N then digits_value 0 false t
      else if (c =? 45)%N then option_map Z.opp (digits_value 0 false t)
      else digits_value 0 false body
    | [] => digits_value 0 false body
    end in
  match parsed with
  | Some n => Ok n
  | None =>
    Raise (ValueError
      (u "invalid literal for int() with base 10: " ++ py_repr R s))
  end.

(** [int(match.group(1))] *)
Definition int_group1 (m : match_object) : result Z :=
  match group1 m with
  | Some s => py_int s
  | None =>
    Raise (TypeError (u "int() argument must be a string, a bytes-like object or a real number, not 'NoneType'"))
  end.

(** ** src/parser.py *)

Definition SITE_PREFIX : pystr := u "https://empresite.eleconomista.es".

Definition attr_truthy (v : option attrval) : bool :=
  match v with
  | Some (AStr s) => nonempty s
  | Some (AList l) => match l with [] => false | _ => true end
  | None => false
  end.

(** [str(tag[k])] *)
Definition attr_str (v : option attrval) : pystr :=
  match v with
  | Some (AStr s) => s
  | Some (AList l) => str_of_list R l
  | None => u "None"
  end.

(** The body of the loop over the cards: the URL the card contributes,
    if any. *)
Definition card_url (card : node) : option pystr :=
  let meta_url :=
    find (fun n => has_name (u "meta") n
                   && has_attr_value (u "itemprop") (u "url") n) card in
  let primary :=
    match meta_url with
    | Some m =>
      if attr_truthy (get_attr (u "content") (here m))
      then
        let url := attr_str (get_attr (u "content") (here m)) in
        let url := if negb (startswith url (u "http"))
                   then SITE_PREFIX ++ url else url in
        Some url
      else None
    | None => None
    end in
  match primary with
  | Some url => Some url
  | None =>
    match find (has_name (u "h3")) card with
    | Some h3 =>
      match find (fun n => has_name (u "a") n
               && match get_attr (u "href") n with Some _ => true | None => false end)
              (here h3) with
      | Some link =>
        if endswith (attr_str (get_attr (u "href") (here link))) (u ".html")
        then
          let href := attr_str (get_attr (u "href") (here link)) in
          let href := if negb (startswith href (u "http"))
                      then SITE_PREFIX ++ href else href in
          Some href
        else None
      | None => None
      end
    | None => None
    end
  end.

Definition listing_urls_of (soup : node) : list pystr :=
  let cards :=
    find_all (fun n => has_name (u "div") n
                       && has_attr_value (u "class") (u "cardCompanyBox") n)
             soup in
  flat_map (fun card => match card_url (here card) with
                        | Some url => [url]
                        | None => []
                        end) cards.

Definition parse_listing_page (page_html : pystr) : list pystr :=
  listing_urls_of (BeautifulSoup R page_html).

(** [(\d+)\s*empresas?] *)
Definition COUNT_RE : regex :=
  RSeq (RGroup (RPlus CDigit))
    (RSeq (RStar CSpace) (RSeq (RLit (u "empresa")) (ROpt 115))).

(** [Hemos encontrado\s+(\d+)\s+empresas?] *)
Definition FALLBACK_COUNT_RE : regex :=
  RSeq (RLit (u "Hemos encontrado"))
    (RSeq (RPlus CSpace)
      (RSeq (RGroup (RPlus CDigit))
        (RSeq (RPlus CSpace) (RSeq (RLit (u "empresa")) (ROpt 115))))).

Definition result_count_of (soup : node) : result Z :=
  let filter_text :=
    find (has_attr_value (u "id") (u "filter-numresultados")) soup in
  let first_try :=
    match filter_text with
    | Some el => re_search COUNT_RE (get_text (here el))
    | None => None
    end in
  match first_try with
  | Some m => int_group1 m
  | None =>
    let text := get_text soup in
    match re_search FALLBACK_COUNT_RE text with
    | Some m => int_group1 m
    | None => Ok 0%Z
    end
  end.

Definition parse_result_count (page_html : pystr) : result Z :=
  result_count_of (BeautifulSoup R page_html).

(** [html.unescape(s)] *)
Definition unescape (s : pystr) : pystr :=
  if negb (contains (u "&") s) then s else charref_sub R s.

Definition _clean_text (text : pystr) : pystr :=
  if negb (nonempty text) then []
  else strip (sub_spaces false (unescape text)).

Definition PLACEHOLDERS : list pystr :=
  [u "añadir"; u "agregar"; u "no disponible"; u "no consta"].

Definition _is_placeholder (text : pystr) : bool :=
  existsb (fun p => contains p (str_lower R text)) PLACEHOLDERS.

(** The texts gathered from the children of the parent of [h3].  Every
    page element has [get_text], so a child that differs from [h3] takes
    the first branch; [!=] is the structural comparison of [Tag.__eq__],
    so a sibling equal to [h3] is left out like [h3] itself. *)
Fixpoint parent_texts (h3 : node) (cs : list node) (texts : list pystr)
    : list pystr :=
  match cs with
  | [] => texts
  | child :: rest =>
    let texts :=
      if negb (node_eqb child h3)
      then texts ++ [_clean_text (get_text child)]
      else match child with
           | Text s =>
             let cleaned := _clean_text s in
             if nonempty cleaned then texts ++ [cleaned] else texts
           | Elem _ _ _ => texts
           end in
    parent_texts h3 rest texts
  end.

(** One iteration of the loop over the [h3] tags: [Some v] when the
    iteration returns [v], [None] when the loop goes on. *)
Definition h3_value (field_label : pystr) (h3 : located) : option pystr :=
  let h3_text := _clean_text (get_text (here h3)) in
  if contains (str_lower R field_label) (str_lower R h3_text) then
    let from_sibling :=
      match find_next_sibling h3 with
      | Some sibling =>
        let value := _clean_text (get_text sibling) in
        if nonempty value && negb (_is_placeholder value)
        then Some value else None
      | None => None
      end in
    match from_sibling with
    | Some value => Some value
    | None =>
      let texts := parent_texts (here h3) (children (parent h3)) [] in
      let value :=
        join (u " ")
          (filter (fun t => nonempty t && negb (_is_placeholder t)) texts) in
      if nonempty value then Some value else None
    end
  else None.

Fixpoint first_return (field_label : pystr) (h3s : list located) : pystr :=
  match h3s with
  | [] => []
  | h3 :: rest =>
    match h3_value field_label h3 with
    | Some value => value
    | None => first_return field_label rest
    end
  end.

Definition _extract_field_value (soup : node) (field_label : pystr) : pystr :=
  first_return field_label (find_all (has_name (u "h3")) soup).

(** The statements of [parse_company_page] after the record is created:
    each one updates [empresa]. *)
Definition company_statements (soup : node) : list stmt :=
  [ (* --- Informacion general --- *)
    assign f_razon_social (_extract_field_value soup (u "Razón social"));
    when (fun empresa => negb (nonempty (razon_social empresa)))
      (assign f_razon_social (_extract_field_value soup (u "Razón Social")));
    when (fun empresa => negb (nonempty (razon_social empresa)))
      (fun empresa =>
         match find (has_name (u "title")) soup with
         | Some title =>
           let title_text := _clean_text (get_text (here title)) in
           when (fun _ => contains (u " - ") title_text)
             (assign f_razon_social
                (strip (split_head (u " - ") title_text))) empresa
         | None => empresa
         end);
    assign f_cif (_extract_field_value soup (u "CIF"));
    assign f_forma_juridica (_extract_field_value soup (u "Forma jur"));
    assign f_sector (_extract_field_value soup (u "Sector"));
    assign f_fecha_constitucion
      (_extract_field_value soup (u "Fecha de constituci"));
    assign f_objeto_social (_extract_field_value soup (u "Objeto social"));
    assign f_actividad (_extract_field_value soup (u "Actividad CNAE"));
    when (fun empresa => negb (nonempty (actividad empresa)))
      (assign f_actividad (_extract_field_value soup (u "Actividad")));
    assign f_cnae (_extract_field_value soup (u "CNAE"));
    assign f_estado (_extract_field_value soup (u "Estado"));
    (* --- Direccion y contacto --- *)
    assign f_direccion (_extract_field_value soup (u "Direcci"));
    when (fun empresa => negb (nonempty (direccion empresa)))
      (fun empresa =>
         match find (has_attr_value (u "itemprop") (u "address")) soup with
         | Some addr =>
           assign f_direccion (_clean_text (get_text (here addr))) empresa
         | None => empresa
         end);
    assign f_telefono (_extract_field_value soup (u "Teléfono"));
    when (fun empresa => negb (nonempty (telefono empresa)))
      (assign f_telefono (_extract_field_value soup (u "Tel")));
    assign f_email (_extract_field_value soup (u "Email"));
    when (fun empresa => negb (nonempty (email empresa)))
      (assign f_email (_extract_field_value soup (u "Correo")));
    assign f_web (_extract_field_value soup (u "Web"));
    when (fun empresa => negb (nonempty (web empresa)))
      (assign f_web (_extract_field_value soup (u "Página web")));
    when (fun empresa =>
            nonempty (web empresa) && _is_placeholder (web empresa))
      (assign f_web []);
    (* --- Datos comerciales --- *)
    assign f_ventas (_extract_field_value soup (u "ventas"));
    when (fun empresa => negb (nonempty (ventas empresa)))
      (assign f_ventas (_extract_field_value soup (u "Facturación")));
    when (fun empresa => negb (nonempty (ventas empresa)))
      (assign f_ventas (_extract_field_value soup (u "Evolución de ventas")));
    assign f_num_empleados (_extract_field_value soup (u "empleados"));
    when (fun empresa => negb (nonempty (num_empleados empresa)))
      (assign f_num_empleados
         (_extract_field_value soup (u "Número de empleados")));
    assign f_participaciones (_extract_field_value soup (u "Participaciones"));
    assign f_operaciones_internacionales
      (_extract_field_value soup (u "Operaciones Internacional"));
    assign f_grupo_sector (_extract_field_value soup (u "Grupo Sector"));
    assign f_cotiza_bolsa (_extract_field_value soup (u "Cotiza")) ].

Definition company_of (soup : node) (url : pystr) : Empresa :=
  let empresa := new_Empresa url in
  block (company_statements soup) empresa.

Definition parse_company_page (page_html url : pystr) : Empresa :=
  company_of (BeautifulSoup R page_html) url.

End Extraction.

(** ** The world around the scraper

    What the network, the random generator and the disk answer is given
    by oracles; what the scraper does to them is recorded in a trace. *)

(** A [requests.Response]: the status, the [Retry-After] header if the
    server sent one, and the body. *)
Record response : Type := {
  status_code : Z;
  retry_after_header : option pystr;
  text : pystr
}.

Inductive outcome : Type :=
| Responded (r : response)
| RequestFailed (msg : pystr).

Record World : Type := {
  (** the outcome of the k-th call of [session.get], for the URL and the
      User-Agent it is made with; [RequestFailed msg] stands for a raised
      [requests.RequestException] whose [str] is [msg] *)
  http : nat -> pystr -> pystr -> outcome;
  (** the k-th value of [random.random()] *)
  random : nat -> Q;
  (** the k-th call of [save_to_json]: [None] when the file is written,
      [Some e] when the call raises [e] *)
  disk : nat -> option exn;
  (** [str(e)] of the [HTTPError] that [raise_for_status] raises for a
      status code and a URL *)
  http_error_str : Z -> pystr -> pystr
}.

(** What an observer of the process sees: a request and what came back,
    a call of [time.sleep], a file written, the session closed. *)
Inductive event : Type :=
| EvGet (url user_agent : pystr) (o : outcome)
| EvSleep (seconds : Q)
| EvSave (path : pystr) (records : list Empresa)
| EvClose.

(** The scraper object, the ledger that [run] creates and mutates, the
    position in the oracles, and the trace, newest event first. *)
Record state : Type := {
  _request_count : nat;
  user_agent : pystr;
  output_dir : pystr;
  progress : ScrapeProgress;
  gets : nat;
  draws : nat;
  saves : nat;
  trace : list event
}.

Definition M (A : Type) : Type := state -> result A * state.

Definition ret {A : Type} (a : A) : M A := fun s => (Ok a, s).

Definition bind {A B : Type} (c : M A) (k : A -> M B) : M B :=
  fun s =>
    match c s with
    | (Ok a, s') => k a s'
    | (Raise e, s') => (Raise e, s')
    end.

Definition raise {A : Type} (e : exn) : M A := fun s => (Raise e, s).

(** [try: c  except <catches> as e: handler(e)] *)
Definition try_except {A : Type} (c : M A) (catches : exn -> bool)
    (handler : exn -> M A) : M A :=
  fun s =>
    match c s with
    | (Ok a, s') => (Ok a, s')
    | (Raise e, s') => if catches e then handler e s' else (Raise e, s')
    end.

Declare Scope monad_scope.
Delimit Scope monad_scope with monad.
Notation "x <- c ;; k" := (bind c (fun x => k))
  (at level 61, c at next level, right associativity) : monad_scope.
Notation "c ;;; k" := (bind c (fun _ => k))
  (at level 61, right associativity) : monad_scope.
Open Scope monad_scope.

Definition read {A : Type} (f : state -> A) : M A := fun s => (Ok (f s), s).

Definition modify (f : state -> state) : M unit := fun s => (Ok tt, f s).

(** A raising computation without effects, inside [M]. *)
Definition lift {A : Type} (r : result A) : M A := fun s => (r, s).

Definition with_trace (f : list event -> list event) (s : state) : state :=
  {| _request_count := _request_count s; user_agent := user_agent s;
     output_dir := output_dir s; progress := progress s; gets := gets s;
     draws := draws s; saves := saves s; trace := f (trace s) |}.

Definition with_request_count (n : nat) (s : state) : state :=
  {| _request_count := n; user_agent := user_agent s;
     output_dir := output_dir s; progress := progress s; gets := gets s;
     draws := draws s; saves := saves s; trace := trace s |}.

Definition with_user_agent (ua : pystr) (s : state) : state :=
  {| _request_count := _request_count s; user_agent := ua;
     output_dir := output_dir s; progress := progress s; gets := gets s;
     draws := draws s; saves := saves s; trace := trace s |}.

Definition with_progress (p : ScrapeProgress) (s : state) : state :=
  {| _request_count := _request_count s; user_agent := user_agent s;
     output_dir := output_dir s; progress := p; gets := gets s;
     draws := draws s; saves := saves s; trace := trace s |}.

Definition with_gets (n : nat) (s : state) : state :=
  {| _request_count := _request_count s; user_agent := user_agent s;
     output_dir := output_dir s; progress := progress s; gets := n;
     draws := draws s; saves := saves s; trace := trace s |}.

Definition with_draws (n : nat) (s : state) : state :=
  {| _request_count := _request_count s; user_agent := user_agent s;
     output_dir := output_dir s; progress := progress s; gets := gets s;
     draws := n; saves := saves s; trace := trace s |}.

Definition with_saves (n : nat) (s : state) : state :=
  {| _request_count := _request_count s; user_agent := user_agent s;
     output_dir := output_dir s; progress := progress s; gets := gets s;
     draws := draws s; saves := n; trace := trace s |}.

Definition emit (e : event) : M unit :=
  modify (with_trace (fun t => e :: t)).

(** [str(e)] *)
Definition exn_str (e : exn) : pystr :=
  match e with
  | ValueError msg => msg
  | ScraperError msg => msg
  | CaptchaError url => u "CAPTCHA detectado en: " ++ url
  | RateLimitError n => u "Rate limit. Reintentando en " ++ str_of_Z n ++ u "s"
  | TypeError msg => msg
  | RequestException msg => msg
  | OSError msg => msg
  end.

(** [isinstance(e, ScraperError)] *)
Definition is_ScraperError (e : exn) : bool :=
  match e with
  | ScraperError _ | CaptchaError _ | RateLimitError _ => true
  | _ => false
  end.

(** [isinstance(e, requests.RequestException)] *)
Definition is_RequestException (e : exn) : bool :=
  match e with
  | RequestException _ => true
  | _ => false
  end.

(** [isinstance(e, Exception)] *)
Definition is_Exception (e : exn) : bool := true.

(** [time.sleep(seconds)] *)
Definition sleep (seconds : Q) : M unit :=
  if Qle_bool 0 seconds then emit (EvSleep seconds)
  else raise (ValueError (u "sleep length must be non-negative")).

Definition GPTBOT_USER_AGENT : pystr :=
  u "Mozilla/5.0 AppleWebKit/537.36 (KHTML, like Gecko; compatible; GPTBot/1.2; +https://openai.com/gptbot)".

Definition CHATGPT_USER_AGENT : pystr :=
  u "Mozilla/5.0 AppleWebKit/537.36 (KHTML, like Gecko; compatible; ChatGPT-User/1.0; +https://openai.com/bot)".

Definition CAPTCHA_INDICATORS : list pystr :=
  [u "demasiadas peticiones detectadas";
   u "verificar que no es un robot";
   u "resuelva el captcha";
   u "too many requests detected"].

(** [EmpresiteScraper(output_dir)] in a world where nothing has happened. *)
Definition new_scraper (dir : pystr) : state :=
  {| _request_count := 0; user_agent := GPTBOT_USER_AGENT;
     output_dir := dir; progress := new_ScrapeProgress;
     gets := 0; draws := 0; saves := 0; trace := [] |}.

(** [range(lo, hi)] *)
Definition range (lo hi : Z) : list Z :=
  map (fun i => (lo + Z.of_nat i)%Z) (seq 0 (Z.to_nat (hi - lo))).

(** [math.ceil(n / d)] for a positive [d], computed exactly. *)
Definition ceil_div (n d : Z) : Z := (- ((- n) / d))%Z.

(** Truth value of an [Optional[int]]: [None] and [0] are false. *)
Definition truthy_int (o : option Z) : bool :=
  match o with
  | Some n => negb (n =? 0)%Z
  | None => false
  end.

Definition int_of (o : option Z) : Z :=
  match o with
  | Some n => n
  | None => 0%Z
  end.

(** ** src/scraper.py

    The methods of [EmpresiteScraper], called without a progress
    callback ([progress_callback=None]); log messages are not part of
    the model. *)

Section Scraping.

Variable R : Runtime.
Variable W : World.

Definition _detect_captcha (html : pystr) : bool :=
  let html_lower := str_lower R html in
  existsb (fun indicator => contains indicator html_lower) CAPTCHA_INDICATORS.

(** [random.uniform(a, b)] *)
Definition random_uniform (a b : Q) : M Q :=
  k <- read draws ;;
  modify (with_draws (S k)) ;;;
  ret (a + (b - a) * random W k)%Q.

Definition _delay : M unit :=
  delay <- random_uniform REQUEST_DELAY_MIN REQUEST_DELAY_MAX ;;
  sleep delay.

(** [self.session.get(url, timeout=30)] *)
Definition session_get (url : pystr) : M response :=
  k <- read gets ;;
  ua <- read user_agent ;;
  modify (with_gets (S k)) ;;;
  let o := http W k url ua in
  emit (EvGet url ua o) ;;;
  match o with
  | Responded r => ret r
  | RequestFailed msg => raise (RequestException msg)
  end.

(** [response.raise_for_status()] *)
Definition raise_for_status (url : pystr) (r : response) : M unit :=
  if ((400 <=? status_code r) && (status_code r <? 600))%Z
  then raise (RequestException (http_error_str W (status_code r) url))
  else ret tt.

(** How one pass through the body of the retry loop ends. *)
Inductive attempt_end : Type :=
| Returned (html : pystr)
| Continue (last_error : option exn).

Definition backoff (attempt : nat) : Z :=
  (RETRY_BACKOFF_BASE * 2 ^ Z.of_nat attempt)%Z.

(** The [try ... except requests.RequestException] of one attempt. *)
Definition attempt_body (url : pystr) (attempt : nat)
    (last_error : option exn) : M attempt_end :=
  try_except
    (response <- session_get url ;;
     n <- read _request_count ;;
     modify (with_request_count (n + 1)) ;;;
     if (status_code response =? 200)%Z then
       let html := text response in
       if _detect_captcha html then
         modify (with_user_agent CHATGPT_USER_AGENT) ;;;
         let wait_time := backoff attempt in
         sleep (inject_Z wait_time) ;;;
         ret (Continue (Some (CaptchaError url)))
       else ret (Returned html)
     else if (status_code response =? 429)%Z then
       retry_after <-
         lift (match retry_after_header response with
               | Some v => py_int R v
               | None => Ok RETRY_BACKOFF_BASE
               end) ;;
       let wait_time := (retry_after * 2 ^ Z.of_nat attempt)%Z in
       sleep (inject_Z wait_time) ;;;
       ret (Continue (Some (RateLimitError wait_time)))
     else if (status_code response =? 404)%Z then
       raise (ScraperError (u "Página no encontrada (404): " ++ url))
     else
       raise_for_status url response ;;;
       ret (Continue last_error))
    is_RequestException
    (fun e =>
       let last_error := ScraperError (u "Error de red: " ++ exn_str e) in
       let wait_time := backoff attempt in
       sleep (inject_Z wait_time) ;;;
       ret (Continue (Some last_error))).

(** The body of the retry loop. *)
Definition attempt_step (url : pystr) (attempt : nat)
    (last_error : option exn) : M attempt_end :=
  n <- read _request_count ;;
  (if 0 <? n then _delay else ret tt) ;;;
  attempt_body url attempt last_error.

(** The loop [for attempt in range(MAX_RETRIES)] and what follows it. *)
Fixpoint fetch_attempts (url : pystr) (attempts : list nat)
    (last_error : option exn) : M pystr :=
  match attempts with
  | [] =>
    raise (match last_error with
           | Some e => e
           | None => ScraperError (u "No se pudo descargar: " ++ url)
           end)
  | attempt :: rest =>
    r <- attempt_step url attempt last_error ;;
    match r with
    | Returned html => ret html
    | Continue last_error' => fetch_attempts url rest last_error'
    end
  end.

Definition fetch_page (url : pystr) : M pystr :=
  fetch_attempts url (seq 0 MAX_RETRIES) None.

(** [max_results and len(all_urls) >= max_results] *)
Definition cap_reached (max_results : option Z) (all_urls : list pystr)
    : bool :=
  truthy_int max_results
  && (int_of max_results <=? Z.of_nat (length all_urls))%Z.

(** [max_results and max_results > 0] *)
Definition cap_given (max_results : option Z) : bool :=
  truthy_int max_results && (int_of max_results >? 0)%Z.

(** The loop over the remaining pages. *)
Fixpoint listing_pages
    (actividad_slug provincia_slug localidad_slug : option pystr)
    (max_results : option Z) (pages : list Z) (all_urls : list pystr)
    : M (list pystr) :=
  match pages with
  | [] => ret all_urls
  | page :: rest =>
    if cap_reached max_results all_urls then ret all_urls
    else
      url <- lift (build_listing_url actividad_slug provincia_slug
                     localidad_slug page) ;;
      all_urls' <-
        try_except
          (html <- fetch_page url ;;
           let page_urls := parse_listing_page R html in
           ret (all_urls ++ page_urls))
          is_ScraperError
          (fun _ => ret all_urls) ;;
      listing_pages actividad_slug provincia_slug localidad_slug
        max_results rest all_urls'
  end.

Definition scrape_listing_urls
    (actividad_slug provincia_slug localidad_slug : option pystr)
    (max_results : option Z) : M (list pystr * Z) :=
  let all_urls := [] in
  url <- lift (build_listing_url actividad_slug provincia_slug
                 localidad_slug 1) ;;
  html <- fetch_page url ;;
  total_results <- lift (parse_result_count R html) ;;
  let page_urls := parse_listing_page R html in
  let all_urls := all_urls ++ page_urls in
  if (total_results =? 0)%Z then ret ([], 0%Z)
  else
    let effective_max :=
      if cap_given max_results then int_of max_results else total_results in
    let total_pages :=
      ceil_div (Z.min effective_max total_results) RESULTS_PER_PAGE in
    all_urls <-
      listing_pages actividad_slug provincia_slug localidad_slug
        max_results (range 2 (total_pages + 1)) all_urls ;;
    let all_urls :=
      if cap_given max_results
      then firstn (Z.to_nat (int_of max_results)) all_urls
      else all_urls in
    ret (all_urls, total_results).

Definition scrape_company (url : pystr) : M Empresa :=
  html <- fetch_page url ;;
  ret (parse_company_page R html url).

(** [save_to_json(empresas, filepath)] of src/exporter.py, as the sink it
    is for the scraper: the records reach the disk, or the call raises. *)
Definition save_to_json (empresas : list Empresa) (filepath : pystr)
    : M unit :=
  k <- read saves ;;
  modify (with_saves (S k)) ;;;
  match disk W k with
  | None => emit (EvSave filepath empresas)
  | Some e => raise e
  end.

(** The body of the loop over the company URLs. *)
Definition process_company (json_path : option pystr) (url : pystr)
    : M unit :=
  try_except
    (empresa <- scrape_company url ;;
     p <- read progress ;;
     modify (with_progress (add_success empresa p)) ;;;
     p <- read progress ;;
     if truthy json_path
        && (length (empresas_ok p) mod SAVE_EVERY_N =? 0)
     then save_to_json (empresas_ok p) (text_of json_path)
     else ret tt)
    is_Exception
    (fun e =>
       let error_msg := exn_str e in
       p <- read progress ;;
       modify (with_progress (add_error url error_msg p))).

Fixpoint company_loop (json_path : option pystr) (company_urls : list pystr)
    : M unit :=
  match company_urls with
  | [] => ret tt
  | url :: rest =>
    process_company json_path url ;;;
    company_loop json_path rest
  end.

(** [self.close()] *)
Definition close : M unit := emit EvClose.

(** [run], called without a progress callback. *)
Definition run
    (actividad_slug provincia_slug localidad_slug : option pystr)
    (max_results : option Z) (output_filename : option pystr)
    : M ScrapeProgress :=
  modify (with_progress new_ScrapeProgress) ;;;
  found <- scrape_listing_urls actividad_slug provincia_slug localidad_slug
             max_results ;;
  let company_urls := fst found in
  p <- read progress ;;
  modify (with_progress
            (set_total_esperado (Z.of_nat (length company_urls)) p)) ;;;
  if match company_urls with [] => true | _ => false end
  then read progress
  else
    dir <- read output_dir ;;
    let json_path :=
      if truthy output_filename
      then Some (dir ++ u "/" ++ text_of output_filename ++ u ".json")
      else None in
    company_loop json_path company_urls ;;;
    p <- read progress ;;
    (if truthy json_path && match empresas_ok p with [] => false | _ => true end
     then save_to_json (empresas_ok p) (text_of json_path)
     else ret tt) ;;;
    close ;;;
    read progress.

End Scraping.

(** ** src/models.py: [to_dict] and [from_dict]

    A [dict] with [str] keys and [str] values, as [to_dict] builds it
    and as [json.load] gives it back: the items in insertion order, each
    key once. *)

Definition pydict : Type := list (pystr * pystr).

(** [d.get(key, default)] *)
Fixpoint dict_get (key : pystr) (d : pydict) (default : pystr) : pystr :=
  match d with
  | [] => default
  | (k, v) :: rest => if py_eqb k key then v else dict_get key rest default
  end.

(** [key in d] *)
Definition dict_has (key : pystr) (d : pydict) : bool :=
  existsb (fun kv => py_eqb (fst kv) key) d.

(** The name of an attribute of [Empresa]. *)
Definition field_name (f : field) : pystr :=
  match f with
  | f_razon_social => u "razon_social"
  | f_cif => u "cif"
  | f_forma_juridica => u "forma_juridica"
  | f_url_ficha => u "url_ficha"
  | f_sector => u "sector"
  | f_actividad => u "actividad"
  | f_cnae => u "cnae"
  | f_objeto_social => u "objeto_social"
  | f_estado => u "estado"
  | f_fecha_constitucion => u "fecha_constitucion"
  | f_direccion => u "direccion"
  | f_telefono => u "telefono"
  | f_email => u "email"
  | f_web => u "web"
  | f_ventas => u "ventas"
  | f_num_empleados => u "num_empleados"
  | f_participaciones => u "participaciones"
  | f_operaciones_internacionales => u "operaciones_internacionales"
  | f_grupo_sector => u "grupo_sector"
  | f_cotiza_bolsa => u "cotiza_bolsa"
  end.

(** [asdict(self)]: the attributes in the order of their declaration. *)
Definition to_dict (e : Empresa) : pydict :=
  map (fun f => (field_name f, get_field f e)) all_fields.

(** [{f.name for f in cls.__dataclass_fields__.values()}] *)
Definition valid_fields : list pystr := map field_name all_fields.

(** The constructor [cls] called with keyword arguments: an attribute
    takes the value of its keyword, or its default, the empty string. *)
Definition Empresa_of_kwargs (kwargs : pydict) : Empresa :=
  let g f := dict_get (field_name f) kwargs [] in
  {| razon_social := g f_razon_social;
     cif := g f_cif;
     forma_juridica := g f_forma_juridica;
     url_ficha := g f_url_ficha;
     sector := g f_sector;
     actividad := g f_actividad;
     cnae := g f_cnae;
     objeto_social := g f_objeto_social;
     estado := g f_estado;
     fecha_constitucion := g f_fecha_constitucion;
     direccion := g f_direccion;
     telefono := g f_telefono;
     email := g f_email;
     web := g f_web;
     ventas := g f_ventas;
     num_empleados := g f_num_empleados;
     participaciones := g f_participaciones;
     operaciones_internacionales := g f_operaciones_internacionales;
     grupo_sector := g f_grupo_sector;
     cotiza_bolsa := g f_cotiza_bolsa |}.

Definition from_dict (data : pydict) : Empresa :=
  let filtered :=
    filter (fun kv => existsb (py_eqb (fst kv)) valid_fields) data in
  Empresa_of_kwargs filtered.

(** ** src/exporter.py: the columns and the paths of the CSV file *)

Definition CSV_COLUMNS : list pystr :=
  [ u "razon_social";
    u "cif";
    u "forma_juridica";
    u "sector";
    u "actividad";
    u "cnae";
    u "estado";
    u "fecha_constitucion";
    u "objeto_social";
    u "direccion";
    u "telefono";
    u "email";
    u "web";
    u "ventas";
    u "num_empleados";
    u "participaciones";
    u "operaciones_internacionales";
    u "grupo_sector";
    u "cotiza_bolsa";
    u "url_ficha" ].

(** The cells that [csv.DictWriter] hands to the writer for one row,
    with [extrasaction] set to [ignore] and the default [restval], the
    empty string: [rowdict.get(key, restval)] for each column. *)
Definition _dict_to_list (fieldnames : list pystr) (rowdict : pydict)
    : list pystr :=
  map (fun key => dict_get key rowdict []) fieldnames.

(** The rows of [json_to_csv]: the header, then one row for each
    object of the JSON file. *)
Definition csv_rows (data : list pydict) : list (list pystr) :=
  CSV_COLUMNS :: map (_dict_to_list CSV_COLUMNS) data.

(** The text before the last occurrence of the character [sep] in [s],
    if it occurs. *)
Fixpoint before_last (sep : N) (s : pystr) : option pystr :=
  match s with
  | [] => None
  | c :: t =>
    match before_last sep t with
    | Some p => Some (c :: p)
    | None => if (c =? sep)%N then Some [] else None
    end
  end.

(** [s.rsplit(sep, 1)[0]] for a separator of one character. *)
Definition rsplit1_head (sep : N) (s : pystr) : pystr :=
  match before_last sep s with
  | Some p => p
  | None => s
  end.

(** The path [json_to_csv] writes to. *)
Definition csv_path_of (json_path : pystr) (csv_path : option pystr)
    : pystr :=
  match csv_path with
  | None => rsplit1_head 46 json_path ++ u ".csv"
  | Some p => p
  end.

(** [os.path.join(a, b)] of [posixpath]. *)
Definition os_path_join (a b : pystr) : pystr :=
  if startswith b (u "/") then b
  else if negb (nonempty a) || endswith a (u "/") then a ++ b
  else a ++ u "/" ++ b.

(** The two paths of [export_all]; [timestamp] is what
    [datetime.now().strftime] returns. *)
Definition export_paths (output_dir : pystr) (filename : option pystr)
    (timestamp : pystr) : pystr * pystr :=
  let filename :=
    if negb (truthy filename) then u "empresas_" ++ timestamp
    else text_of filename in
  let json_path := os_path_join output_dir (filename ++ u ".json") in
  let csv_path := os_path_join output_dir (filename ++ u ".csv") in
  (json_path, csv_path).



(** ** src/config.py: the tables of the menus

    The selectors map the display name to the slug of the URL; a [dict],
    kept as the list of its items in insertion order. *)

Definition PROVINCIAS : pydict :=
  [ (u "Álava", u "ALAVA");
    (u "Albacete", u "ALBACETE");
    (u "Alicante", u "ALICANTE");
    (u "Almería", u "ALMERIA");
    (u "Asturias", u "ASTURIAS");
    (u "Ávila", u "AVILA");
    (u "Badajoz", u "BADAJOZ");
    (u "Baleares", u "BALEARES");
    (u "Barcelona", u "BARCELONA");
    (u "Burgos", u "BURGOS");
    (u "Cáceres", u "CACERES");
    (u "Cádiz", u "CADIZ");
    (u "Cantabria", u "CANTABRIA");
    (u "Castellón", u "CASTELLON");
    (u "Ceuta", u "CEUTA");
    (u "Ciudad Real", u "CIUDAD-REAL");
    (u "Córdoba", u "CORDOBA");
    (u "Coruña", u "CORUNA");
    (u "Cuenca", u "CUENCA");
    (u "Gerona", u "GERONA");
    (u "Granada", u "GRANADA");
    (u "Guadalajara", u "GUADALAJARA");
    (u "Guipúzcoa", u "GUIPUZCOA");
    (u "Huelva", u "HUELVA");
    (u "Huesca", u "HUESCA");
    (u "Jaén", u "JAEN");
    (u "León", u "LEON");
    (u "Lérida", u "LERIDA");
    (u "Lugo", u "LUGO");
    (u "Madrid", u "MADRID");
    (u "Málaga", u "MALAGA");
    (u "Melilla", u "MELILLA");
    (u "Murcia", u "MURCIA");
    (u "Navarra", u "NAVARRA");
    (u "Orense", u "ORENSE");
    (u "Palencia", u "PALENCIA");
    (u "Palmas (Las)", u "PALMAS-LAS");
    (u "Pontevedra", u "PONTEVEDRA");
    (u "Rioja (La)", u "RIOJA-LA");
    (u "Salamanca", u "SALAMANCA");
    (u "Santa Cruz de Tenerife", u "SANTA-CRUZ-TENERIFE");
    (u "Segovia", u "SEGOVIA");
    (u "Sevilla", u "SEVILLA");
    (u "Soria", u "SORIA");
    (u "Tarragona", u "TARRAGONA");
    (u "Teruel", u "TERUEL");
    (u "Toledo", u "TOLEDO");
    (u "Valencia", u "VALENCIA");
    (u "Valladolid", u "VALLADOLID");
    (u "Vizcaya", u "VIZCAYA");
    (u "Zamora", u "ZAMORA");
    (u "Zaragoza", u "ZARAGOZA") ].

Definition ACTIVIDADES : pydict :=
  [ (u "Agricultura", u "AGRICULTURA");
    (u "Alimentación", u "ALIMENTACION");
    (u "Banca", u "BANCA");
    (u "Construcciones", u "CONSTRUCCIONES");
    (u "Educación", u "EDUCACION");
    (u "Energéticas", u "ENERGETICAS");
    (u "Farmacéutica", u "FARMACEUTICA");
    (u "Ganadería", u "GANADERIA");
    (u "Hostelería", u "HOSTELERIA");
    (u "Inmobiliaria", u "INMOBILIARIA");
    (u "Logística", u "LOGISTICA");
    (u "Manufactura", u "MANUFACTURA");
    (u "Minería", u "MINERIA");
    (u "Ocio", u "OCIO");
    (u "Pesca", u "PESCA");
    (u "Restauración", u "RESTAURACION");
    (u "Sanidad", u "SANIDAD");
    (u "Seguro", u "SEGURO");
    (u "Silvicultura", u "SILVICULTURA");
    (u "Telecomunicaciones", u "TELECOMUNICACIONES");
    (u "Transporte", u "TRANSPORTE");
    (u "Vehículos", u "VEHICULOS") ].

(** [USER_AGENTS] of src/config.py. *)
Definition USER_AGENTS : list pystr :=
  [ u "Mozilla/5.0 (Windows NT 10.0; Win64; x64) AppleWebKit/537.36 (KHTML, like Gecko) Chrome/120.0.0.0 Safari/537.36";
    u "Mozilla/5.0 (Windows NT 10.0; Win64; x64; rv:121.0) Gecko/20100101 Firefox/121.0";
    u "Mozilla/5.0 (Macintosh; Intel Mac OS X 10_15_7) AppleWebKit/537.36 (KHTML, like Gecko) Chrome/120.0.0.0 Safari/537.36";
    u "Mozilla/5.0 (X11; Linux x86_64) AppleWebKit/537.36 (KHTML, like Gecko) Chrome/120.0.0.0 Safari/537.36";
    u "Mozilla/5.0 (Windows NT 10.0; Win64; x64) AppleWebKit/537.36 (KHTML, like Gecko) Chrome/119.0.0.0 Safari/537.36 Edg/119.0.0.0" ].


(** ** src/cli.py *)

(** What a question of the command line comes to, given the lines the
    user types: an answer and the lines not yet read; or [input] finds
    no line left and raises [EOFError], which nothing here catches; or
    another exception leaves the function; or a list index or a
    dictionary key is not found ([IndexError], [KeyError]).  What is
    printed is not part of the model. *)
Inductive console (A : Type) : Type :=
| Answer (a : A) (rest : list pystr)
| EndOfInput
| Uncaught (e : exn)
| LookupFailed.

Arguments Answer {A} a rest.
Arguments EndOfInput {A}.
Arguments Uncaught {A} e.
Arguments LookupFailed {A}.

(** [isinstance(e, ValueError)] *)
Definition is_ValueError (e : exn) : bool :=
  match e with
  | ValueError _ => true
  | _ => false
  end.

(** [l[i]] for a list: a negative index counts from the end. *)
Definition list_index {A : Type} (l : list A) (i : Z) : option A :=
  if (0 <=? i)%Z then nth_error l (Z.to_nat i)
  else if (- Z.of_nat (length l) <=? i)%Z
  then nth_error l (Z.to_nat (Z.of_nat (length l) + i))
  else None.

(** [d[key]] *)
Fixpoint dict_item (key : pystr) (d : pydict) : option pystr :=
  match d with
  | [] => None
  | (k, v) :: rest => if py_eqb k key then Some v else dict_item key rest
  end.

(** [s.replace(old, new)] for two single characters. *)
Definition replace_char (old new : N) (s : pystr) : pystr :=
  map (fun c => if (c =? old)%N then new else c) s.

Section CommandLine.

Variable R : Runtime.

(** [str.upper] *)
Variable str_upper : pystr -> pystr.

Fixpoint print_menu (title : pystr) (options : list pystr)
    (allow_skip : bool) (lines : list pystr) : console Z :=
  match lines with
  | [] => EndOfInput
  | line :: rest =>
    let choice := strip line in
    if negb (nonempty choice) then print_menu title options allow_skip rest
    else
      match py_int R choice with
      | Ok num =>
        if allow_skip && (num =? 0)%Z then Answer (-1)%Z rest
        else if (1 <=? num)%Z && (num <=? Z.of_nat (length options))%Z
        then Answer (num - 1)%Z rest
        else print_menu title options allow_skip rest
      | Raise e =>
        if is_ValueError e then print_menu title options allow_skip rest
        else Uncaught e
      end
  end.

(** The body shared by [select_actividad] and [select_provincia]. *)
Definition select_from (title : pystr) (table : pydict)
    (lines : list pystr) : console (option pystr) :=
  let names := map fst table in
  match print_menu title names true lines with
  | Answer idx rest =>
    if (idx =? -1)%Z then Answer None rest
    else
      match list_index names idx with
      | Some selected =>
        match dict_item selected table with
        | Some slug => Answer (Some slug) rest
        | None => LookupFailed
        end
      | None => LookupFailed
      end
  | EndOfInput => EndOfInput
  | Uncaught e => Uncaught e
  | LookupFailed => LookupFailed
  end.

Definition select_actividad (lines : list pystr) : console (option pystr) :=
  select_from (u "SELECCIONA ACTIVIDAD") ACTIVIDADES lines.

Definition select_provincia (lines : list pystr) : console (option pystr) :=
  select_from (u "SELECCIONA PROVINCIA") PROVINCIAS lines.

Definition select_localidad (lines : list pystr) : console (option pystr) :=
  match lines with
  | [] => EndOfInput
  | line :: rest =>
    let localidad := str_upper (strip line) in
    if negb (nonempty localidad) then Answer None rest
    else
      let localidad := replace_char 32 45 localidad in
      Answer (Some localidad) rest
  end.

Definition select_ubicacion (lines : list pystr)
    : console (option pystr * option pystr) :=
  let options :=
    [u "Por provincia"; u "Por localidad"; u "Sin filtro de ubicación"] in
  match print_menu (u "TIPO DE UBICACIÓN") options false lines with
  | Answer idx rest =>
    if (idx =? 0)%Z then
      match select_provincia rest with
      | Answer provincia rest' => Answer (provincia, None) rest'
      | EndOfInput => EndOfInput
      | Uncaught e => Uncaught e
      | LookupFailed => LookupFailed
      end
    else if (idx =? 1)%Z then
      match select_localidad rest with
      | Answer localidad rest' => Answer (None, localidad) rest'
      | EndOfInput => EndOfInput
      | Uncaught e => Uncaught e
      | LookupFailed => LookupFailed
      end
    else Answer (None, None) rest
  | EndOfInput => EndOfInput
  | Uncaught e => Uncaught e
  | LookupFailed => LookupFailed
  end.

Fixpoint select_max_results (lines : list pystr) : console (option Z) :=
  match lines with
  | [] => EndOfInput
  | line :: rest =>
    let value := strip line in
    if negb (nonempty value) || py_eqb value (u "0") then Answer None rest
    else
      match py_int R value with
      | Ok num =>
        if (num >? 0)%Z then Answer (Some num) rest
        else select_max_results rest
      | Raise e =>
        if is_ValueError e then select_max_results rest else Uncaught e
      end
  end.

End CommandLine.


(** * Properties *)

Unset Implicit Arguments.

(** ** Assignments to the attributes of a record *)

Lemma get_set_same (f : field) (v : pystr) (e : Empresa) :
  get_field f (set_field f v e) = v.
Proof. destruct f; reflexivity. Qed.

Lemma get_set_other (f g : field) (v : pystr) (e : Empresa) :
  field_eqb g f = false -> get_field g (set_field f v e) = get_field g e.
Proof. destruct f, g; simpl; intros H; try reflexivity; discriminate H. Qed.

(** ** The URL builder *)

(** A selector is absent when it is [None] or the empty string: both are
    false for the test [any([...])]. *)
Definition absent (o : option pystr) : Prop := o = None \/ o = Some [].

Lemma truthy_false_iff (o : option pystr) : truthy o = false <-> absent o.
Proof.
  unfold absent. destruct o as [[|c s]|]; simpl; split; intros H; auto;
    try discriminate; destruct H as [H|H]; discriminate H.
Qed.

Lemma truthy_true_iff (o : option pystr) : truthy o = true <-> ~ absent o.
Proof.
  rewrite <- truthy_false_iff. destruct (truthy o); split; intros H;
    try reflexivity; try discriminate; congruence.
Qed.

Definition INVALID_SELECTOR : exn :=
  ValueError
    (u "Debe especificar al menos un filtro (actividad, provincia o localidad)").

(** C7. [build_listing_url] raises the invalid-selector error
    ([ValueError]) exactly when activity, province and locality are all
    absent, and returns a URL exactly when at least one of them is
    given; there is no third outcome. *)
Theorem build_listing_url_invalid_selector_iff
    (actividad_slug provincia_slug localidad_slug : option pystr) (page : Z) :
  (build_listing_url actividad_slug provincia_slug localidad_slug page
     = Raise INVALID_SELECTOR
   <-> absent actividad_slug /\ absent provincia_slug
       /\ absent localidad_slug)
  /\ ((exists url,
         build_listing_url actividad_slug provincia_slug localidad_slug page
           = Ok url)
      <-> ~ (absent actividad_slug /\ absent provincia_slug
             /\ absent localidad_slug))
  /\ (forall e,
        build_listing_url actividad_slug provincia_slug localidad_slug page
          = Raise e -> e = INVALID_SELECTOR).
Proof.
  rewrite <- !truthy_false_iff. unfold build_listing_url.
  destruct (truthy actividad_slug), (truthy provincia_slug),
    (truthy localidad_slug); cbn [negb orb].
  all: repeat split.
  all: try discriminate.
  all: try (intros (H1 & H2 & H3); discriminate).
  all: try (intros _; eexists; reflexivity).
  all: try (intros _ (H1 & H2 & H3); discriminate).
  all: try (intros [url H]; discriminate H).
  all: try (intros H; exfalso; apply H; auto).
  all: try (intros e H; injection H as <-; reflexivity).
Qed.

(** The segments that [build_listing_url] appends to [parts] are told
    apart by the text they start with.  (On the joined URL the question
    which selector produced a piece of text has no answer: a slug may
    itself read [provincia].) *)
Definition is_actividad_segment (part : pystr) : bool :=
  startswith part (u "/Actividad/").
Definition is_provincia_segment (part : pystr) : bool :=
  startswith part (u "/provincia/").
Definition is_localidad_segment (part : pystr) : bool :=
  startswith part (u "/localidad/").

Definition pagination (page : Z) : pystr :=
  if (page >? 1)%Z then u "PgNum-" ++ str_of_Z page ++ u "/" else [].

Lemma join_nil_concat (parts : list pystr) : join [] parts = concat parts.
Proof.
  induction parts as [|p rest IH]; [reflexivity|].
  destruct rest as [|q rest']; simpl in *.
  - now rewrite app_nil_r.
  - now rewrite IH.
Qed.

(** C8. Whenever [build_listing_url] returns a URL, that URL is the
    concatenation of the parts, a slash and the pagination suffix, and
    among the parts there is never both a province segment and a
    locality segment: if a locality is given the parts are the base, the
    activity segment if an activity is given, and the locality segment,
    whatever the province, so that the URL is the same for every
    province; and an activity segment always stands before the location
    segment. *)
Theorem build_listing_url_one_location
    (actividad_slug provincia_slug localidad_slug : option pystr)
    (page : Z) (url : pystr) :
  build_listing_url actividad_slug provincia_slug localidad_slug page
    = Ok url ->
  let parts := listing_parts actividad_slug provincia_slug localidad_slug in
  url = concat parts ++ u "/" ++ pagination page
  /\ (truthy localidad_slug = true ->
      forall other_provincia,
        build_listing_url actividad_slug other_provincia localidad_slug page
          = Ok url)
  /\ existsb is_provincia_segment parts
     && existsb is_localidad_segment parts = false
  /\ (truthy localidad_slug = true ->
      parts = [BASE_URL]
              ++ (if truthy actividad_slug
                  then [u "/Actividad/" ++ text_of actividad_slug] else [])
              ++ [u "/localidad/" ++ text_of localidad_slug]
      /\ existsb is_provincia_segment parts = false)
  /\ (truthy localidad_slug = false -> truthy provincia_slug = true ->
      parts = [BASE_URL]
              ++ (if truthy actividad_slug
                  then [u "/Actividad/" ++ text_of actividad_slug] else [])
              ++ [u "/provincia/" ++ text_of provincia_slug])
  /\ (forall i j x y,
        nth_error parts i = Some x -> nth_error parts j = Some y ->
        is_actividad_segment x = true ->
        is_localidad_segment y || is_provincia_segment y = true ->
        i < j).
Proof.
  intros Hurl parts.
  split.
  { unfold build_listing_url in Hurl.
    destruct (negb _) in Hurl; [discriminate|].
    unfold pagination. rewrite join_nil_concat in Hurl.
    fold parts in Hurl.
    destruct (page >? 1)%Z; injection Hurl as <-;
      rewrite <- ?app_assoc, ?app_nil_r; reflexivity. }
  split.
  { intros Hl other. rewrite <- Hurl.
    unfold build_listing_url, listing_parts. rewrite Hl, !orb_true_r.
    reflexivity. }
  subst parts. clear Hurl. unfold listing_parts.
  destruct (truthy actividad_slug), (truthy localidad_slug),
    (truthy provincia_slug).
  all: repeat split; try discriminate; try reflexivity.
  all: intros i j x y Hi Hj Hx Hy.
  all: cbn [app] in Hi, Hj.
  all: destruct i as [|[|[|i]]]; cbn [nth_error] in Hi;
       try (destruct i; discriminate Hi); try discriminate Hi;
       injection Hi as <-; try discriminate Hx.
  all: destruct j as [|[|[|j]]]; cbn [nth_error] in Hj;
       try (destruct j; discriminate Hj); try discriminate Hj;
       injection Hj as <-; try discriminate Hy; try lia.
Qed.

(** ** The progress ledger *)

Lemma total_procesadas_nonneg (p : ScrapeProgress) :
  (0 <= total_procesadas p)%Z.
Proof. unfold total_procesadas. lia. Qed.

Lemma percentage_bounds (n t : Z) :
  (0 <= n <= t)%Z -> (0 < t)%Z ->
  (0 <= inject_Z n / inject_Z t * 100 <= 100)%Q.
Proof.
  intros Hn Ht.
  destruct t as [|t|t]; try lia.
  unfold Qle, Qdiv, Qmult, Qinv, inject_Z; simpl.
  split; nia.
Qed.

(** C10. The success rate is defined for every ledger: it never fails on
    a division by zero; it is 0 when nothing has been processed, and
    otherwise the number of successes divided by the number of processed
    URLs, times 100, a value between 0 and 100. *)
Theorem tasa_exito_total (p : ScrapeProgress) :
  exists q : Q,
    tasa_exito p = inr q
    /\ (total_procesadas p = 0%Z -> q = 0%Q)
    /\ (total_procesadas p <> 0%Z ->
        q = (inject_Z (Z.of_nat (length (empresas_ok p)))
             / inject_Z (total_procesadas p) * 100)%Q)
    /\ (0 <= q <= 100)%Q.
Proof.
  unfold tasa_exito, truediv.
  destruct (total_procesadas p =? 0)%Z eqn:Hz.
  - apply Z.eqb_eq in Hz. exists 0%Q. repeat split; try congruence.
    + unfold Qle; simpl; lia.
    + unfold Qle; simpl; lia.
  - apply Z.eqb_neq in Hz. eexists. split; [reflexivity|].
    split; [congruence|]. split; [reflexivity|].
    apply percentage_bounds.
    + unfold total_procesadas. lia.
    + pose proof (total_procesadas_nonneg p). lia.
Qed.

(** ** The field extractor *)

(** Invariants of a block of statements. *)
Definition preserves (Inv : Empresa -> Prop) (s : stmt) : Prop :=
  forall e, Inv e -> Inv (s e).

Lemma block_preserves (Inv : Empresa -> Prop) (stmts : list stmt) :
  Forall (preserves Inv) stmts -> preserves Inv (block stmts).
Proof.
  induction 1 as [|s rest Hs _ IH]; intros e He; simpl; auto.
Qed.

Lemma when_preserves (Inv : Empresa -> Prop) (c : Empresa -> bool)
    (body : stmt) :
  preserves Inv body -> preserves Inv (when c body).
Proof. intros Hb e He. unfold when. destruct (c e); auto. Qed.

Lemma option_preserves {A : Type} (Inv : Empresa -> Prop) (o : option A)
    (f : A -> stmt) :
  (forall x, preserves Inv (f x)) ->
  preserves Inv (fun e => match o with Some x => f x e | None => e end).
Proof. intros Hf e He. destruct o; auto. apply Hf, He. Qed.

(** [Inv] holds after the block whatever held before: some statement
    establishes it and the statements after that one preserve it. *)
Inductive establishes (Inv : Empresa -> Prop) : list stmt -> Prop :=
| est_here (s : stmt) (rest : list stmt) :
    (forall e, Inv (s e)) -> Forall (preserves Inv) rest ->
    establishes Inv (s :: rest)
| est_later (s : stmt) (rest : list stmt) :
    establishes Inv rest -> establishes Inv (s :: rest).

Lemma block_establishes (Inv : Empresa -> Prop) (stmts : list stmt) :
  establishes Inv stmts -> forall e, Inv (block stmts e).
Proof.
  induction 1 as [s rest Hs Hrest|s rest _ IH]; intros e; simpl.
  - apply block_preserves; auto.
  - apply IH.
Qed.

Ltac each_statement tac :=
  repeat (apply Forall_cons; [tac|]); apply Forall_nil.

Ltac statement base :=
  first
    [ apply when_preserves; statement base
    | apply option_preserves; intros ?; cbv zeta; statement base
    | base ].

Section ExtractionProperties.

Variable R : Runtime.

(** An assignment to an attribute other than [url_ficha] leaves
    [url_ficha] as it is. *)
Lemma assign_keeps_url_ficha (url : pystr) (f : field) (v : pystr) :
  field_eqb f_url_ficha f = false ->
  preserves (fun e => url_ficha e = url) (assign f v).
Proof.
  intros H e He. unfold assign.
  change (get_field f_url_ficha (set_field f v e) = url).
  rewrite get_set_other by exact H. exact He.
Qed.

(** C9. Whatever the markup, the record that [parse_company_page]
    returns has [url_ficha] equal to the URL it was called with. *)
Theorem parse_company_page_url_ficha (page_html url : pystr) :
  url_ficha (parse_company_page R page_html url) = url.
Proof.
  unfold parse_company_page, company_of.
  apply (block_preserves (fun e => url_ficha e = url)); [|reflexivity].
  unfold company_statements.
  each_statement ltac:(statement ltac:(apply assign_keeps_url_ficha; reflexivity)).
Qed.


(** A text passes the filter when it is not empty and
    [_is_placeholder] rejects none of it. *)
Definition passes (t : pystr) : Prop :=
  t <> [] /\ _is_placeholder R t = false.

(** What the label search can return: nothing, or texts that passed the
    filter, joined by single spaces (one text when the value is taken
    from the sibling of the heading). *)
Definition accepted (v : pystr) : Prop :=
  v = [] \/
  exists pieces : list pystr,
    pieces <> [] /\ Forall passes pieces /\ v = join (u " ") pieces.

Lemma passes_of_test (t : pystr) :
  nonempty t && negb (_is_placeholder R t) = true -> passes t.
Proof.
  intros H. apply andb_prop in H as [Hn Hp]. split.
  - intros ->. discriminate Hn.
  - now apply negb_true_iff in Hp.
Qed.

Lemma h3_value_accepted (field_label : pystr) (h3 : located) (v : pystr) :
  h3_value R field_label h3 = Some v -> accepted v.
Proof.
  unfold h3_value.
  destruct (contains _ _); [|discriminate].
  destruct (find_next_sibling h3) as [sibling|].
  - destruct (nonempty _ && negb _) eqn:Htest.
    + intros [= <-]. right. exists [_clean_text R (get_text sibling)].
      split; [discriminate|]. split; [|reflexivity].
      constructor; [now apply passes_of_test | constructor].
    + set (pieces := filter _ _).
      destruct (nonempty (join (u " ") pieces)) eqn:Hne; [|discriminate].
      intros [= <-]. right. exists pieces. split.
      * intros Hnil. rewrite Hnil in Hne. discriminate Hne.
      * split; [|reflexivity]. apply Forall_forall. intros t Ht.
        apply filter_In in Ht as [_ Ht]. now apply passes_of_test.
  - set (pieces := filter _ _).
    destruct (nonempty (join (u " ") pieces)) eqn:Hne; [|discriminate].
    intros [= <-]. right. exists pieces. split.
    + intros Hnil. rewrite Hnil in Hne. discriminate Hne.
    + split; [|reflexivity]. apply Forall_forall. intros t Ht.
      apply filter_In in Ht as [_ Ht]. now apply passes_of_test.
Qed.

Lemma _extract_field_value_accepted (soup : node) (field_label : pystr) :
  accepted (_extract_field_value R soup field_label).
Proof.
  unfold _extract_field_value.
  induction (find_all (has_name (u "h3")) soup) as [|h3 rest IH]; simpl.
  - now left.
  - destruct (h3_value R field_label h3) as [v|] eqn:Hv; [|exact IH].
    exact (h3_value_accepted _ _ _ Hv).
Qed.

(** The attributes that only the label search fills. *)
Definition label_only (f : field) : bool :=
  match f with
  | f_url_ficha | f_razon_social | f_direccion | f_web => false
  | _ => true
  end.

Definition labels_accepted (e : Empresa) : Prop :=
  forall f, label_only f = true -> accepted (get_field f e).

Lemma assign_accepted (f : field) (v : pystr) :
  accepted v -> preserves labels_accepted (assign f v).
Proof.
  intros Hv e He g Hg. unfold assign.
  destruct (field_eqb g f) eqn:Hgf.
  - assert (g = f) as -> by (destruct g, f; try discriminate; reflexivity).
    now rewrite get_set_same.
  - rewrite get_set_other by exact Hgf. now apply He.
Qed.

Lemma assign_unconstrained (f : field) (v : pystr) :
  label_only f = false -> preserves labels_accepted (assign f v).
Proof.
  intros Hf e He g Hg. unfold assign.
  rewrite get_set_other; [now apply He|].
  destruct g, f; try reflexivity; discriminate.
Qed.

Lemma company_labels_accepted (soup : node) (url : pystr) :
  labels_accepted (company_of R soup url).
Proof.
  unfold company_of.
  apply (block_preserves labels_accepted).
  - unfold company_statements.
    each_statement ltac:(statement ltac:(
      first [ apply assign_accepted; apply _extract_field_value_accepted
            | apply assign_unconstrained; reflexivity ])).
  - intros f Hf. left. destruct f; try reflexivity; discriminate Hf.
Qed.

(** The attribute [web] after the statement that clears a placeholder. *)
Definition web_clean (e : Empresa) : Prop :=
  web e = [] \/ _is_placeholder R (web e) = false.

Lemma assign_keeps_web (f : field) (v : pystr) :
  field_eqb f_web f = false -> preserves web_clean (assign f v).
Proof.
  intros H e He. unfold web_clean, assign.
  change (web (set_field f v e)) with (get_field f_web (set_field f v e)).
  rewrite get_set_other by exact H. exact He.
Qed.

Lemma clear_web_cleans (e : Empresa) :
  web_clean
    (when (fun empresa =>
             nonempty (web empresa) && _is_placeholder R (web empresa))
          (assign f_web []) e).
Proof.
  unfold when, web_clean.
  destruct (web e) as [|c w] eqn:Hw; simpl.
  - left. exact Hw.
  - destruct (_is_placeholder R (c :: w)) eqn:Hp.
    + left. reflexivity.
    + right. rewrite Hw. exact Hp.
Qed.

Lemma company_web_clean (soup : node) (url : pystr) :
  web_clean (company_of R soup url).
Proof.
  unfold company_of. apply block_establishes.
  unfold company_statements.
  do 20 apply est_later.
  apply est_here; [exact clear_web_cleans|].
  each_statement ltac:(statement ltac:(apply assign_keeps_web; reflexivity)).
Qed.

(** C1, as the code has it.  For every markup and every URL: the
    attribute [web] is empty or contains no placeholder phrase; each
    attribute that only the label search fills is empty or made of
    non-empty texts without placeholder phrase, joined by single spaces;
    and extracting again from the same markup and URL gives the same
    record.  ([url_ficha] is the URL as passed, and the fallbacks of
    [razon_social] and [direccion] store the page title and the address
    element unfiltered.) *)
Theorem parse_company_page_placeholders (page_html url : pystr) :
  let e := parse_company_page R page_html url in
  (web e = [] \/ _is_placeholder R (web e) = false)
  /\ (forall f, label_only f = true -> accepted (get_field f e))
  /\ (forall page_html' url',
        page_html' = page_html -> url' = url ->
        parse_company_page R page_html' url' = e).
Proof.
  unfold parse_company_page. cbv zeta. split; [|split].
  - apply company_web_clean.
  - apply company_labels_accepted.
  - intros page_html' url' -> ->. reflexivity.
Qed.

End ExtractionProperties.

(** ** Regular expressions: what a match is

    [matches r w g g'] says that [r] matches exactly the text [w], the
    capture being [g] before and [g'] after. *)

Section RegexProperties.

Variable R : Runtime.


Lemma startswith_app (l rest : pystr) : startswith (l ++ rest) l = true.
Proof.
  induction l as [|c l IH]; simpl; [reflexivity|].
  now rewrite N.eqb_refl, IH.
Qed.












End RegexProperties.

(** ** The result count *)

Section ResultCountProperties.

Variable R : Runtime.


















End ResultCountProperties.

(** ** The page fetcher *)

Section FetchProperties.

Local Arguments u : simpl never.

Variable R : Runtime.
Variable W : World.

Definition responded (o : outcome) : bool :=
  match o with
  | Responded _ => true
  | RequestFailed _ => false
  end.

Definition not_found (o : outcome) : bool :=
  match o with
  | Responded r => (status_code r =? 404)%Z
  | RequestFailed _ => false
  end.

Definition is_sleep (e : event) : Prop :=
  match e with
  | EvSleep _ => True
  | _ => False
  end.

Definition NOT_FOUND (url : pystr) : exn :=
  ScraperError (u "Página no encontrada (404): " ++ url).

Lemma py_int_raises (v : pystr) (e : exn) :
  py_int R v = Raise e -> is_RequestException e = false.
Proof.
  unfold py_int. destruct (match strip v with [] => _ | _ => _ end);
    [discriminate|]. intros [= <-]. reflexivity.
Qed.

(** One pass through the [try] of the retry loop: one request, then at
    most a sleep; nothing else of the state changes but the request
    counter, which counts the responses, and the User-Agent. *)
Lemma attempt_body_shape (url : pystr) (attempt : nat)
    (last_error : option exn) (s : state) :
  let o := http W (gets s) url (user_agent s) in
  exists (sleeps : list event) (ua' : pystr),
    snd (attempt_body R W url attempt last_error s) =
      {| _request_count := _request_count s + (if responded o then 1 else 0);
         user_agent := ua'; output_dir := output_dir s;
         progress := progress s; gets := S (gets s); draws := draws s;
         saves := saves s;
         trace := sleeps ++ EvGet url (user_agent s) o :: trace s |}
    /\ Forall is_sleep sleeps
    /\ (not_found o = true ->
        sleeps = []
        /\ fst (attempt_body R W url attempt last_error s)
           = Raise (NOT_FOUND url)).
Proof.
  intros o. subst o.
  unfold attempt_body, try_except, session_get, bind, read, modify, emit,
    ret, raise, lift, with_gets, with_trace, with_request_count,
    with_user_agent, raise_for_status, sleep; simpl.
  destruct (http W (gets s) url (user_agent s)) as [r|msg]; simpl.
  - destruct (status_code r =? 200)%Z eqn:H200.
    + apply Z.eqb_eq in H200.
      destruct (_detect_captcha R (text r)); simpl.
      * destruct (Qle_bool 0 (inject_Z (backoff attempt))); simpl.
        -- exists [EvSleep (inject_Z (backoff attempt))]. eexists.
           split; [reflexivity|]. split; [repeat constructor|].
           rewrite H200. discriminate.
        -- exists []. eexists. split; [reflexivity|]. split; [constructor|].
           rewrite H200. discriminate.
      * exists []. eexists. split; [reflexivity|]. split; [constructor|].
        rewrite H200. discriminate.
    + destruct (status_code r =? 429)%Z eqn:H429.
      * apply Z.eqb_eq in H429.
        destruct (match retry_after_header r with
                  | Some v => py_int R v
                  | None => Ok RETRY_BACKOFF_BASE
                  end) as [n|e] eqn:Hint; simpl.
        -- destruct (Qle_bool 0 (inject_Z (n * 2 ^ Z.of_nat attempt))); simpl.
           ++ eexists [_]. eexists. split; [reflexivity|].
              split; [repeat constructor|]. rewrite H429. discriminate.
           ++ exists []. eexists. split; [reflexivity|].
              split; [constructor|]. rewrite H429. discriminate.
        -- assert (He : is_RequestException e = false).
           { destruct (retry_after_header r) as [v|]; [|discriminate].
             exact (py_int_raises v e Hint). }
           rewrite He.
           exists []. eexists. split; [reflexivity|].
           split; [constructor|]. rewrite H429. discriminate.
      * destruct (status_code r =? 404)%Z eqn:H404; simpl.
        -- exists []. eexists. split; [reflexivity|].
           split; [constructor|]. intros _. split; reflexivity.
        -- destruct ((400 <=? status_code r) && (status_code r <? 600))%Z;
             simpl.
           ++ destruct (Qle_bool 0 (inject_Z (backoff attempt))); simpl.
              ** eexists [_]. eexists. split; [reflexivity|].
                 split; [repeat constructor|]. discriminate.
              ** exists []. eexists. split; [reflexivity|].
                 split; [constructor|]. discriminate.
           ++ exists []. eexists. split; [reflexivity|].
              split; [constructor|]. discriminate.
  - destruct (Qle_bool 0 (inject_Z (backoff attempt))); simpl.
    + eexists [_]. eexists. split; [rewrite Nat.add_0_r; reflexivity|].
      split; [repeat constructor|]. discriminate.
    + exists []. eexists. split; [rewrite Nat.add_0_r; reflexivity|].
      split; [constructor|]. discriminate.
Qed.


(** The randomized delay that precedes a request, and the state it
    leaves: nothing happens while no response has been received. *)
Definition delay_value (s : state) : Q :=
  (REQUEST_DELAY_MIN
   + (REQUEST_DELAY_MAX - REQUEST_DELAY_MIN) * random W (draws s))%Q.

Definition after_delay (s : state) : state :=
  if 0 <? _request_count s
  then with_trace (cons (EvSleep (delay_value s)))
         (with_draws (S (draws s)) s)
  else s.

Lemma attempt_step_cases (url : pystr) (attempt : nat)
    (last_error : option exn) (s : state) :
  ((0 <? _request_count s) = true
   /\ Qle_bool 0 (delay_value s) = false
   /\ attempt_step R W url attempt last_error s
      = (Raise (ValueError (u "sleep length must be non-negative")),
         with_draws (S (draws s)) s))
  \/ (((0 <? _request_count s) = false \/ Qle_bool 0 (delay_value s) = true)
      /\ attempt_step R W url attempt last_error s
         = attempt_body R W url attempt last_error (after_delay s)).
Proof.
  unfold attempt_step, after_delay, _delay, random_uniform, sleep, bind, read,
    modify, emit, ret, raise.
  destruct (0 <? _request_count s) eqn:Hrc; simpl.
  - fold (delay_value s).
    destruct (Qle_bool 0 (delay_value s)) eqn:Hd; simpl.
    + right. split; [now right | reflexivity].
    + left. auto.
  - right. split; [now left | reflexivity].
Qed.

Lemma fetch_attempts_step (url : pystr) (attempt : nat) (rest : list nat)
    (last_error : option exn) (s : state) :
  fetch_attempts R W url (attempt :: rest) last_error s =
    match attempt_step R W url attempt last_error s with
    | (Ok (Returned html), s') => (Ok html, s')
    | (Ok (Continue last_error'), s') =>
      fetch_attempts R W url rest last_error' s'
    | (Raise e, s') => (Raise e, s')
    end.
Proof.
  simpl. unfold bind.
  destruct (attempt_step R W url attempt last_error s) as [[[html|le]|e] s'];
    reflexivity.
Qed.

(** *** A 404 ends the call *)









(** *** The delay between requests *)

(** [random.random()] returns a number in [0, 1). *)
Definition random_in_unit : Prop :=
  forall k, (0 <= random W k /\ random W k < 1)%Q.

Definition in_window (d : Q) : Prop :=
  (REQUEST_DELAY_MIN <= d /\ d <= REQUEST_DELAY_MAX)%Q.

(** The number of responses received, in a trace. *)
Fixpoint responses (t : list event) : nat :=
  match t with
  | [] => 0
  | EvGet _ _ o :: older => (if responded o then 1 else 0) + responses older
  | _ :: older => responses older
  end.

(** The number of requests issued after a response had been received. *)
Fixpoint later_requests (t : list event) : nat :=
  match t with
  | [] => 0
  | EvGet _ _ _ :: older =>
    (if 0 <? responses older then 1 else 0) + later_requests older
  | _ :: older => later_requests older
  end.

(** Every request issued after a response had been received comes
    right after a sleep of a duration in the window. *)
Fixpoint delays_in_place (t : list event) : Prop :=
  match t with
  | [] => True
  | EvGet _ _ _ :: older =>
    (0 < responses older ->
     exists d rest, older = EvSleep d :: rest /\ in_window d)
    /\ delays_in_place older
  | _ :: older => delays_in_place older
  end.

Definition is_get (e : event) : Prop :=
  match e with
  | EvGet _ _ _ => True
  | _ => False
  end.

(** The state of a session in which only pages have been fetched:
    [_request_count] counts the responses, one random delay has been
    drawn for each request issued after the first response and it was
    slept right before that request, and the oldest event, if any, is a
    request. *)
Definition polite (s : state) : Prop :=
  _request_count s = responses (trace s)
  /\ draws s = later_requests (trace s)
  /\ delays_in_place (trace s)
  /\ (trace s = [] \/ is_get (last (trace s) EvClose)).

Lemma delay_in_window (s : state) :
  random_in_unit -> in_window (delay_value s).
Proof.
  intros Hr. destruct (Hr (draws s)) as [H0 H1].
  unfold in_window, delay_value, REQUEST_DELAY_MIN, REQUEST_DELAY_MAX.
  split; lra.
Qed.

Lemma delay_can_be_slept (s : state) :
  random_in_unit -> Qle_bool 0 (delay_value s) = true.
Proof.
  intros Hr. destruct (delay_in_window s Hr) as [H _].
  apply Qle_bool_iff. unfold REQUEST_DELAY_MIN in H. lra.
Qed.

Lemma responses_sleeps (sleeps t : list event) :
  Forall is_sleep sleeps -> responses (sleeps ++ t) = responses t.
Proof.
  induction 1 as [|e rest He _ IH]; [reflexivity|].
  destruct e; try contradiction. exact IH.
Qed.

Lemma later_requests_sleeps (sleeps t : list event) :
  Forall is_sleep sleeps -> later_requests (sleeps ++ t) = later_requests t.
Proof.
  induction 1 as [|e rest He _ IH]; [reflexivity|].
  destruct e; try contradiction. exact IH.
Qed.

Lemma delays_in_place_sleeps (sleeps t : list event) :
  Forall is_sleep sleeps -> delays_in_place t ->
  delays_in_place (sleeps ++ t).
Proof.
  induction 1 as [|e rest He _ IH]; intros Ht; [exact Ht|].
  destruct e; try contradiction. exact (IH Ht).
Qed.

Lemma last_app_nonempty (l t : list event) (d : event) :
  t <> [] -> last (l ++ t) d = last t d.
Proof.
  intros Ht. induction l as [|e l IH]; [reflexivity|].
  simpl. destruct (l ++ t) eqn:Hlt; [|exact IH].
  apply app_eq_nil in Hlt as [_ Hlt]. contradiction.
Qed.

Lemma new_scraper_polite (dir : pystr) : polite (new_scraper dir).
Proof. repeat split; simpl; auto. Qed.

Lemma attempt_step_polite (url : pystr) (attempt : nat)
    (last_error : option exn) (s : state) :
  random_in_unit -> polite s ->
  polite (snd (attempt_step R W url attempt last_error s)).
Proof.
  intros Hr (Hrc & Hdraws & Hplace & Hfirst).
  destruct (attempt_step_cases url attempt last_error s)
    as [(_ & Hd & _)|(_ & ->)].
  { rewrite (delay_can_be_slept s Hr) in Hd. discriminate Hd. }
  destruct (attempt_body_shape url attempt last_error (after_delay s))
    as (sleeps & ua' & -> & Hsl & _).
  set (o := http W (gets (after_delay s)) url (user_agent (after_delay s))).
  unfold polite. cbn [snd _request_count draws trace].
  unfold after_delay.
  destruct (0 <? _request_count s) eqn:Hpos;
    cbn [_request_count draws trace with_trace with_draws user_agent].
  - apply Nat.ltb_lt in Hpos.
    rewrite responses_sleeps, later_requests_sleeps by exact Hsl.
    cbn [responses later_requests]. rewrite <- Hrc, <- Hdraws.
    destruct (Nat.ltb_spec 0 (_request_count s)) as [_|Hle]; [|lia].
    split; [|split; [|split]].
    + destruct (responded o); lia.
    + lia.
    + apply delays_in_place_sleeps; [exact Hsl|]. cbn [delays_in_place].
      split; [|exact Hplace]. intros _.
      exists (delay_value s), (trace s). split; [reflexivity|].
      exact (delay_in_window s Hr).
    + right. destruct Hfirst as [Hnil|Hget].
      * rewrite Hnil in Hrc. simpl in Hrc. lia.
      * change (sleeps ++ EvGet url (user_agent s) o
                  :: EvSleep (delay_value s) :: trace s)
          with (sleeps ++ [EvGet url (user_agent s) o;
                           EvSleep (delay_value s)] ++ trace s).
        rewrite app_assoc, last_app_nonempty; [exact Hget|].
        intros Hnil. rewrite Hnil in Hrc. simpl in Hrc. lia.
  - apply Nat.ltb_ge in Hpos.
    rewrite responses_sleeps, later_requests_sleeps by exact Hsl.
    cbn [responses later_requests]. rewrite <- Hrc, <- Hdraws.
    destruct (Nat.ltb_spec 0 (_request_count s)) as [Hlt|_]; [lia|].
    split; [|split; [|split]].
    + destruct (responded o); lia.
    + lia.
    + apply delays_in_place_sleeps; [exact Hsl|]. cbn [delays_in_place].
      split; [|exact Hplace]. intros Hlt. lia.
    + right. destruct (trace s) as [|e t] eqn:Ht.
      * rewrite last_last. exact I.
      * change (sleeps ++ EvGet url (user_agent s) o :: e :: t)
          with (sleeps ++ [EvGet url (user_agent s) o] ++ e :: t).
        rewrite app_assoc, last_app_nonempty by discriminate.
        destruct Hfirst as [Hnil|Hget]; [discriminate Hnil | exact Hget].
Qed.

Lemma fetch_attempts_polite (url : pystr) (attempts : list nat) :
  random_in_unit ->
  forall (last_error : option exn) (s : state),
    polite s -> polite (snd (fetch_attempts R W url attempts last_error s)).
Proof.
  intros Hr. induction attempts as [|attempt rest IH]; intros last_error s Hs.
  - exact Hs.
  - rewrite fetch_attempts_step.
    pose proof (attempt_step_polite url attempt last_error s Hr Hs) as Hstep.
    destruct (attempt_step R W url attempt last_error s)
      as [[[html|le]|e] s']; simpl in *; auto.
Qed.

(** C5, as the code has it.  In a session in which the random numbers
    lie in [0, 1), every call of [fetch_page] keeps the session polite:
    each request issued after the instance has received a response comes
    right after a sleep of a random duration within
    [REQUEST_DELAY_MIN, REQUEST_DELAY_MAX], one such delay is drawn for
    each of these requests and for no other, and nothing precedes the
    first request of the session.  A new scraper starts polite. *)
Theorem fetch_page_keeps_polite (url : pystr) (s : state) :
  random_in_unit -> polite s -> polite (snd (fetch_page R W url s)).
Proof.
  intros Hr Hs. unfold fetch_page. now apply fetch_attempts_polite.
Qed.

End FetchProperties.

(** ** The traversals *)

Section TraversalProperties.

Variable R : Runtime.
Variable W : World.

Local Arguments u : simpl never.

(** Fetching a page touches neither the ledger nor the disk. *)
Definition same_ledger (s s' : state) : Prop :=
  progress s' = progress s /\ output_dir s' = output_dir s
  /\ saves s' = saves s.

Lemma attempt_step_same_ledger (url : pystr) (attempt : nat)
    (last_error : option exn) (s : state) :
  same_ledger s (snd (attempt_step R W url attempt last_error s)).
Proof.
  destruct (attempt_step_cases R W url attempt last_error s)
    as [(_ & _ & ->)|(_ & ->)].
  - repeat split.
  - destruct (attempt_body_shape R W url attempt last_error (after_delay W s))
      as (sleeps & ua' & -> & _).
    unfold same_ledger, after_delay. simpl.
    destruct (0 <? _request_count s); repeat split.
Qed.

Lemma fetch_attempts_same_ledger (url : pystr) (attempts : list nat) :
  forall (last_error : option exn) (s : state),
    same_ledger s (snd (fetch_attempts R W url attempts last_error s)).
Proof.
  induction attempts as [|attempt rest IH]; intros last_error s.
  - repeat split.
  - rewrite fetch_attempts_step.
    pose proof (attempt_step_same_ledger url attempt last_error s) as Hstep.
    destruct (attempt_step R W url attempt last_error s)
      as [[[html|le]|e] s']; simpl in *; auto.
    destruct (IH le s') as (H1 & H2 & H3).
    destruct Hstep as (H1' & H2' & H3').
    repeat split; congruence.
Qed.

Lemma fetch_page_same_ledger (url : pystr) (s : state) :
  same_ledger s (snd (fetch_page R W url s)).
Proof. apply fetch_attempts_same_ledger. Qed.

Lemma scrape_company_same_ledger (url : pystr) (s : state) :
  same_ledger s (snd (scrape_company R W url s)).
Proof.
  unfold scrape_company, bind, ret.
  pose proof (fetch_page_same_ledger url s) as H.
  destruct (fetch_page R W url s) as [[html|e] s']; exact H.
Qed.

(** *** The loop over the company URLs *)

Definition failure (url : pystr) (e : exn) : error_entry :=
  {| err_url := url; err_error := exn_str e |}.

(** A URL whose fetch or extraction raises: the failure is recorded,
    nothing is added to the successes, and the iteration ends normally. *)
Lemma process_company_failure (json_path : option pystr) (url : pystr)
    (s : state) (e : exn) :
  fst (scrape_company R W url s) = Raise e ->
  let s' := snd (process_company R W json_path url s) in
  fst (process_company R W json_path url s) = Ok tt
  /\ empresas_error (progress s')
     = empresas_error (progress s) ++ [failure url e]
  /\ empresas_ok (progress s') = empresas_ok (progress s)
  /\ total_esperado (progress s') = total_esperado (progress s).
Proof.
  intros He.
  destruct (scrape_company_same_ledger url s) as (Hp & _ & _).
  unfold process_company, try_except, bind, read, modify, ret in *.
  destruct (scrape_company R W url s) as [[empresa|e'] s1]; simpl in *;
    [discriminate|].
  injection He as ->. rewrite Hp. repeat split.
Qed.

(** Whatever happens to one URL, the iteration ends normally and the
    ledger has grown by at least one entry. *)
Lemma process_company_grows (json_path : option pystr) (url : pystr)
    (s : state) :
  let s' := snd (process_company R W json_path url s) in
  fst (process_company R W json_path url s) = Ok tt
  /\ exists oks errs,
       empresas_ok (progress s') = empresas_ok (progress s) ++ oks
       /\ empresas_error (progress s') = empresas_error (progress s) ++ errs
       /\ 1 <= length oks + length errs.
Proof.
  destruct (scrape_company R W url s) as [[empresa|e] s1] eqn:Hsc.
  - pose proof (scrape_company_same_ledger url s) as (Hp & _ & _).
    rewrite Hsc in Hp. simpl in Hp.
    unfold process_company, save_to_json, emit, try_except, bind, read,
      modify, ret, raise.
    rewrite Hsc. simpl. rewrite Hp.
    destruct (truthy json_path && _); simpl.
    + destruct (disk W (saves s1)) as [e|]; simpl.
      * split; [reflexivity|]. exists [empresa], [failure url e].
        repeat split. simpl. lia.
      * split; [reflexivity|]. exists [empresa], [].
        rewrite app_nil_r. repeat split. simpl. lia.
    + split; [reflexivity|]. exists [empresa], [].
      rewrite app_nil_r. repeat split. simpl. lia.
  - assert (He : fst (scrape_company R W url s) = Raise e) by now rewrite Hsc.
    destruct (process_company_failure json_path url s e He)
      as (Hok & Herr & Hoks & _).
    split; [exact Hok|]. exists [], [failure url e].
    rewrite app_nil_r. repeat split; auto.
Qed.

Lemma company_loop_step (json_path : option pystr) (url : pystr)
    (rest : list pystr) (s : state) :
  company_loop R W json_path (url :: rest) s
  = company_loop R W json_path rest
      (snd (process_company R W json_path url s)).
Proof.
  simpl. unfold bind.
  destruct (process_company_grows json_path url s) as [Hok _].
  destruct (process_company R W json_path url s) as [[[]|e] s'];
    [reflexivity | discriminate Hok].
Qed.

Lemma company_loop_grows (json_path : option pystr) (urls : list pystr) :
  forall s : state,
  let s' := snd (company_loop R W json_path urls s) in
  fst (company_loop R W json_path urls s) = Ok tt
  /\ exists oks errs,
       empresas_ok (progress s') = empresas_ok (progress s) ++ oks
       /\ empresas_error (progress s') = empresas_error (progress s) ++ errs
       /\ length urls <= length oks + length errs.
Proof.
  induction urls as [|url rest IH]; intros s.
  - split; [reflexivity|]. exists [], []. rewrite !app_nil_r.
    repeat split. simpl. lia.
  - cbv zeta. rewrite company_loop_step.
    destruct (process_company_grows json_path url s)
      as (_ & oks1 & errs1 & Hok1 & Herr1 & Hlen1).
    destruct (IH (snd (process_company R W json_path url s)))
      as (Hres & oks2 & errs2 & Hok2 & Herr2 & Hlen2).
    split; [exact Hres|]. exists (oks1 ++ oks2), (errs1 ++ errs2).
    rewrite Hok2, Herr2, Hok1, Herr1, <- !app_assoc.
    repeat split. rewrite !length_app. simpl. lia.
Qed.

Lemma company_loop_app (json_path : option pystr) (before after : list pystr) :
  forall s : state,
  company_loop R W json_path (before ++ after) s
  = company_loop R W json_path after
      (snd (company_loop R W json_path before s)).
Proof.
  induction before as [|url rest IH]; intros s; [reflexivity|].
  rewrite <- app_comm_cons, !company_loop_step. apply IH.
Qed.

(** C3. The loop over the discovered URLs always runs to its end: for
    every list of URLs and every state it finishes normally having
    added at least one ledger entry per URL.  And when the turn of a URL
    comes and fetching or extracting it raises an exception [e], that
    iteration appends [{url, str(e)}] to the failures, leaves the
    successes as they are, and the loop goes on with all the URLs after
    it; the recorded failure is still in the ledger at the end. *)
Theorem company_loop_isolates_failures (json_path : option pystr)
    (company_urls : list pystr) (s : state) :
  let final := snd (company_loop R W json_path company_urls s) in
  fst (company_loop R W json_path company_urls s) = Ok tt
  /\ (total_procesadas (progress s) + Z.of_nat (length company_urls)
      <= total_procesadas (progress final))%Z
  /\ forall before url after e,
       company_urls = before ++ url :: after ->
       let s1 := snd (company_loop R W json_path before s) in
       fst (scrape_company R W url s1) = Raise e ->
       let s2 := snd (process_company R W json_path url s1) in
       empresas_error (progress s2)
         = empresas_error (progress s1) ++ [failure url e]
       /\ empresas_ok (progress s2) = empresas_ok (progress s1)
       /\ company_loop R W json_path company_urls s
          = company_loop R W json_path after s2
       /\ In (failure url e) (empresas_error (progress final)).
Proof.
  cbv zeta.
  destruct (company_loop_grows json_path company_urls s)
    as (Hres & oks & errs & Hoks & Herrs & Hlen).
  split; [exact Hres|]. split.
  - unfold total_procesadas. rewrite Hoks, Herrs, !length_app. lia.
  - intros before url after e Hurls He.
    destruct (process_company_failure json_path url _ e He)
      as (_ & Herr & Hok & _).
    split; [exact Herr|]. split; [exact Hok|].
    assert (Hcont : company_loop R W json_path company_urls s
                    = company_loop R W json_path after
                        (snd (process_company R W json_path url
                           (snd (company_loop R W json_path before s))))).
    { rewrite Hurls, company_loop_app, company_loop_step. reflexivity. }
    split; [exact Hcont|].
    rewrite Hcont.
    destruct (company_loop_grows json_path after
                (snd (process_company R W json_path url
                   (snd (company_loop R W json_path before s)))))
      as (_ & oks' & errs' & _ & Herrs' & _).
    rewrite Herrs', Herr. apply in_or_app. left.
    apply in_or_app. right. now left.
Qed.


(** *** The loop over the listing pages *)

(** The pages the loop is run over, for a cap and a reported total. *)
Definition remaining_pages (cap total : Z) : list Z :=
  range 2 (ceil_div (Z.min cap total) RESULTS_PER_PAGE + 1).

(** Once the accumulated URLs have reached the cap, the loop ends
    without touching the network: the state is left as it is. *)
Lemma listing_pages_stops
    (actividad_slug provincia_slug localidad_slug : option pystr)
    (cap : Z) (pages : list Z) (all_urls : list pystr) (s : state) :
  (0 < cap)%Z -> (cap <= Z.of_nat (length all_urls))%Z ->
  listing_pages R W actividad_slug provincia_slug localidad_slug (Some cap)
    pages all_urls s = (Ok all_urls, s).
Proof.
  intros Hpos Hcap. destruct pages as [|page rest]; [reflexivity|].
  simpl. unfold cap_reached, truthy_int, int_of.
  destruct (Z.eqb_spec cap 0) as [->|_]; [lia|].
  destruct (Z.leb_spec cap (Z.of_nat (length all_urls))) as [_|Hlt]; [|lia].
  reflexivity.
Qed.

Lemma cap_given_positive (cap : Z) : (0 < cap)%Z -> cap_given (Some cap) = true.
Proof.
  intros H. unfold cap_given, truthy_int, int_of.
  destruct (Z.eqb_spec cap 0) as [->|_]; [lia|].
  destruct (Z.gtb_spec cap 0) as [_|Hle]; [reflexivity | lia].
Qed.

Lemma length_firstn_cap (cap : Z) (l : list pystr) :
  (0 < cap)%Z ->
  Z.of_nat (length (firstn (Z.to_nat cap) l))
  = Z.min cap (Z.of_nat (length l)).
Proof. intros H. rewrite length_firstn. lia. Qed.

(** C2, as the code has it.  For a traversal with a positive cap that
    returns: if the first page reports a count of 0 the result is the
    empty list, whatever that page listed; otherwise the result is the
    list collected over page 1 and the remaining pages, cut to the cap,
    so that it has exactly min(cap, URLs collected) entries.  Once the
    collected URLs have reached the cap the loop requests no further
    page.  In particular, with a count of 65 and a cap of 40 the loop
    runs over page 2 only, although the listing has 3 pages, and the
    result has exactly 40 entries as soon as 40 were collected. *)
Theorem scrape_listing_urls_cap
    (actividad_slug provincia_slug localidad_slug : option pystr)
    (cap : Z) (s s' : state) (urls : list pystr) (total : Z) :
  (0 < cap)%Z ->
  scrape_listing_urls R W actividad_slug provincia_slug localidad_slug
    (Some cap) s = (Ok (urls, total), s') ->
  (forall pages all_urls st,
     (cap <= Z.of_nat (length all_urls))%Z ->
     listing_pages R W actividad_slug provincia_slug localidad_slug
       (Some cap) pages all_urls st = (Ok all_urls, st))
  /\ ((total = 0%Z /\ urls = [])
      \/ (total <> 0%Z
          /\ exists url1 html s1 collected,
               build_listing_url actividad_slug provincia_slug
                 localidad_slug 1 = Ok url1
               /\ fetch_page R W url1 s = (Ok html, s1)
               /\ parse_result_count R html = Ok total
               /\ listing_pages R W actividad_slug provincia_slug
                    localidad_slug (Some cap) (remaining_pages cap total)
                    (parse_listing_page R html) s1 = (Ok collected, s')
               /\ urls = firstn (Z.to_nat cap) collected
               /\ Z.of_nat (length urls)
                  = Z.min cap (Z.of_nat (length collected))
               /\ (40 <= length collected -> cap = 40%Z ->
                   length urls = 40)))
  /\ remaining_pages 40 65 = [2%Z]
  /\ ceil_div 65 RESULTS_PER_PAGE = 3%Z.
Proof.
  intros Hpos Hrun. split; [|split; [|split; reflexivity]].
  { intros pages all_urls st Hcap. now apply listing_pages_stops. }
  unfold scrape_listing_urls, bind, lift, ret in Hrun.
  destruct (build_listing_url actividad_slug provincia_slug localidad_slug 1)
    as [url1|e]; [|discriminate].
  destruct (fetch_page R W url1 s) as [[html|e] s1] eqn:Hfetch;
    [|discriminate].
  destruct (parse_result_count R html) as [total'|e] eqn:Hcount;
    [|discriminate].
  destruct (Z.eqb_spec total' 0) as [Hz|Hnz].
  - injection Hrun as <- <- <-. now left.
  - rewrite (cap_given_positive cap Hpos) in Hrun.
    cbn [int_of app] in Hrun.
    destruct (listing_pages R W actividad_slug provincia_slug localidad_slug
                (Some cap) _ _ s1) as [[collected|e] s2] eqn:Hloop;
      [|discriminate].
    injection Hrun as <- <- <-. right. split; [exact Hnz|].
    exists url1, html, s1, collected.
    repeat split; auto.
    + apply length_firstn_cap, Hpos.
    + intros Hlen ->. rewrite length_firstn.
      change (Z.to_nat 40) with 40. lia.
Qed.

End TraversalProperties.

(** ** The whole run *)

Section RunProperties.

Variable R : Runtime.
Variable W : World.

Local Arguments u : simpl never.

(** X4. At the level of [run]: once the listing phase has returned its
    URLs, and as long as the disk takes the final save, [run] returns
    the ledger, with at least one entry per URL, whatever happened to
    the single companies. *)
Lemma run_survives_company_failures
    (actividad_slug provincia_slug localidad_slug : option pystr)
    (max_results : option Z) (output_filename : option pystr)
    (s s1 : state) (company_urls : list pystr) (total : Z) :
  scrape_listing_urls R W actividad_slug provincia_slug localidad_slug
    max_results (with_progress new_ScrapeProgress s)
    = (Ok (company_urls, total), s1) ->
  (forall k, disk W k = None) ->
  exists p s',
    run R W actividad_slug provincia_slug localidad_slug max_results
      output_filename s = (Ok p, s')
    /\ p = progress s'
    /\ (Z.of_nat (length company_urls) <= total_procesadas p)%Z.
Proof.
  intros Hlist Hdisk.
  unfold run, bind, modify, read, ret. rewrite Hlist. cbn [fst].
  destruct company_urls as [|url rest].
  - eexists. eexists. split; [reflexivity|]. split; [reflexivity|].
    unfold total_procesadas. simpl. lia.
  - set (s2 := with_progress _ s1).
    set (json_path := if truthy output_filename then _ else None).
    destruct (company_loop_grows R W json_path (url :: rest) s2)
      as (Hres & oks & errs & Hoks & Herrs & Hlen).
    destruct (company_loop R W json_path (url :: rest) s2) as [r s3].
    simpl in Hres. subst r.
    assert (Hcount : (Z.of_nat (length (url :: rest))
                      <= total_procesadas (progress s3))%Z).
    { unfold total_procesadas. cbn [snd] in Hoks, Herrs.
      rewrite Hoks, Herrs, !length_app. lia. }
    destruct (truthy json_path && _).
    + unfold save_to_json, close, emit, bind, read, modify, ret.
      rewrite Hdisk. eexists. eexists.
      split; [reflexivity|]. split; [reflexivity|]. exact Hcount.
    + unfold close, emit, modify. eexists. eexists.
      split; [reflexivity|]. split; [reflexivity|]. exact Hcount.
Qed.

End RunProperties.

(** ** Further properties of the builder, the fetcher and the listing loop *)

(** X1. [build_company_url] returns an absolute URL unchanged and joins
    anything else to the base URL, so that applying it twice is the same
    as applying it once. *)
Theorem build_company_url_idempotent (slug : pystr) :
  build_company_url (build_company_url slug) = build_company_url slug
  /\ (startswith slug (u "http") = true -> build_company_url slug = slug)
  /\ (startswith slug (u "http") = false ->
      build_company_url slug = BASE_URL ++ u "/" ++ slug).
Proof.
  unfold build_company_url.
  destruct (startswith slug (u "http")) eqn:H.
  - rewrite H. repeat split; auto. discriminate.
  - repeat split; auto. discriminate.
Qed.

Section RetryProperties.

Variable R : Runtime.
Variable W : World.

Lemma attempt_step_one_request (url : pystr) (attempt : nat)
    (last_error : option exn) (s : state) :
  gets (snd (attempt_step R W url attempt last_error s)) <= S (gets s).
Proof.
  destruct (attempt_step_cases R W url attempt last_error s)
    as [(_ & _ & ->)|(_ & ->)].
  - simpl. lia.
  - destruct (attempt_body_shape R W url attempt last_error (after_delay W s))
      as (sleeps & ua' & -> & _).
    unfold after_delay. simpl. destruct (0 <? _request_count s); simpl; lia.
Qed.

Lemma fetch_attempts_requests (url : pystr) (attempts : list nat) :
  forall (last_error : option exn) (s : state),
    gets (snd (fetch_attempts R W url attempts last_error s))
    <= gets s + length attempts.
Proof.
  induction attempts as [|attempt rest IH]; intros last_error s.
  - simpl. lia.
  - rewrite fetch_attempts_step.
    pose proof (attempt_step_one_request url attempt last_error s) as Hstep.
    destruct (attempt_step R W url attempt last_error s)
      as [[[html|le]|e] s']; simpl in *; try lia.
    specialize (IH le s'). lia.
Qed.

(** X2. One call of [fetch_page] issues at most [MAX_RETRIES] requests,
    whatever the network answers. *)
Theorem fetch_page_bounded_requests (url : pystr) (s : state) :
  gets (snd (fetch_page R W url s)) <= gets s + MAX_RETRIES.
Proof.
  unfold fetch_page.
  pose proof (fetch_attempts_requests url (seq 0 MAX_RETRIES) None s) as H.
  now rewrite length_seq in H.
Qed.

(** X3. A listing page whose fetch fails with a scraper error is skipped:
    the loop goes on with the next page and the URLs collected so far.
    (The hypotheses: the cap is not reached yet and the URL of the page
    can be built.) *)
Theorem listing_pages_skips_failed_page
    (actividad_slug provincia_slug localidad_slug : option pystr)
    (max_results : option Z) (page : Z) (rest : list Z)
    (all_urls : list pystr) (s s1 : state) (url : pystr) (e : exn) :
  cap_reached max_results all_urls = false ->
  build_listing_url actividad_slug provincia_slug localidad_slug page
    = Ok url ->
  fetch_page R W url s = (Raise e, s1) ->
  is_ScraperError e = true ->
  listing_pages R W actividad_slug provincia_slug localidad_slug max_results
    (page :: rest) all_urls s
  = listing_pages R W actividad_slug provincia_slug localidad_slug
      max_results rest all_urls s1.
Proof.
  intros Hcap Hurl Hfetch He. simpl.
  rewrite Hcap, Hurl. unfold bind, lift, try_except, ret.
  rewrite Hfetch, He. reflexivity.
Qed.

End RetryProperties.

(** * Properties of the rest of the program

    The normal form of the extracted texts, the outcomes of the fetcher,
    the ledger of a run, the export and the questions of the command
    line. *)

Lemma py_eqb_eq (a b : pystr) : py_eqb a b = true <-> a = b.
Proof.
  unfold py_eqb. destruct (list_eq_dec N.eq_dec a b); split; intros H;
    try reflexivity; try assumption; try discriminate; contradiction.
Qed.


(** ** Whitespace normalisation ([_clean_text]) *)

(** [tidy prev t]: in [t] every whitespace character is a single space
    that follows a character other than whitespace, and [t] does not end
    with one; [prev] tells whether a space stands right before [t]. *)
Fixpoint tidy (prev : bool) (t : pystr) : bool :=
  match t with
  | [] => negb prev
  | c :: t' =>
    if isspace c then (c =? 32)%N && negb prev && tidy true t'
    else tidy false t'
  end.

(** The same without the condition on the end of [t]. *)
Fixpoint spaced (prev : bool) (t : pystr) : bool :=
  match t with
  | [] => true
  | c :: t' =>
    if isspace c then (c =? 32)%N && negb prev && spaced true t'
    else spaced false t'
  end.

(** A text in normal form: empty, or tidy from its first character on. *)
Definition normal (t : pystr) : Prop := t = [] \/ tidy true t = true.

(** [s.rstrip()], from the left. *)
Fixpoint rstrip (t : pystr) : pystr :=
  match t with
  | [] => []
  | c :: t' =>
    match rstrip t' with
    | [] => if isspace c then [] else [c]
    | r => c :: r
    end
  end.

Lemma lstrip_app (l m : pystr) :
  lstrip (l ++ m) = match lstrip l with
                    | [] => lstrip m
                    | r => r ++ m
                    end.
Proof.
  induction l as [|c l IH]; simpl; [now destruct (lstrip m)|].
  destruct (isspace c); [exact IH | reflexivity].
Qed.

Lemma rev_lstrip_rev (t : pystr) : rev (lstrip (rev t)) = rstrip t.
Proof.
  induction t as [|c t IH]; [reflexivity|].
  simpl. rewrite lstrip_app, <- IH.
  destruct (lstrip (rev t)) as [|d r] eqn:Hl.
  - simpl. destruct (isspace c); reflexivity.
  - rewrite rev_app_distr. simpl.
    destruct (rev r ++ [d]) eqn:Hr; [|reflexivity].
    apply app_eq_nil in Hr as [_ Hr]. discriminate Hr.
Qed.

Lemma strip_is_rstrip_lstrip (t : pystr) : strip t = rstrip (lstrip t).
Proof. unfold strip. apply rev_lstrip_rev. Qed.

Lemma tidy_weaken (b : bool) (t : pystr) :
  tidy true t = true -> tidy b t = true.
Proof.
  destruct t as [|c t]; simpl; [discriminate|].
  destruct (isspace c); [|auto].
  rewrite andb_false_r. discriminate.
Qed.

Lemma tidy_spaced (b : bool) (t : pystr) :
  tidy b t = true -> spaced b t = true.
Proof.
  revert b. induction t as [|c t IH]; intros b; simpl; [reflexivity|].
  destruct (isspace c); [|apply IH].
  intros H. apply andb_prop in H as [H1 H2]. rewrite H1. simpl. now apply IH.
Qed.

Lemma spaced_weaken (b : bool) (t : pystr) :
  spaced true t = true -> spaced b t = true.
Proof.
  destruct t as [|c t]; simpl; [reflexivity|].
  destruct (isspace c); [|auto].
  rewrite andb_false_r. discriminate.
Qed.

Lemma spaced_prefix (b : bool) (l m : pystr) :
  spaced b (l ++ m) = true -> spaced b l = true.
Proof.
  revert b. induction l as [|c l IH]; intros b; simpl; [reflexivity|].
  destruct (isspace c); [|apply IH].
  intros H. apply andb_prop in H as [H1 H2]. rewrite H1. simpl. now apply IH.
Qed.

(** What [re.sub] leaves is spaced. *)
Lemma sub_spaces_spaced (b : bool) (s : pystr) :
  spaced b (sub_spaces b s) = true.
Proof.
  revert b. induction s as [|c s IH]; intros b; simpl; [reflexivity|].
  destruct (isspace c) eqn:Hc.
  - destruct b; [apply IH|].
    simpl. change (isspace 32) with true. simpl. apply IH.
  - simpl. rewrite Hc. apply IH.
Qed.

Lemma lstrip_spaced (t : pystr) :
  spaced false t = true -> spaced true (lstrip t) = true.
Proof.
  induction t as [|c t IH]; simpl; [reflexivity|].
  destruct (isspace c) eqn:Hc.
  - intros H. apply andb_prop in H as [_ H]. apply IH.
    destruct t as [|d t]; [reflexivity|]. simpl in *.
    destruct (isspace d); [|exact H].
    rewrite andb_false_r in H. discriminate H.
  - intros H. simpl. rewrite Hc. exact H.
Qed.

Lemma rstrip_tidy (t : pystr) :
  forall b, spaced b t = true -> rstrip t = [] \/ tidy b (rstrip t) = true.
Proof.
  induction t as [|c t IH]; intros b; simpl; [now left|].
  destruct (isspace c) eqn:Hc.
  - intros H. apply andb_prop in H as [H1 H2].
    destruct (IH true H2) as [Hnil|Ht].
    + rewrite Hnil. now left.
    + destruct (rstrip t) as [|d r] eqn:Hr; [now left|].
      right. cbn [tidy]. rewrite Hc, H1. exact Ht.
  - intros H. destruct (IH false H) as [Hnil|Ht].
    + rewrite Hnil. right. simpl. now rewrite Hc.
    + destruct (rstrip t) as [|d r] eqn:Hr.
      * right. simpl. now rewrite Hc.
      * right. cbn [tidy]. rewrite Hc. exact Ht.
Qed.

(** Stripping a spaced text gives a text in normal form. *)
Lemma strip_normal (t : pystr) : spaced false t = true -> normal (strip t).
Proof.
  intros H. rewrite strip_is_rstrip_lstrip.
  apply rstrip_tidy, lstrip_spaced, H.
Qed.

(** A text in normal form is left as it is by the substitution of
    whitespace runs and by [strip]. *)
Lemma tidy_sub_spaces (b : bool) (t : pystr) :
  tidy b t = true -> sub_spaces b t = t.
Proof.
  revert b. induction t as [|c t IH]; intros b; simpl; [reflexivity|].
  destruct (isspace c).
  - intros H. apply andb_prop in H as [H1 H2].
    apply andb_prop in H1 as [H0 H1]. apply N.eqb_eq in H0. subst c.
    destruct b; [discriminate|]. now rewrite (IH true H2).
  - intros H. now rewrite (IH false H).
Qed.

Lemma tidy_rstrip (b : bool) (t : pystr) :
  tidy b t = true -> rstrip t = t.
Proof.
  revert b. induction t as [|c t IH]; intros b; simpl; [reflexivity|].
  destruct (isspace c) eqn:Hc.
  - intros H. apply andb_prop in H as [_ H]. rewrite (IH true H).
    destruct t; [discriminate H | reflexivity].
  - intros H. rewrite (IH false H). destruct t; reflexivity.
Qed.

Lemma normal_fixed (t : pystr) :
  normal t -> sub_spaces false t = t /\ strip t = t.
Proof.
  intros [->|H]; [split; reflexivity|].
  split.
  - apply tidy_sub_spaces, tidy_weaken, H.
  - rewrite strip_is_rstrip_lstrip.
    assert (Hl : lstrip t = t).
    { destruct t as [|c t]; [reflexivity|]. simpl in *.
      destruct (isspace c); [|reflexivity].
      rewrite andb_false_r in H. discriminate H. }
    rewrite Hl. exact (tidy_rstrip true t H).
Qed.

Section CleanTextProperties.

Variable R : Runtime.

Lemma _clean_text_normal (text : pystr) : normal (_clean_text R text).
Proof.
  unfold _clean_text. destruct (negb (nonempty text)); [now left|].
  apply strip_normal, sub_spaces_spaced.
Qed.

(** X5. The text [_clean_text] returns is in normal form for the very
    operations it applies: substituting whitespace runs in it and
    stripping it change nothing, so it holds no whitespace but single
    spaces between other characters.  An empty text gives an empty
    text. *)
Theorem _clean_text_is_normalised (text : pystr) :
  sub_spaces false (_clean_text R text) = _clean_text R text
  /\ strip (_clean_text R text) = _clean_text R text
  /\ tidy true (_clean_text R text) = nonempty (_clean_text R text)
  /\ _clean_text R [] = [].
Proof.
  destruct (normal_fixed _ (_clean_text_normal text)) as [H1 H2].
  split; [exact H1|]. split; [exact H2|]. split; [|reflexivity].
  destruct (_clean_text_normal text) as [->|H]; [reflexivity|].
  rewrite H. destruct (_clean_text R text); [discriminate H | reflexivity].
Qed.

(** X6. Cleaning a cleaned text again changes nothing, unless the first
    pass left an ampersand, which a second pass may decode again. *)
Theorem _clean_text_idempotent (text : pystr) :
  contains (u "&") (_clean_text R text) = false ->
  _clean_text R (_clean_text R text) = _clean_text R text.
Proof.
  intros Hamp.
  destruct (normal_fixed _ (_clean_text_normal text)) as [H1 H2].
  set (v := _clean_text R text) in *.
  unfold _clean_text at 1. destruct v as [|c v'] eqn:Hv; [reflexivity|].
  cbn [nonempty negb]. unfold unescape. rewrite Hamp. cbn [negb].
  rewrite H1. exact H2.
Qed.

End CleanTextProperties.

(** ** The record of [parse_company_page] holds normalised texts *)

Lemma tidy_join_step (p : bool) (a b : pystr) :
  tidy p a = true -> tidy true b = true -> tidy p (a ++ 32%N :: b) = true.
Proof.
  revert p. induction a as [|c a IH]; intros p; simpl.
  - destruct p; [discriminate|]. intros _ Hb.
    change (isspace 32) with true. exact Hb.
  - destruct (isspace c).
    + intros H Hb. apply andb_prop in H as [H1 H2]. rewrite H1. simpl.
      now apply IH.
    + intros H Hb. now apply IH.
Qed.

Lemma tidy_join (pieces : list pystr) :
  pieces <> [] ->
  Forall (fun t => tidy true t = true) pieces ->
  tidy true (join [32%N] pieces) = true.
Proof.
  induction pieces as [|a rest IH]; intros Hne Hall; [congruence|].
  inversion Hall as [|? ? Ha Hrest]; subst.
  destruct rest as [|b rest']; [exact Ha|].
  change (join [32%N] (a :: b :: rest'))
    with (a ++ 32%N :: join [32%N] (b :: rest')).
  apply tidy_join_step; [exact Ha|]. apply IH; [discriminate | exact Hrest].
Qed.

Lemma split_head_prefix (sep s : pystr) :
  exists rest, s = split_head sep s ++ rest.
Proof.
  induction s as [|c s [rest IH]]; simpl.
  - destruct (startswith [] sep); now exists [].
  - destruct (startswith (c :: s) sep).
    + now exists (c :: s).
    + exists rest. simpl. now rewrite <- IH.
Qed.

Lemma normal_spaced (t : pystr) : normal t -> spaced false t = true.
Proof.
  intros [->|H]; [reflexivity|]. apply tidy_spaced, tidy_weaken, H.
Qed.

Section RecordProperties.

Variable R : Runtime.

Lemma parent_texts_normal (h3 : node) (cs : list node) (texts : list pystr) :
  Forall normal texts -> Forall normal (parent_texts R h3 cs texts).
Proof.
  revert texts. induction cs as [|child rest IH]; intros texts Ht; simpl;
    [exact Ht|].
  apply IH.
  assert (Hadd : forall s, Forall normal (texts ++ [_clean_text R s])).
  { intros s. apply Forall_app. split; [exact Ht|].
    constructor; [apply _clean_text_normal | constructor]. }
  destruct (negb (node_eqb child h3)); [apply Hadd|].
  destruct child as [s|? ? ?]; [|exact Ht].
  destruct (nonempty (_clean_text R s)); [apply Hadd | exact Ht].
Qed.

Lemma h3_value_normal (field_label : pystr) (h3 : located) (v : pystr) :
  h3_value R field_label h3 = Some v -> normal v.
Proof.
  assert (Hjoin : forall texts,
    Forall normal texts ->
    normal (join (u " ")
      (filter (fun t => nonempty t && negb (_is_placeholder R t)) texts))).
  { intros texts Ht. set (pieces := filter _ texts).
    destruct pieces as [|a rest] eqn:Hp; [now left|]. right.
    change (u " ") with [32%N]. apply tidy_join; [discriminate|].
    rewrite <- Hp. apply Forall_forall. intros t Hin.
    apply filter_In in Hin as [Hin Htest].
    apply andb_prop in Htest as [Hne _].
    rewrite Forall_forall in Ht. destruct (Ht t Hin) as [->|H];
      [discriminate Hne | exact H]. }
  unfold h3_value.
  destruct (contains _ _); [|discriminate].
  destruct (find_next_sibling h3) as [sibling|].
  - destruct (nonempty _ && negb _).
    + intros [= <-]. apply _clean_text_normal.
    + destruct (nonempty _); [|discriminate]. intros [= <-].
      apply Hjoin, parent_texts_normal. constructor.
  - destruct (nonempty _); [|discriminate]. intros [= <-].
    apply Hjoin, parent_texts_normal. constructor.
Qed.

Lemma _extract_field_value_normal (soup : node) (field_label : pystr) :
  normal (_extract_field_value R soup field_label).
Proof.
  unfold _extract_field_value.
  induction (find_all (has_name (u "h3")) soup) as [|h3 rest IH]; simpl.
  - now left.
  - destruct (h3_value R field_label h3) as [v|] eqn:Hv; [|exact IH].
    exact (h3_value_normal _ _ _ Hv).
Qed.

(** Every attribute but [url_ficha] holds a normalised text. *)
Definition all_normal (e : Empresa) : Prop :=
  forall f, field_eqb f_url_ficha f = false -> normal (get_field f e).

Lemma assign_normal (f : field) (v : pystr) :
  normal v -> preserves all_normal (assign f v).
Proof.
  intros Hv e He g Hg. unfold assign.
  destruct (field_eqb g f) eqn:Hgf.
  - assert (g = f) as -> by (destruct g, f; try discriminate; reflexivity).
    now rewrite get_set_same.
  - rewrite get_set_other by exact Hgf. now apply He.
Qed.

Lemma title_head_normal (s : pystr) :
  normal (strip (split_head (u " - ") (_clean_text R s))).
Proof.
  apply strip_normal.
  destruct (split_head_prefix (u " - ") (_clean_text R s)) as [rest Hs].
  apply spaced_prefix with (m := rest). rewrite <- Hs.
  apply normal_spaced, _clean_text_normal.
Qed.

Lemma company_all_normal (soup : node) (url : pystr) :
  all_normal (company_of R soup url).
Proof.
  unfold company_of.
  apply (block_preserves all_normal).
  - unfold company_statements.
    each_statement ltac:(statement ltac:(
      apply assign_normal;
      first [ apply _extract_field_value_normal
            | apply title_head_normal
            | apply _clean_text_normal
            | now left ])).
  - intros f Hf. left. destruct f; try reflexivity; discriminate Hf.
Qed.

(** X7. Whatever the markup, every attribute of the record that
    [parse_company_page] returns, [url_ficha] apart, is normalised:
    replacing its whitespace runs by single spaces and stripping it
    change nothing. *)
Theorem parse_company_page_normalised (page_html url : pystr) (f : field) :
  f <> f_url_ficha ->
  let v := get_field f (parse_company_page R page_html url) in
  sub_spaces false v = v /\ strip v = v.
Proof.
  intros Hf. cbv zeta. apply normal_fixed.
  unfold parse_company_page. apply company_all_normal.
  destruct f; try reflexivity. now elim Hf.
Qed.

End RecordProperties.

(** ** The listing parser and the label search *)

Section ListingProperties.

Variable R : Runtime.

Lemma SITE_PREFIX_absolute (s : pystr) :
  startswith (SITE_PREFIX ++ s) (u "http") = true.
Proof.
  assert (H : SITE_PREFIX = u "http" ++ u "s://empresite.eleconomista.es")
    by (vm_compute; reflexivity).
  rewrite H, <- app_assoc. apply startswith_app.
Qed.

Lemma made_absolute (s : pystr) :
  startswith
    (if negb (startswith s (u "http")) then SITE_PREFIX ++ s else s)
    (u "http") = true.
Proof.
  destruct (startswith s (u "http")) eqn:Hs; cbn [negb];
    [exact Hs | apply SITE_PREFIX_absolute].
Qed.

Lemma card_url_absolute (card : node) (url : pystr) :
  card_url R card = Some url -> startswith url (u "http") = true.
Proof.
  unfold card_url.
  destruct (find _ card) as [m|].
  - destruct (attr_truthy _).
    + intros [= <-]. apply made_absolute.
    + destruct (find (has_name (u "h3")) card) as [h3|]; [|discriminate].
      destruct (find _ (here h3)) as [link|]; [|discriminate].
      destruct (endswith _ _); [|discriminate].
      intros [= <-]. apply made_absolute.
  - destruct (find (has_name (u "h3")) card) as [h3|]; [|discriminate].
    destruct (find _ (here h3)) as [link|]; [|discriminate].
    destruct (endswith _ _); [|discriminate].
    intros [= <-]. apply made_absolute.
Qed.

(** X8. Whatever the markup, every URL that [parse_listing_page] returns
    starts with [http], and the page gives at most one URL for each
    [div] of class [cardCompanyBox], so none when it has no such
    element. *)
Theorem parse_listing_page_absolute (page_html : pystr) :
  let cards :=
    find_all (fun n => has_name (u "div") n
                       && has_attr_value (u "class") (u "cardCompanyBox") n)
             (BeautifulSoup R page_html) in
  Forall (fun url => startswith url (u "http") = true)
         (parse_listing_page R page_html)
  /\ length (parse_listing_page R page_html) <= length cards.
Proof.
  cbv zeta. unfold parse_listing_page, listing_urls_of.
  set (cards := find_all _ _). clearbody cards.
  induction cards as [|card rest [IH1 IH2]]; cbn [flat_map length];
    [split; [constructor | lia]|].
  destruct (card_url R (here card)) as [url|] eqn:Hurl; cbn [app length].
  - split; [|lia]. constructor; [|exact IH1].
    exact (card_url_absolute _ _ Hurl).
  - split; [exact IH1 | lia].
Qed.

(** X9. The label search returns a text only from a page with a heading
    for the label: when [_extract_field_value] returns a non-empty
    value, the cleaned text of some [h3] of the page contains the label,
    letter case apart. *)
Theorem _extract_field_value_needs_heading (soup : node)
    (field_label : pystr) :
  _extract_field_value R soup field_label <> [] ->
  exists h3,
    In h3 (find_all (has_name (u "h3")) soup)
    /\ contains (str_lower R field_label)
         (str_lower R (_clean_text R (get_text (here h3)))) = true.
Proof.
  unfold _extract_field_value.
  induction (find_all (has_name (u "h3")) soup) as [|h3 rest IH]; simpl;
    [congruence|].
  destruct (h3_value R field_label h3) as [v|] eqn:Hv.
  - intros _. exists h3. split; [now left|].
    unfold h3_value in Hv.
    destruct (contains _ _); [reflexivity | discriminate Hv].
  - intros H. destruct (IH H) as (h & Hin & Hc). exists h. auto.
Qed.

End ListingProperties.

(** ** Pagination of the listing URL *)

(** On a literal made of ASCII characters, [u] is the list of their
    codes. *)
Definition ascii_only (s : string) : Prop :=
  Forall (fun c => (N_of_ascii c < 128)%N) (list_ascii_of_string s).

Lemma u_ascii (s : string) :
  ascii_only s -> u s = map N_of_ascii (list_ascii_of_string s).
Proof.
  unfold ascii_only, u.
  induction (list_ascii_of_string s) as [|c l IH]; intros H; [reflexivity|].
  inversion H as [|? ? Hc Hl]; subst.
  cbn [map utf8_decode]. apply N.ltb_lt in Hc. rewrite Hc.
  now rewrite IH.
Qed.

Lemma u_injective (s t : string) :
  ascii_only s -> ascii_only t -> u s = u t -> s = t.
Proof.
  intros Hs Ht. rewrite (u_ascii s Hs), (u_ascii t Ht). intros H.
  rewrite <- (string_of_list_ascii_of_string s),
          <- (string_of_list_ascii_of_string t).
  f_equal. revert H.
  generalize (list_ascii_of_string s) (list_ascii_of_string t).
  induction l as [|a l IH]; intros [|b m]; simpl; try discriminate;
    [reflexivity|].
  intros [= Hab Hlm]. f_equal; [|now apply IH].
  rewrite <- (ascii_N_embedding a), <- (ascii_N_embedding b). now f_equal.
Qed.

Lemma string_of_uint_ascii (d : Decimal.uint) :
  ascii_only (NilEmpty.string_of_uint d).
Proof.
  unfold ascii_only.
  induction d; simpl; constructor; try exact IHd; reflexivity.
Qed.

Lemma string_of_int_ascii (d : Decimal.int) :
  ascii_only (NilZero.string_of_int d).
Proof.
  assert (H : forall d', ascii_only (NilZero.string_of_uint d')).
  { intros d'. destruct d'; try apply string_of_uint_ascii.
    repeat constructor. }
  destruct d as [d|d]; simpl; [apply H|].
  constructor; [reflexivity | apply H].
Qed.

Lemma to_int_not_nil (n : Z) :
  Z.to_int n <> Decimal.Pos Decimal.Nil
  /\ Z.to_int n <> Decimal.Neg Decimal.Nil.
Proof.
  split; intros H; pose proof (DecimalZ.of_to n) as Hn; rewrite H in Hn;
    subst n; discriminate H.
Qed.

(** [str] of an integer determines the integer. *)
Lemma str_of_Z_injective (m n : Z) : str_of_Z m = str_of_Z n -> m = n.
Proof.
  unfold str_of_Z. intros H.
  apply u_injective in H; try apply string_of_int_ascii.
  destruct (to_int_not_nil m) as [Hm1 Hm2].
  destruct (to_int_not_nil n) as [Hn1 Hn2].
  pose proof (NilZero.isi (Z.to_int m) Hm1 Hm2) as Im.
  pose proof (NilZero.isi (Z.to_int n) Hn1 Hn2) as In'.
  rewrite H in Im. rewrite Im in In'. injection In' as Heq.
  rewrite <- (DecimalZ.of_to m), <- (DecimalZ.of_to n). now f_equal.
Qed.

(** X10. Pagination of [build_listing_url]: every page number up to 1,
    zero and the negative ones included, gives the URL of the first
    page; a page number above 1 gives a URL that differs from it; and
    two page numbers above 1 give the same URL only if they are equal. *)
Theorem build_listing_url_pages
    (actividad_slug provincia_slug localidad_slug : option pystr)
    (p q : Z) :
  let url := build_listing_url actividad_slug provincia_slug localidad_slug in
  ((p <= 1)%Z -> url p = url 1%Z)
  /\ ((1 < p)%Z -> forall first, url 1%Z = Ok first -> url p <> Ok first)
  /\ ((1 < p)%Z -> (1 < q)%Z -> forall page_url,
        url p = Ok page_url -> url q = Ok page_url -> p = q).
Proof.
  cbv zeta. unfold build_listing_url.
  destruct (negb _).
  - split; [reflexivity|]. split; [discriminate|]. discriminate.
  - cbv zeta.
    set (base := join [] _ ++ u "/").
    split; [|split].
    + intros Hp. replace (p >? 1)%Z with false by (symmetry; lia).
      reflexivity.
    + intros Hp first. replace (p >? 1)%Z with true by (symmetry; lia).
      change (1 >? 1)%Z with false. cbv iota.
      intros [= <-] [= H].
      rewrite <- (app_nil_r base) in H at 2.
      apply app_inv_head in H. discriminate H.
    + intros Hp Hq page_url.
      replace (p >? 1)%Z with true by (symmetry; lia).
      replace (q >? 1)%Z with true by (symmetry; lia).
      intros [= <-] [= H].
      apply app_inv_head in H. injection H as H.
      apply app_inv_tail in H. symmetry. now apply str_of_Z_injective.
Qed.

(** ** What [fetch_page] returns and what it raises *)

Section FetchOutcomes.

Local Arguments u : simpl never.

Variable R : Runtime.
Variable W : World.

(** An attempt that returns a page received it with status 200 and
    without a challenge marker, and leaves the User-Agent as it was. *)
Lemma attempt_body_returned (url : pystr) (attempt : nat)
    (last_error : option exn) (s : state) (html : pystr) :
  fst (attempt_body R W url attempt last_error s) = Ok (Returned html) ->
  exists r,
    status_code r = 200%Z /\ text r = html
    /\ _detect_captcha R html = false
    /\ user_agent (snd (attempt_body R W url attempt last_error s))
       = user_agent s
    /\ trace (snd (attempt_body R W url attempt last_error s))
       = EvGet url (user_agent s) (Responded r) :: trace s.
Proof.
  unfold attempt_body, try_except, session_get, bind, read, modify, emit,
    ret, raise, lift, with_gets, with_trace, with_request_count,
    with_user_agent, raise_for_status, sleep; simpl.
  destruct (http W (gets s) url (user_agent s)) as [r|msg]; simpl.
  - destruct (status_code r =? 200)%Z eqn:H200.
    + apply Z.eqb_eq in H200.
      destruct (_detect_captcha R (text r)) eqn:Hcap; simpl.
      * destruct (Qle_bool 0 (inject_Z (backoff attempt))); simpl;
          discriminate.
      * intros [= <-]. exists r. auto.
    + destruct (status_code r =? 429)%Z.
      * destruct (match retry_after_header r with
                  | Some v => py_int R v
                  | None => Ok RETRY_BACKOFF_BASE
                  end) as [n|e] eqn:Hint; simpl.
        -- destruct (Qle_bool 0 (inject_Z (n * 2 ^ Z.of_nat attempt))); simpl;
             discriminate.
        -- assert (He : is_RequestException e = false).
           { destruct (retry_after_header r) as [v|]; [|discriminate].
             exact (py_int_raises R v e Hint). }
           rewrite He. discriminate.
      * destruct (status_code r =? 404)%Z; simpl; [discriminate|].
        destruct ((400 <=? status_code r) && (status_code r <? 600))%Z;
          simpl; [|discriminate].
        destruct (Qle_bool 0 (inject_Z (backoff attempt))); simpl;
          discriminate.
  - destruct (Qle_bool 0 (inject_Z (backoff attempt))); simpl; discriminate.
Qed.

Lemma attempt_step_returned (url : pystr) (attempt : nat)
    (last_error : option exn) (s s' : state) (html : pystr) :
  attempt_step R W url attempt last_error s = (Ok (Returned html), s') ->
  exists ua r,
    status_code r = 200%Z /\ text r = html
    /\ _detect_captcha R html = false
    /\ user_agent s' = ua
    /\ exists older, trace s' = EvGet url ua (Responded r) :: older.
Proof.
  intros H.
  destruct (attempt_step_cases R W url attempt last_error s)
    as [(_ & _ & Hraise)|(_ & Hbody)].
  - rewrite Hraise in H. discriminate H.
  - rewrite Hbody in H.
    destruct (attempt_body_returned url attempt last_error (after_delay W s)
                html) as (r & H200 & Htext & Hcap & Hua & Htrace).
    { now rewrite H. }
    rewrite H in Hua, Htrace. cbn [snd] in Hua, Htrace.
    exists (user_agent (after_delay W s)), r. repeat split; auto.
    eexists. exact Htrace.
Qed.

(** X11. A page that [fetch_page] returns is the body of a response with
    status 200 to a request for that very URL, it holds no challenge
    marker, and that request is the last thing the scraper did: it was
    sent with the User-Agent the session still has, and no sleep follows
    it. *)
Theorem fetch_page_returns_page (url : pystr) (s s' : state)
    (html : pystr) :
  fetch_page R W url s = (Ok html, s') ->
  exists r older,
    trace s' = EvGet url (user_agent s') (Responded r) :: older
    /\ status_code r = 200%Z /\ text r = html
    /\ _detect_captcha R html = false.
Proof.
  unfold fetch_page. generalize (seq 0 MAX_RETRIES) (@None exn).
  intros attempts. revert s.
  induction attempts as [|attempt rest IH]; intros s last_error.
  - simpl. unfold raise. discriminate.
  - rewrite fetch_attempts_step.
    destruct (attempt_step R W url attempt last_error s)
      as [[[page|le]|e] s1] eqn:Hstep.
    + intros [= <- <-].
      destruct (attempt_step_returned _ _ _ _ _ _ Hstep)
        as (ua & r & H200 & Htext & Hcap & Hua & older & Htrace).
      exists r, older. subst ua. auto.
    + apply IH.
    + discriminate.
Qed.

(** *** The errors that leave [fetch_page] *)


Lemma backoff_nonneg (attempt : nat) : Qle_bool 0 (inject_Z (backoff attempt)) = true.
Proof.
  apply Qle_bool_iff. unfold Qle, inject_Z; simpl. unfold backoff.
  assert (0 <= 2 ^ Z.of_nat attempt)%Z by (apply Z.pow_nonneg; lia).
  unfold RETRY_BACKOFF_BASE. lia.
Qed.






End FetchOutcomes.

(** *** When the network is down *)

Section NetworkDown.

Local Arguments u : simpl never.

Variable R : Runtime.
Variable W : World.

(** The state after an attempt whose request fails: the delay if one is
    due, the request, and the sleep of the backoff. *)
Definition failed_attempt (url : pystr) (attempt : nat) (s : state)
    : state :=
  let s1 := after_delay W s in
  with_trace
    (fun t => EvSleep (inject_Z (backoff attempt))
              :: EvGet url (user_agent s) (http W (gets s) url (user_agent s))
              :: t)
    (with_gets (S (gets s)) s1).

Definition NETWORK_ERROR (msg : pystr) : exn :=
  ScraperError (u "Error de red: " ++ msg).

Lemma delay_nonneg (s : state) :
  random_in_unit W -> Qle_bool 0 (delay_value W s) = true.
Proof.
  intros Hrand. destruct (Hrand (draws s)) as [Hlo _].
  apply Qle_bool_iff.
  unfold delay_value, REQUEST_DELAY_MIN, REQUEST_DELAY_MAX. nra.
Qed.

Lemma after_delay_keeps (s : state) :
  gets (after_delay W s) = gets s
  /\ user_agent (after_delay W s) = user_agent s
  /\ _request_count (after_delay W s) = _request_count s.
Proof.
  unfold after_delay. destruct (0 <? _request_count s); auto.
Qed.

Lemma attempt_step_failed (url : pystr) (attempt : nat)
    (last_error : option exn) (s : state) (msg : pystr) :
  random_in_unit W ->
  http W (gets s) url (user_agent s) = RequestFailed msg ->
  attempt_step R W url attempt last_error s
  = (Ok (Continue (Some (NETWORK_ERROR msg))), failed_attempt url attempt s).
Proof.
  intros Hrand Hfail.
  destruct (attempt_step_cases R W url attempt last_error s)
    as [(_ & Hneg & _)|(_ & Hbody)].
  - rewrite (delay_nonneg s Hrand) in Hneg. discriminate Hneg.
  - rewrite Hbody.
    destruct (after_delay_keeps s) as (Hg & Hu & _).
    unfold failed_attempt. cbv zeta.
    generalize dependent (after_delay W s). intros s1 _ Hg Hu.
    unfold attempt_body, try_except, session_get, bind, read, modify, emit,
      ret, raise, lift, with_gets, with_trace, with_request_count,
      with_user_agent, raise_for_status, sleep; simpl.
    rewrite Hg, Hu, Hfail. simpl.
    rewrite (backoff_nonneg attempt). reflexivity.
Qed.

Lemma failed_attempt_keeps (url : pystr) (attempt : nat) (s : state) :
  gets (failed_attempt url attempt s) = S (gets s)
  /\ user_agent (failed_attempt url attempt s) = user_agent s
  /\ _request_count (failed_attempt url attempt s) = _request_count s.
Proof.
  destruct (after_delay_keeps s) as (Hg & Hu & Hrc).
  unfold failed_attempt. simpl. auto.
Qed.

Lemma failed_attempt_trace (url : pystr) (attempt : nat) (s : state)
    (msg : pystr) :
  http W (gets s) url (user_agent s) = RequestFailed msg ->
  trace (failed_attempt url attempt s)
  = EvSleep (inject_Z (backoff attempt))
    :: EvGet url (user_agent s) (RequestFailed msg)
    :: trace (after_delay W s).
Proof. intros H. unfold failed_attempt. simpl. now rewrite H. Qed.

(** X13. When every request for the URL fails, [fetch_page] issues
    exactly [MAX_RETRIES] requests and raises a [ScraperError] that
    carries the message of the last failure; it sleeps the backoff of
    30, 60, 120 and 240 seconds after each of them, the last one
    included, so that the newest event is a sleep of 240 seconds; the
    request counter, which counts responses, is left as it was, and a
    scraper that has had no response yet does nothing else. *)
Theorem fetch_page_network_down (url : pystr) (s : state) :
  random_in_unit W ->
  (forall k ua, responded (http W k url ua) = false) ->
  let s' :=
    failed_attempt url 3
      (failed_attempt url 2 (failed_attempt url 1 (failed_attempt url 0 s)))
  in
  exists msg0 msg1 msg2 msg3,
    fetch_page R W url s = (Raise (NETWORK_ERROR msg3), s')
    /\ gets s' = gets s + MAX_RETRIES
    /\ _request_count s' = _request_count s
    /\ (exists older,
          trace s' = EvSleep 240
                     :: EvGet url (user_agent s) (RequestFailed msg3)
                     :: older)
    /\ (_request_count s = 0 ->
        trace s' =
          [ EvSleep 240; EvGet url (user_agent s) (RequestFailed msg3);
            EvSleep 120; EvGet url (user_agent s) (RequestFailed msg2);
            EvSleep 60; EvGet url (user_agent s) (RequestFailed msg1);
            EvSleep 30; EvGet url (user_agent s) (RequestFailed msg0) ]
          ++ trace s).
Proof.
  intros Hrand Hdown.
  assert (Hfail : forall k ua, exists msg, http W k url ua = RequestFailed msg).
  { intros k ua. specialize (Hdown k ua).
    destruct (http W k url ua) as [r|msg]; [discriminate Hdown|].
    now exists msg. }
  set (s1 := failed_attempt url 0 s).
  set (s2 := failed_attempt url 1 s1).
  set (s3 := failed_attempt url 2 s2).
  cbv zeta.
  destruct (failed_attempt_keeps url 0 s) as (Hg1 & Hu1 & Hr1).
  destruct (failed_attempt_keeps url 1 s1) as (Hg2 & Hu2 & Hr2).
  destruct (failed_attempt_keeps url 2 s2) as (Hg3 & Hu3 & Hr3).
  destruct (failed_attempt_keeps url 3 s3) as (Hg4 & Hu4 & Hr4).
  fold s1 in Hg1, Hu1, Hr1. fold s2 in Hg2, Hu2, Hr2.
  fold s3 in Hg3, Hu3, Hr3.
  destruct (Hfail (gets s) (user_agent s)) as [msg0 H0].
  destruct (Hfail (gets s1) (user_agent s1)) as [msg1 H1].
  destruct (Hfail (gets s2) (user_agent s2)) as [msg2 H2].
  destruct (Hfail (gets s3) (user_agent s3)) as [msg3 H3].
  exists msg0, msg1, msg2, msg3.
  split; [|split; [|split; [|split]]].
  - unfold fetch_page. change (seq 0 MAX_RETRIES) with [0; 1; 2; 3].
    rewrite fetch_attempts_step, (attempt_step_failed _ _ _ _ _ Hrand H0).
    fold s1.
    rewrite fetch_attempts_step, (attempt_step_failed _ _ _ _ _ Hrand H1).
    fold s2.
    rewrite fetch_attempts_step, (attempt_step_failed _ _ _ _ _ Hrand H2).
    fold s3.
    rewrite fetch_attempts_step, (attempt_step_failed _ _ _ _ _ Hrand H3).
    reflexivity.
  - rewrite Hg4, Hg3, Hg2, Hg1. unfold MAX_RETRIES. lia.
  - congruence.
  - eexists. rewrite (failed_attempt_trace _ _ _ _ H3).
    rewrite Hu3, Hu2, Hu1. reflexivity.
  - intros Hrc.
    assert (Hno : forall st, _request_count st = 0 -> after_delay W st = st).
    { intros st Hst. unfold after_delay. now rewrite Hst. }
    pose proof (failed_attempt_trace url 3 s3 msg3 H3) as T3.
    pose proof (failed_attempt_trace url 2 s2 msg2 H2) as T2.
    pose proof (failed_attempt_trace url 1 s1 msg1 H1) as T1.
    pose proof (failed_attempt_trace url 0 s msg0 H0) as T0.
    rewrite Hno in T3, T2, T1, T0 by congruence.
    fold s3 in T2. fold s2 in T1. fold s1 in T0.
    rewrite T3, T2, T1, T0, Hu3, Hu2, Hu1. reflexivity.
Qed.

End NetworkDown.

(** ** The cap of the listing phase, at zero and below *)

Section CapEdges.

Local Arguments u : simpl never.

Variable R : Runtime.
Variable W : World.

Lemma listing_pages_zero_cap
    (actividad_slug provincia_slug localidad_slug : option pystr)
    (pages : list Z) :
  forall (all_urls : list pystr) (s : state),
  listing_pages R W actividad_slug provincia_slug localidad_slug (Some 0%Z)
    pages all_urls s
  = listing_pages R W actividad_slug provincia_slug localidad_slug None
      pages all_urls s.
Proof.
  induction pages as [|page rest IH]; intros all_urls s; [reflexivity|].
  cbn [listing_pages]. unfold cap_reached. cbn [truthy_int Z.eqb negb andb].
  unfold bind.
  destruct (lift _ s) as [[url|e] s1]; [|reflexivity].
  destruct (try_except _ _ _ s1) as [[all_urls'|e] s2]; [|reflexivity].
  apply IH.
Qed.

(** X14. A cap of zero is no cap: [scrape_listing_urls] does with
    [max_results=0] exactly what it does with [max_results=None].  A
    negative cap is not ignored in the same way: the loop over the
    later pages stops before its first request, and the URLs of the
    first page are returned untruncated. *)
Theorem scrape_listing_urls_cap_edges
    (actividad_slug provincia_slug localidad_slug : option pystr)
    (s : state) :
  scrape_listing_urls R W actividad_slug provincia_slug localidad_slug
    (Some 0%Z) s
  = scrape_listing_urls R W actividad_slug provincia_slug localidad_slug
      None s
  /\ forall cap url html s1 total,
       (cap < 0)%Z ->
       build_listing_url actividad_slug provincia_slug localidad_slug 1
         = Ok url ->
       fetch_page R W url s = (Ok html, s1) ->
       parse_result_count R html = Ok total -> total <> 0%Z ->
       scrape_listing_urls R W actividad_slug provincia_slug localidad_slug
         (Some cap) s
       = (Ok (parse_listing_page R html, total), s1).
Proof.
  split.
  - unfold scrape_listing_urls, bind.
    destruct (lift _ s) as [[url|e] s0]; [|reflexivity].
    destruct (fetch_page R W url s0) as [[html|e] s1]; [|reflexivity].
    destruct (lift _ s1) as [[total|e] s2]; [|reflexivity].
    destruct (total =? 0)%Z; [reflexivity|].
    unfold cap_given. cbn [truthy_int Z.eqb negb andb].
    now rewrite listing_pages_zero_cap.
  - intros cap url html s1 total Hneg Hurl Hfetch Hcount Hnz.
    unfold scrape_listing_urls, bind, lift. rewrite Hurl, Hfetch, Hcount.
    apply Z.eqb_neq in Hnz. rewrite Hnz.
    assert (Hgiven : cap_given (Some cap) = false).
    { unfold cap_given. cbn [int_of]. replace (cap >? 0)%Z with false
        by (symmetry; lia). apply andb_false_r. }
    rewrite Hgiven. cbn [app].
    assert (Hstop : forall pages all_urls st,
      listing_pages R W actividad_slug provincia_slug localidad_slug
        (Some cap) pages all_urls st = (Ok all_urls, st)).
    { intros [|page rest] all_urls st; [reflexivity|].
      cbn [listing_pages]. unfold cap_reached. cbn [truthy_int int_of].
      replace (cap =? 0)%Z with false by (symmetry; lia).
      assert (Hle : (cap <=? Z.of_nat (length all_urls))%Z = true)
        by (apply Z.leb_le; lia).
      rewrite Hle. reflexivity. }
    rewrite Hstop. reflexivity.
Qed.

End CapEdges.

(** ** The ledger of a run *)

Section LedgerProperties.

Local Arguments u : simpl never.

Variable R : Runtime.
Variable W : World.

Lemma scrape_company_url_ficha (url : pystr) (s s' : state)
    (empresa : Empresa) :
  scrape_company R W url s = (Ok empresa, s') -> url_ficha empresa = url.
Proof.
  unfold scrape_company, bind, ret.
  destruct (fetch_page R W url s) as [[html|e] s1]; [|discriminate].
  intros [= <- _]. unfold parse_company_page, company_of.
  apply (block_preserves (fun e => url_ficha e = url)); [|reflexivity].
  unfold company_statements.
  each_statement ltac:(statement ltac:(apply assign_keeps_url_ficha; reflexivity)).
Qed.

(** X15. A failure of the incremental save is charged to the company
    that was just extracted: when the tenth, twentieth, ... success is
    recorded and [save_to_json] raises, the company stays among the
    successes and is also recorded among the failures, with the error of
    the disk, so that it is counted twice. *)
Theorem process_company_save_failure (path url : pystr) (s s1 : state)
    (empresa : Empresa) (e : exn) :
  path <> [] ->
  scrape_company R W url s = (Ok empresa, s1) ->
  S (length (empresas_ok (progress s))) mod SAVE_EVERY_N = 0 ->
  disk W (saves s) = Some e ->
  let s' := snd (process_company R W (Some path) url s) in
  fst (process_company R W (Some path) url s) = Ok tt
  /\ empresas_ok (progress s') = empresas_ok (progress s) ++ [empresa]
  /\ empresas_error (progress s')
     = empresas_error (progress s) ++ [failure url e]
  /\ total_procesadas (progress s') = (total_procesadas (progress s) + 2)%Z
  /\ trace s' = trace s1.
Proof.
  intros Hpath Hscrape Hmod Hdisk.
  destruct (scrape_company_same_ledger R W url s) as (Hp & _ & Hsaves).
  rewrite Hscrape in Hp, Hsaves. cbn [snd] in Hp, Hsaves.
  unfold process_company, save_to_json, emit.
  unfold try_except, bind, read, modify, ret, raise.
  rewrite Hscrape.
  cbn [progress with_progress add_success empresas_ok with_saves saves].
  rewrite Hp, length_app. cbn [length]. rewrite Nat.add_1_r, Hmod.
  destruct path as [|c path']; [congruence|].
  cbn [truthy nonempty andb Nat.eqb saves with_progress with_saves].
  rewrite Hsaves, Hdisk.
  cbn [is_Exception progress with_progress with_saves fst snd add_error
       empresas_ok empresas_error add_success trace].
  split; [reflexivity|]. split; [reflexivity|]. split; [reflexivity|].
  split; [|reflexivity].
  unfold total_procesadas. simpl. rewrite !length_app. simpl. lia.
Qed.

(** The URLs of the records and of the failures that a ledger holds. *)
Definition recorded (p : ScrapeProgress) : list pystr :=
  map url_ficha (empresas_ok p) ++ map err_url (empresas_error p).

Lemma process_company_records (json_path : option pystr) (url : pystr)
    (s : state) :
  let s' := snd (process_company R W json_path url s) in
  exists oks errs,
    empresas_ok (progress s') = empresas_ok (progress s) ++ oks
    /\ empresas_error (progress s') = empresas_error (progress s) ++ errs
    /\ total_esperado (progress s') = total_esperado (progress s)
    /\ (forall x, In x (map url_ficha oks ++ map err_url errs) <-> x = url).
Proof.
  cbv zeta.
  destruct (scrape_company_same_ledger R W url s) as (Hp & _ & _).
  unfold process_company, save_to_json, emit.
  unfold try_except, bind, read, modify, ret, raise.
  destruct (scrape_company R W url s) as [[empresa|e] s1] eqn:Hscrape.
  - cbn [snd] in Hp.
    pose proof (scrape_company_url_ficha _ _ _ _ Hscrape) as Hurl.
    simpl. destruct (truthy json_path && _); simpl.
    + destruct (disk W (saves s1)) as [e|]; simpl.
      * exists [empresa], [failure url e]. rewrite Hp.
        split; [reflexivity|]. split; [reflexivity|]. split; [reflexivity|].
        intros x. simpl. rewrite Hurl. intuition congruence.
      * exists [empresa], []. rewrite Hp, app_nil_r.
        split; [reflexivity|]. split; [reflexivity|]. split; [reflexivity|].
        intros x. simpl. rewrite Hurl. intuition congruence.
    + exists [empresa], []. rewrite Hp, app_nil_r.
      split; [reflexivity|]. split; [reflexivity|]. split; [reflexivity|].
      intros x. simpl. rewrite Hurl. intuition congruence.
  - cbn [snd] in Hp. simpl.
    exists [], [failure url e]. rewrite Hp, app_nil_r.
    split; [reflexivity|]. split; [reflexivity|]. split; [reflexivity|].
    intros x. simpl. intuition congruence.
Qed.

Lemma company_loop_records (json_path : option pystr) (urls : list pystr) :
  forall s : state,
  let s' := snd (company_loop R W json_path urls s) in
  fst (company_loop R W json_path urls s) = Ok tt
  /\ exists oks errs,
       empresas_ok (progress s') = empresas_ok (progress s) ++ oks
       /\ empresas_error (progress s') = empresas_error (progress s) ++ errs
       /\ total_esperado (progress s') = total_esperado (progress s)
       /\ (forall x, In x (map url_ficha oks ++ map err_url errs)
                     <-> In x urls).
Proof.
  induction urls as [|url rest IH]; intros s; cbv zeta.
  - split; [reflexivity|]. exists [], []. rewrite !app_nil_r.
    split; [reflexivity|]. split; [reflexivity|]. split; [reflexivity|].
    intros x. reflexivity.
  - rewrite company_loop_step.
    destruct (process_company_records json_path url s)
      as (oks1 & errs1 & Hok1 & Herr1 & Htot1 & Hin1).
    destruct (IH (snd (process_company R W json_path url s)))
      as (Hres & oks2 & errs2 & Hok2 & Herr2 & Htot2 & Hin2).
    split; [exact Hres|].
    exists (oks1 ++ oks2), (errs1 ++ errs2).
    rewrite Hok2, Herr2, Htot2, Hok1, Herr1, Htot1, <- !app_assoc.
    split; [reflexivity|]. split; [reflexivity|]. split; [reflexivity|].
    intros x. specialize (Hin1 x). specialize (Hin2 x).
    assert (Hsym : x = url <-> url = x) by (split; congruence).
    rewrite !map_app, !in_app_iff in *. simpl. tauto.
Qed.

Lemma listing_pages_same_ledger
    (actividad_slug provincia_slug localidad_slug : option pystr)
    (max_results : option Z) (pages : list Z) :
  forall (all_urls : list pystr) (s : state),
  same_ledger s
    (snd (listing_pages R W actividad_slug provincia_slug localidad_slug
            max_results pages all_urls s)).
Proof.
  induction pages as [|page rest IH]; intros all_urls s;
    [repeat split|].
  cbn [listing_pages]. destruct (cap_reached max_results all_urls);
    [repeat split|].
  unfold bind, lift.
  destruct (build_listing_url _ _ _ page) as [url|e]; [|repeat split].
  unfold try_except, bind, ret.
  pose proof (fetch_page_same_ledger R W url s) as Hfetch.
  destruct (fetch_page R W url s) as [[html|e] s1]; cbn [snd] in Hfetch.
  - specialize (IH (all_urls ++ parse_listing_page R html) s1).
    destruct IH as (H1 & H2 & H3). destruct Hfetch as (G1 & G2 & G3).
    repeat split; congruence.
  - destruct (is_ScraperError e); [|exact Hfetch].
    specialize (IH all_urls s1).
    destruct IH as (H1 & H2 & H3). destruct Hfetch as (G1 & G2 & G3).
    repeat split; congruence.
Qed.

Lemma scrape_listing_urls_same_ledger
    (actividad_slug provincia_slug localidad_slug : option pystr)
    (max_results : option Z) (s : state) :
  same_ledger s
    (snd (scrape_listing_urls R W actividad_slug provincia_slug
            localidad_slug max_results s)).
Proof.
  unfold scrape_listing_urls, bind, lift, ret.
  destruct (build_listing_url _ _ _ 1) as [url|e]; [|repeat split].
  pose proof (fetch_page_same_ledger R W url s) as Hfetch.
  destruct (fetch_page R W url s) as [[html|e] s1]; cbn [snd] in Hfetch;
    [|exact Hfetch].
  destruct (parse_result_count R html) as [total|e]; [|exact Hfetch].
  destruct (total =? 0)%Z; [exact Hfetch|].
  cbn [app].
  pose proof (listing_pages_same_ledger actividad_slug provincia_slug
                localidad_slug max_results
                (range 2 (ceil_div (Z.min (if cap_given max_results
                                           then int_of max_results
                                           else total) total)
                            RESULTS_PER_PAGE + 1))
                (parse_listing_page R html) s1) as Hloop.
  destruct (listing_pages _ _ _ _ _ _ _ _ s1) as [[collected|e] s2];
    cbn [snd] in Hloop |- *;
    destruct Hloop as (H1 & H2 & H3); destruct Hfetch as (G1 & G2 & G3);
    repeat split; congruence.
Qed.

(** X16. The ledger that [run] returns accounts for the URLs of the
    listing phase and for nothing else: a URL is that of a record or of
    a failure of the ledger exactly when the listing phase returned it,
    and [total_esperado] is the number of URLs returned. *)
Theorem run_ledger_records_listing
    (actividad_slug provincia_slug localidad_slug : option pystr)
    (max_results : option Z) (output_filename : option pystr)
    (s s1 s' : state) (company_urls : list pystr) (total : Z)
    (p : ScrapeProgress) :
  scrape_listing_urls R W actividad_slug provincia_slug localidad_slug
    max_results (with_progress new_ScrapeProgress s)
    = (Ok (company_urls, total), s1) ->
  run R W actividad_slug provincia_slug localidad_slug max_results
    output_filename s = (Ok p, s') ->
  (forall url, In url (recorded p) <-> In url company_urls)
  /\ total_esperado p = Z.of_nat (length company_urls).
Proof.
  intros Hlist.
  assert (Hledger : progress s1 = new_ScrapeProgress).
  { destruct (scrape_listing_urls_same_ledger actividad_slug provincia_slug
                localidad_slug max_results
                (with_progress new_ScrapeProgress s)) as (Hp & _).
    rewrite Hlist in Hp. exact Hp. }
  unfold run, bind, modify, read, ret. rewrite Hlist. cbn [fst].
  destruct company_urls as [|url rest].
  - intros [= <- _]. cbn [progress with_progress]. rewrite Hledger.
    split; [|reflexivity]. intros x. reflexivity.
  - set (s2 := with_progress _ s1).
    set (json_path := if truthy output_filename then _ else None).
    destruct (company_loop_records json_path (url :: rest) s2)
      as (Hres & oks & errs & Hoks & Herrs & Htot & Hin).
    destruct (company_loop R W json_path (url :: rest) s2) as [r s3].
    simpl in Hres. subst r. cbn [snd] in Hoks, Herrs, Htot.
    assert (Hp3 : (forall x, In x (recorded (progress s3))
                             <-> In x (url :: rest))
                  /\ total_esperado (progress s3)
                     = Z.of_nat (length (url :: rest))).
    { unfold recorded. rewrite Hoks, Herrs, Htot. unfold s2.
      cbn [progress with_progress set_total_esperado empresas_ok
           empresas_error total_esperado].
      rewrite Hledger. split; [exact Hin | reflexivity]. }
    destruct (truthy json_path && _).
    + unfold save_to_json, close, emit, bind, read, modify, ret, raise.
      cbn [saves with_saves].
      destruct (disk W (saves s3)); [discriminate|].
      intros [= <- _]. exact Hp3.
    + unfold close, emit, modify. intros [= <- _]. exact Hp3.
Qed.

End LedgerProperties.

Section SessionProperties.

Local Arguments u : simpl never.

Variable R : Runtime.
Variable W : World.

(** X17. [run] closes the session only on the path through the company
    loop: when the listing phase returns no URL, [run] returns an empty
    ledger right away and the session is left open, the trace being that
    of the listing phase; when it returns URLs and [run] returns, closing
    the session is the last thing [run] did. *)
Theorem run_closes_session
    (actividad_slug provincia_slug localidad_slug : option pystr)
    (max_results : option Z) (output_filename : option pystr)
    (s s1 s' : state) (company_urls : list pystr) (total : Z)
    (p : ScrapeProgress) :
  scrape_listing_urls R W actividad_slug provincia_slug localidad_slug
    max_results (with_progress new_ScrapeProgress s)
    = (Ok (company_urls, total), s1) ->
  run R W actividad_slug provincia_slug localidad_slug max_results
    output_filename s = (Ok p, s') ->
  (company_urls = [] ->
   p = new_ScrapeProgress /\ trace s' = trace s1 /\ gets s' = gets s1)
  /\ (company_urls <> [] -> exists older, trace s' = EvClose :: older).
Proof.
  intros Hlist.
  assert (Hledger : progress s1 = new_ScrapeProgress).
  { destruct (scrape_listing_urls_same_ledger R W actividad_slug
                provincia_slug localidad_slug max_results
                (with_progress new_ScrapeProgress s)) as (Hp & _).
    rewrite Hlist in Hp. exact Hp. }
  unfold run, bind, modify, read, ret. rewrite Hlist. cbn [fst].
  destruct company_urls as [|url rest].
  - intros [= <- <-]. split; [|congruence]. intros _.
    cbn [progress with_progress trace gets]. rewrite Hledger.
    repeat split.
  - set (s2 := with_progress _ s1).
    set (json_path := if truthy output_filename then _ else None).
    destruct (company_loop R W json_path (url :: rest) s2) as [[[]|e] s3];
      [|discriminate].
    intros Hrun. split; [discriminate|]. intros _. revert Hrun.
    destruct (truthy json_path && _).
    + unfold save_to_json, close, emit. unfold bind, read, modify, ret, raise.
      cbn [saves with_saves].
      destruct (disk W (saves s3)); [discriminate|].
      intros [= _ <-]. eexists. reflexivity.
    + unfold close, emit, modify. intros [= _ <-]. eexists. reflexivity.
Qed.

End SessionProperties.

Section FirstPage.

Local Arguments u : simpl never.

Variable R : Runtime.
Variable W : World.

(** X27. Only the later pages of a listing are allowed to fail.  An
    error of [fetch_page] on the first page leaves
    [scrape_listing_urls] and then [run] as it is: no ledger is
    returned, no company is fetched and the session is not closed, the
    state being the one [fetch_page] left.  With no selector at all,
    [run] raises the error of [build_listing_url] before any request. *)
Theorem run_aborts_on_first_page
    (actividad_slug provincia_slug localidad_slug : option pystr)
    (max_results : option Z) (output_filename : option pystr)
    (s : state) :
  let s0 := with_progress new_ScrapeProgress s in
  (forall url e s1,
     build_listing_url actividad_slug provincia_slug localidad_slug 1
       = Ok url ->
     fetch_page R W url s0 = (Raise e, s1) ->
     scrape_listing_urls R W actividad_slug provincia_slug localidad_slug
       max_results s0 = (Raise e, s1)
     /\ run R W actividad_slug provincia_slug localidad_slug max_results
          output_filename s = (Raise e, s1))
  /\ (forall e,
        build_listing_url actividad_slug provincia_slug localidad_slug 1
          = Raise e ->
        run R W actividad_slug provincia_slug localidad_slug max_results
          output_filename s = (Raise e, s0)
        /\ trace s0 = trace s /\ gets s0 = gets s).
Proof.
  cbv zeta. split.
  - intros url e s1 Hurl Hfetch.
    assert (Hlist :
      scrape_listing_urls R W actividad_slug provincia_slug localidad_slug
        max_results (with_progress new_ScrapeProgress s) = (Raise e, s1)).
    { unfold scrape_listing_urls, bind, lift. now rewrite Hurl, Hfetch. }
    split; [exact Hlist|].
    unfold run, bind, modify. now rewrite Hlist.
  - intros e Hurl.
    assert (Hlist :
      scrape_listing_urls R W actividad_slug provincia_slug localidad_slug
        max_results (with_progress new_ScrapeProgress s)
      = (Raise e, with_progress new_ScrapeProgress s)).
    { unfold scrape_listing_urls, bind, lift. now rewrite Hurl. }
    split; [|split; reflexivity].
    unfold run, bind, modify. now rewrite Hlist.
Qed.

End FirstPage.

(** ** The User-Agent of the requests

    [keeps Inv c]: the computation [c] preserves the invariant [Inv] of
    the state, however it ends. *)

Definition keeps (Inv : state -> Prop) {A : Type} (c : M A) : Prop :=
  forall s, Inv s -> Inv (snd (c s)).

Section Keeps.

Variable Inv : state -> Prop.

Lemma keeps_ret {A : Type} (a : A) : keeps Inv (ret a).
Proof. intros s Hs. exact Hs. Qed.

Lemma keeps_raise {A : Type} (e : exn) : keeps Inv (@raise A e).
Proof. intros s Hs. exact Hs. Qed.

Lemma keeps_lift {A : Type} (r : result A) : keeps Inv (lift r).
Proof. intros s Hs. exact Hs. Qed.

Lemma keeps_read {A : Type} (f : state -> A) : keeps Inv (read f).
Proof. intros s Hs. exact Hs. Qed.

Lemma keeps_modify (f : state -> state) :
  (forall s, Inv s -> Inv (f s)) -> keeps Inv (modify f).
Proof. intros Hf s Hs. apply Hf, Hs. Qed.

Lemma keeps_bind {A B : Type} (c : M A) (k : A -> M B) :
  keeps Inv c -> (forall a, keeps Inv (k a)) -> keeps Inv (bind c k).
Proof.
  intros Hc Hk s Hs. unfold bind. specialize (Hc s Hs).
  destruct (c s) as [[a|e] s1]; [apply Hk, Hc | exact Hc].
Qed.

Lemma keeps_try_except {A : Type} (c : M A) (catches : exn -> bool)
    (handler : exn -> M A) :
  keeps Inv c -> (forall e, keeps Inv (handler e)) ->
  keeps Inv (try_except c catches handler).
Proof.
  intros Hc Hh s Hs. unfold try_except. specialize (Hc s Hs).
  destruct (c s) as [[a|e] s1]; [exact Hc|].
  destruct (catches e); [apply Hh, Hc | exact Hc].
Qed.

End Keeps.

(** The two User-Agents of the crawlers that the site allows. *)
Definition announced (ua : pystr) : Prop :=
  ua = GPTBOT_USER_AGENT \/ ua = CHATGPT_USER_AGENT.

Definition event_announced (ev : event) : Prop :=
  match ev with
  | EvGet _ ua _ => announced ua
  | _ => True
  end.

(** The session has one of the two User-Agents and so had every request
    sent so far. *)
Definition identifies (s : state) : Prop :=
  announced (user_agent s) /\ Forall event_announced (trace s).

Section UserAgentProperties.

Local Arguments u : simpl never.

Variable R : Runtime.
Variable W : World.

Lemma identifies_same (s s' : state) :
  user_agent s' = user_agent s -> trace s' = trace s ->
  identifies s -> identifies s'.
Proof. intros Hu Ht [H1 H2]. split; [now rewrite Hu | now rewrite Ht]. Qed.

Lemma keeps_emit (ev : event) :
  event_announced ev -> keeps identifies (emit ev).
Proof.
  intros Hev s [H1 H2]. split; [exact H1|]. simpl. now constructor.
Qed.

Lemma keeps_sleep (seconds : Q) : keeps identifies (sleep seconds).
Proof.
  unfold sleep. destruct (Qle_bool 0 seconds);
    [apply keeps_emit; exact I | apply keeps_raise].
Qed.

Lemma keeps_session_get (url : pystr) : keeps identifies (session_get W url).
Proof.
  intros s [H1 H2]. unfold session_get, bind, read, modify, emit. simpl.
  assert (Hs : identifies
    (with_trace (fun t => EvGet url (user_agent s)
                            (http W (gets s) url (user_agent s)) :: t)
       (with_gets (S (gets s)) s))).
  { split; [exact H1|]. simpl. constructor; [exact H1 | exact H2]. }
  destruct (http W (gets s) url (user_agent s)); exact Hs.
Qed.

Ltac same_identity :=
  let s := fresh "s" in
  intros s; apply identifies_same; reflexivity.

Ltac keeps_step :=
  first
    [ apply keeps_ret | apply keeps_raise | apply keeps_lift
    | apply keeps_read | apply keeps_sleep | apply keeps_session_get
    | apply keeps_emit; exact I
    | apply keeps_modify; same_identity
    | apply keeps_bind; [|intros ?]
    | apply keeps_try_except; [|intros ?] ].

Lemma keeps__delay : keeps identifies (_delay W).
Proof. unfold _delay, random_uniform. repeat keeps_step. Qed.

Lemma keeps_switch :
  keeps identifies (modify (with_user_agent CHATGPT_USER_AGENT)).
Proof. intros s [H1 H2]. split; [now right | exact H2]. Qed.

Lemma keeps_attempt_step (url : pystr) (attempt : nat)
    (last_error : option exn) :
  keeps identifies (attempt_step R W url attempt last_error).
Proof.
  unfold attempt_step. apply keeps_bind; [apply keeps_read | intros n].
  apply keeps_bind;
    [destruct (0 <? n); [apply keeps__delay | apply keeps_ret] | intros _].
  unfold attempt_body. apply keeps_try_except; [|intros e; repeat keeps_step].
  apply keeps_bind; [apply keeps_session_get | intros response].
  do 2 keeps_step. keeps_step.
  destruct (status_code response =? 200)%Z.
  - cbv zeta. destruct (_detect_captcha R (text response)); [|keeps_step].
    apply keeps_bind; [apply keeps_switch | intros _]. repeat keeps_step.
  - destruct (status_code response =? 429)%Z; [repeat keeps_step|].
    destruct (status_code response =? 404)%Z; [keeps_step|].
    unfold raise_for_status.
    apply keeps_bind; [|intros _; keeps_step].
    destruct (_ && _); keeps_step.
Qed.

Lemma keeps_fetch_page (url : pystr) : keeps identifies (fetch_page R W url).
Proof.
  unfold fetch_page. generalize (seq 0 MAX_RETRIES) (@None exn).
  intros attempts. induction attempts as [|attempt rest IH]; intros le.
  - apply keeps_raise.
  - cbn [fetch_attempts]. apply keeps_bind; [apply keeps_attempt_step|].
    intros [html|le']; [apply keeps_ret | apply IH].
Qed.

Lemma keeps_listing_pages
    (actividad_slug provincia_slug localidad_slug : option pystr)
    (max_results : option Z) (pages : list Z) :
  forall all_urls,
  keeps identifies
    (listing_pages R W actividad_slug provincia_slug localidad_slug
       max_results pages all_urls).
Proof.
  induction pages as [|page rest IH]; intros all_urls; [apply keeps_ret|].
  cbn [listing_pages]. destruct (cap_reached max_results all_urls);
    [apply keeps_ret|].
  apply keeps_bind; [apply keeps_lift | intros url].
  apply keeps_bind; [|intros all_urls'; apply IH].
  apply keeps_try_except; [|intros e; apply keeps_ret].
  apply keeps_bind; [apply keeps_fetch_page | intros html; apply keeps_ret].
Qed.

Lemma keeps_scrape_listing_urls
    (actividad_slug provincia_slug localidad_slug : option pystr)
    (max_results : option Z) :
  keeps identifies
    (scrape_listing_urls R W actividad_slug provincia_slug localidad_slug
       max_results).
Proof.
  unfold scrape_listing_urls. cbv zeta.
  apply keeps_bind; [apply keeps_lift | intros url].
  apply keeps_bind; [apply keeps_fetch_page | intros html].
  apply keeps_bind; [apply keeps_lift | intros total].
  destruct (total =? 0)%Z; [apply keeps_ret|].
  apply keeps_bind; [apply keeps_listing_pages | intros all_urls].
  apply keeps_ret.
Qed.

Lemma keeps_save_to_json (empresas : list Empresa) (filepath : pystr) :
  keeps identifies (save_to_json W empresas filepath).
Proof.
  unfold save_to_json. repeat keeps_step.
  destruct (disk W _); keeps_step.
Qed.

Lemma keeps_company_loop (json_path : option pystr)
    (company_urls : list pystr) :
  keeps identifies (company_loop R W json_path company_urls).
Proof.
  induction company_urls as [|url rest IH]; [apply keeps_ret|].
  cbn [company_loop]. apply keeps_bind; [|intros _; exact IH].
  unfold process_company, scrape_company.
  apply keeps_try_except; [|intros e; repeat keeps_step].
  apply keeps_bind;
    [apply keeps_bind; [apply keeps_fetch_page | intros html; keeps_step]|].
  intros empresa. repeat keeps_step.
  destruct (truthy json_path && _);
    [apply keeps_save_to_json | keeps_step].
Qed.

Lemma keeps_run
    (actividad_slug provincia_slug localidad_slug : option pystr)
    (max_results : option Z) (output_filename : option pystr) :
  keeps identifies
    (run R W actividad_slug provincia_slug localidad_slug max_results
       output_filename).
Proof.
  unfold run. apply keeps_bind; [keeps_step | intros _].
  apply keeps_bind; [apply keeps_scrape_listing_urls | intros found].
  cbv zeta. apply keeps_bind; [keeps_step | intros p].
  apply keeps_bind; [keeps_step | intros _].
  destruct (fst found) as [|url rest]; [keeps_step|].
  apply keeps_bind; [keeps_step | intros dir].
  apply keeps_bind; [apply keeps_company_loop | intros _].
  apply keeps_bind; [keeps_step | intros p'].
  apply keeps_bind;
    [destruct (truthy _ && _); [apply keeps_save_to_json | keeps_step]|].
  intros _. unfold close. repeat keeps_step.
Qed.

Lemma browsers_not_announced :
  forallb (fun ua => negb (py_eqb ua GPTBOT_USER_AGENT
                           || py_eqb ua CHATGPT_USER_AGENT)) USER_AGENTS
  = true.
Proof. vm_compute. reflexivity. Qed.

(** X26. A scraper announces itself on every request of a run as one of
    the two crawlers that the site allows: the User-Agent of each
    request is that of GPTBot or, once a challenge page has been seen,
    that of ChatGPT-User, and the session ends with one of the two.
    None of the browser User-Agents of [USER_AGENTS] in src/config.py
    is ever sent. *)
Theorem run_announces_crawler
    (actividad_slug provincia_slug localidad_slug : option pystr)
    (max_results : option Z) (output_filename : option pystr)
    (dir : pystr) :
  let final :=
    snd (run R W actividad_slug provincia_slug localidad_slug max_results
           output_filename (new_scraper dir)) in
  announced (user_agent final)
  /\ (forall url ua o,
        In (EvGet url ua o) (trace final) ->
        announced ua /\ ~ In ua USER_AGENTS).
Proof.
  cbv zeta.
  destruct (keeps_run actividad_slug provincia_slug localidad_slug
              max_results output_filename (new_scraper dir)) as [Hua Htrace].
  { split; [now left | constructor]. }
  split; [exact Hua|].
  intros url ua o Hin. rewrite Forall_forall in Htrace.
  specialize (Htrace _ Hin). cbn [event_announced] in Htrace.
  split; [exact Htrace|]. intros Hbrowser.
  pose proof browsers_not_announced as Hnot.
  rewrite forallb_forall in Hnot. specialize (Hnot ua Hbrowser).
  apply negb_true_iff, orb_false_elim in Hnot as [Hg Hc].
  destruct Htrace as [->| ->].
  - assert (py_eqb GPTBOT_USER_AGENT GPTBOT_USER_AGENT = true)
      by now apply py_eqb_eq.
    congruence.
  - assert (py_eqb CHATGPT_USER_AGENT CHATGPT_USER_AGENT = true)
      by now apply py_eqb_eq.
    congruence.
Qed.

End UserAgentProperties.

(** ** The file of the records *)

Section SavedFile.

Local Arguments u : simpl never.

Variable R : Runtime.
Variable W : World.

Lemma process_company_output_dir (json_path : option pystr) (url : pystr)
    (s : state) :
  output_dir (snd (process_company R W json_path url s)) = output_dir s.
Proof.
  destruct (scrape_company_same_ledger R W url s) as (_ & Hdir & _).
  unfold process_company, save_to_json, emit.
  unfold try_except, bind, read, modify, ret, raise.
  destruct (scrape_company R W url s) as [[empresa|e] s1];
    cbn [snd] in Hdir; simpl.
  - destruct (truthy json_path && _); simpl; [|exact Hdir].
    destruct (disk W (saves s1)); simpl; exact Hdir.
  - exact Hdir.
Qed.

Lemma company_loop_output_dir (json_path : option pystr)
    (urls : list pystr) :
  forall s : state,
  output_dir (snd (company_loop R W json_path urls s)) = output_dir s.
Proof.
  induction urls as [|url rest IH]; intros s; [reflexivity|].
  rewrite company_loop_step, IH. apply process_company_output_dir.
Qed.

(** X28. The last save holds every record: when [run] is given a file
    name and returns a ledger with at least one success, the two newest
    events are the save of exactly the successes of the ledger, to the
    JSON file of the output directory, and the closing of the
    session. *)
Theorem run_final_save_is_complete
    (actividad_slug provincia_slug localidad_slug : option pystr)
    (max_results : option Z) (filename : pystr) (s s' : state)
    (p : ScrapeProgress) :
  filename <> [] ->
  run R W actividad_slug provincia_slug localidad_slug max_results
    (Some filename) s = (Ok p, s') ->
  empresas_ok p <> [] ->
  exists older,
    trace s'
    = EvClose
      :: EvSave (output_dir s ++ u "/" ++ filename ++ u ".json")
           (empresas_ok p)
      :: older.
Proof.
  intros Hname Hrun Hok. revert Hrun.
  unfold run. unfold bind at 1. unfold modify at 1. unfold bind at 1.
  pose proof (scrape_listing_urls_same_ledger R W actividad_slug
                provincia_slug localidad_slug max_results
                (with_progress new_ScrapeProgress s)) as (Hp & Hdir & _).
  destruct (scrape_listing_urls R W actividad_slug provincia_slug
              localidad_slug max_results (with_progress new_ScrapeProgress s))
    as [[found|e] s1]; [|discriminate].
  cbn [snd] in Hp, Hdir. cbn [output_dir with_progress progress] in Hp, Hdir.
  unfold bind, read, modify. cbn [fst].
  destruct (fst found) as [|url rest].
  - intros Hrun. exfalso. apply Hok.
    assert (Hpe : p = progress
                        (with_progress
                           (set_total_esperado (Z.of_nat (@length pystr []))
                              (progress s1)) s1)) by congruence.
    rewrite Hpe.
    cbn [progress with_progress set_total_esperado empresas_ok].
    now rewrite Hp.
  - set (s2 := with_progress _ s1).
    cbn [output_dir].
    destruct filename as [|c name]; [congruence|].
    cbn [truthy text_of].
    set (path := output_dir s2 ++ u "/" ++ (c :: name) ++ u ".json").
    assert (Hpath : truthy (Some path) = true).
    { unfold path. destruct (output_dir s2); [|reflexivity].
      change (u "/") with [47%N]. reflexivity. }
    pose proof (company_loop_output_dir (Some path) (url :: rest) s2)
      as Hdir3.
    pose proof (company_loop_grows R W (Some path) (url :: rest) s2)
      as (Hres & _).
    destruct (company_loop R W (Some path) (url :: rest) s2) as [r s3].
    cbn [fst snd] in Hres, Hdir3. subst r.
    cbn [truthy] in Hpath. rewrite Hpath. cbn [andb].
    destruct (empresas_ok (progress s3)) as [|e0 oks] eqn:Hoks.
    + unfold close, emit, modify, ret.
      intros Hrun. exfalso. apply Hok.
      assert (Hpe : p = progress
                          (with_trace (fun t => EvClose :: t) s3))
        by congruence.
      rewrite Hpe. exact Hoks.
    + unfold save_to_json, close, emit. unfold bind, read, modify, ret, raise.
      destruct (disk W (saves s3)); [discriminate|].
      intros Hrun. injection Hrun as Hpe Hse. subst p s'. eexists.
      cbn [trace with_trace with_saves progress text_of]. rewrite Hoks.
      unfold path, s2. cbn [output_dir with_progress].
      rewrite Hdir. reflexivity.
Qed.

End SavedFile.

(** X29. The JSON file is written twice under one name only if the name
    is relative: [run] saves to the output directory, a slash and the
    name, while [export_all] joins the two with [os.path.join] (of
    [posixpath]).  For an output directory that is not empty and does
    not end with a slash, the two paths are the same exactly when the
    file name does not start with a slash; a name that does makes
    [export_all] write outside the output directory. *)
Theorem export_all_json_path (output_dir filename timestamp : pystr) :
  filename <> [] -> output_dir <> [] ->
  endswith output_dir (u "/") = false ->
  let run_path := output_dir ++ u "/" ++ filename ++ u ".json" in
  let export_path := fst (export_paths output_dir (Some filename) timestamp) in
  (startswith filename (u "/") = false -> export_path = run_path)
  /\ (startswith filename (u "/") = true ->
      export_path = filename ++ u ".json" /\ export_path <> run_path).
Proof.
  intros Hname Hdir Hslash. cbv zeta.
  unfold export_paths. cbv zeta. cbn [fst].
  destruct filename as [|c name]; [congruence|].
  cbn [truthy negb text_of]. unfold os_path_join.
  assert (Hstart : startswith ((c :: name) ++ u ".json") (u "/")
                   = startswith (c :: name) (u "/")).
  { change (u "/") with [47%N]. reflexivity. }
  rewrite Hstart, Hslash.
  destruct output_dir as [|d dir]; [congruence|].
  cbn [nonempty negb orb].
  split.
  - intros ->. reflexivity.
  - intros ->. split; [reflexivity|]. intros H.
    apply (f_equal (@length N)) in H.
    rewrite !length_app in H. cbn [length] in H. lia.
Qed.

(** ** The extremes of the success rate *)

Lemma percentage_extremes (n t : Z) :
  (0 <= n <= t)%Z -> (0 < t)%Z ->
  ((inject_Z n / inject_Z t * 100 == 100)%Q <-> n = t)
  /\ ((inject_Z n / inject_Z t * 100 == 0)%Q <-> n = 0%Z).
Proof.
  intros Hn Ht.
  destruct t as [|t|t]; try lia.
  unfold Qeq, Qdiv, Qmult, Qinv, inject_Z; simpl.
  split; split; intros H; nia.
Qed.

(** X30. The success rate is 100 exactly when the ledger holds at least
    one success and no failure, and 0 exactly when it holds no
    success. *)
Theorem tasa_exito_extremes (p : ScrapeProgress) :
  exists q : Q,
    tasa_exito p = inr q
    /\ ((q == 100)%Q <-> empresas_ok p <> [] /\ empresas_error p = [])
    /\ ((q == 0)%Q <-> empresas_ok p = []).
Proof.
  unfold tasa_exito, truediv, total_procesadas.
  destruct p as [total oks errs]. cbn [empresas_ok empresas_error].
  destruct (Z.of_nat (length oks) + Z.of_nat (length errs) =? 0)%Z eqn:Hz.
  - apply Z.eqb_eq in Hz.
    assert (oks = []) as ->
      by (destruct oks; [reflexivity | cbn [length] in Hz; lia]).
    exists 0%Q. split; [reflexivity|]. split.
    + split; [discriminate | intros [H _]; congruence].
    + split; reflexivity.
  - apply Z.eqb_neq in Hz. eexists. split; [reflexivity|].
    destruct (percentage_extremes (Z.of_nat (length oks))
                (Z.of_nat (length oks) + Z.of_nat (length errs)))
      as [H100 H0]; [lia | lia |].
    rewrite H100, H0. split.
    + split.
      * intros H. assert (length errs = 0) by lia.
        split; [destruct oks; [cbn [length] in *; lia | discriminate]|].
        now apply length_zero_iff_nil.
      * intros [_ ->]. cbn [length]. lia.
    + split.
      * intros H. apply length_zero_iff_nil. lia.
      * intros ->. reflexivity.
Qed.

(** ** Records as dictionaries, and the files of the export *)

(** X18. A record survives the passage through a dictionary:
    [from_dict] gives back the record [to_dict] was applied to.  A key
    that names no attribute is ignored, and a dictionary without keys
    gives the record of the defaults. *)
Theorem from_dict_to_dict (e : Empresa) :
  from_dict (to_dict e) = e
  /\ (forall key value data,
        existsb (py_eqb key) valid_fields = false ->
        from_dict ((key, value) :: data) = from_dict data)
  /\ from_dict [] = new_Empresa [].
Proof.
  split; [|split].
  - destruct e. vm_compute. reflexivity.
  - intros key value data Hkey. unfold from_dict.
    cbn [filter fst]. now rewrite Hkey.
  - vm_compute. reflexivity.
Qed.

(** X19. The CSV file loses no attribute and invents none: the columns
    are the names of the attributes of [Empresa], each one once, and
    the row written for the dictionary of a record holds, under each
    name, the value of that attribute.  Whatever keys a JSON object
    has, its row has one cell for each column, empty where the key is
    missing. *)
Theorem csv_row_of_record :
  exists columns : list field,
    CSV_COLUMNS = map field_name columns
    /\ NoDup columns /\ (forall f, In f columns)
    /\ (forall e,
          _dict_to_list CSV_COLUMNS (to_dict e)
          = map (fun f => get_field f e) columns)
    /\ (forall row, length (_dict_to_list CSV_COLUMNS row)
                    = length CSV_COLUMNS)
    /\ (forall row key i,
          nth_error CSV_COLUMNS i = Some key -> dict_has key row = false ->
          nth_error (_dict_to_list CSV_COLUMNS row) i = Some []).
Proof.
  exists [ f_razon_social; f_cif; f_forma_juridica; f_sector; f_actividad;
           f_cnae; f_estado; f_fecha_constitucion; f_objeto_social;
           f_direccion; f_telefono; f_email; f_web; f_ventas;
           f_num_empleados; f_participaciones;
           f_operaciones_internacionales; f_grupo_sector; f_cotiza_bolsa;
           f_url_ficha ].
  split; [vm_compute; reflexivity|].
  split.
  { repeat (constructor; [simpl; intuition discriminate|]). constructor. }
  split.
  { intros f. destruct f; simpl; tauto. }
  split.
  { intros e. destruct e. vm_compute. reflexivity. }
  split.
  { intros row. unfold _dict_to_list. apply length_map. }
  intros row key i Hi Hrow. unfold _dict_to_list.
  rewrite nth_error_map, Hi. cbn [option_map]. f_equal.
  clear Hi. induction row as [|[k v] rest IH]; [reflexivity|].
  cbn [dict_has existsb fst] in Hrow. apply orb_false_elim in Hrow as [Hk Hrest].
  cbn [dict_get]. rewrite Hk. now apply IH.
Qed.

Lemma before_last_app (sep : N) (stem ext : pystr) :
  ~ In sep ext -> before_last sep (stem ++ sep :: ext) = Some stem.
Proof.
  intros Hext.
  assert (Hnone : before_last sep ext = None).
  { induction ext as [|c t IH]; [reflexivity|]. simpl.
    rewrite IH by (intros H; apply Hext; now right).
    destruct (N.eqb_spec c sep) as [->|_]; [|reflexivity].
    exfalso. apply Hext. now left. }
  induction stem as [|c stem IH]; simpl.
  - now rewrite Hnone, N.eqb_refl.
  - now rewrite IH.
Qed.

Lemma before_last_none (sep : N) (s : pystr) :
  ~ In sep s -> before_last sep s = None.
Proof.
  induction s as [|c t IH]; intros Hs; [reflexivity|]. simpl.
  rewrite IH by (intros H; apply Hs; now right).
  destruct (N.eqb_spec c sep) as [->|_]; [|reflexivity].
  exfalso. apply Hs. now left.
Qed.

(** X20. The default path of the CSV file replaces what follows the
    last dot of the JSON path by [csv], wherever that dot stands: the
    extension when the file name has one, but the end of a directory
    name when it has none; a path without any dot gets [.csv]
    appended.  A path that is given is used as it is. *)
Theorem json_to_csv_default_path (json_path : pystr) :
  (forall stem ext,
     json_path = stem ++ u "." ++ ext -> ~ In 46%N ext ->
     csv_path_of json_path None = stem ++ u ".csv")
  /\ (~ In 46%N json_path ->
      csv_path_of json_path None = json_path ++ u ".csv")
  /\ (forall csv_path, csv_path_of json_path (Some csv_path) = csv_path)
  /\ csv_path_of (u "out.d/empresas") None = u "out.csv".
Proof.
  split; [|split; [|split]].
  - intros stem ext -> Hext. unfold csv_path_of, rsplit1_head.
    change (u "." ++ ext) with (46%N :: ext).
    now rewrite before_last_app.
  - intros Hno. unfold csv_path_of, rsplit1_head.
    now rewrite before_last_none.
  - reflexivity.
  - vm_compute. reflexivity.
Qed.

Lemma json_extension_has_no_dot : ~ In 46%N (skipn 1 (u ".json")).
Proof. vm_compute. intuition discriminate. Qed.

Lemma os_path_join_extension (a name ext1 ext2 : pystr) :
  exists base,
    os_path_join a (name ++ 46%N :: ext1) = base ++ 46%N :: ext1
    /\ os_path_join a (name ++ 46%N :: ext2) = base ++ 46%N :: ext2.
Proof.
  unfold os_path_join. change (u "/") with [47%N].
  assert (Hstart : forall x,
    startswith (name ++ 46%N :: x) [47%N] = startswith (name ++ [46%N]) [47%N]).
  { intros x. destruct name as [|c name']; simpl; [reflexivity|].
    now destruct (47 =? c)%N. }
  rewrite (Hstart ext1), (Hstart ext2).
  destruct (startswith (name ++ [46%N]) [47%N]).
  - exists name. auto.
  - destruct (negb (nonempty a) || endswith a [47%N]).
    + exists (a ++ name). now rewrite <- !app_assoc.
    + exists (a ++ [47%N] ++ name). now rewrite <- !app_assoc.
Qed.

(** X21. The two files of [export_all] go side by side: the CSV path it
    passes to [json_to_csv] is the one [json_to_csv] would have derived
    from the JSON path by default, and it differs from the JSON path, so
    that the CSV file never overwrites the JSON file. *)
Theorem export_all_paths (output_dir : pystr) (filename : option pystr)
    (timestamp : pystr) :
  let json_path := fst (export_paths output_dir filename timestamp) in
  let csv_path := snd (export_paths output_dir filename timestamp) in
  csv_path_of json_path None = csv_path
  /\ csv_path_of json_path (Some csv_path) = csv_path
  /\ json_path <> csv_path.
Proof.
  cbv zeta. unfold export_paths. cbv zeta. cbn [fst snd].
  set (name := if negb (truthy filename) then _ else _).
  change (u ".json") with (46%N :: skipn 1 (u ".json")).
  change (u ".csv") with (46%N :: skipn 1 (u ".csv")).
  destruct (os_path_join_extension output_dir name (skipn 1 (u ".json"))
              (skipn 1 (u ".csv"))) as (base & Hj & Hc).
  rewrite Hj, Hc.
  split; [|split].
  - unfold csv_path_of, rsplit1_head.
    rewrite before_last_app by exact json_extension_has_no_dot.
    reflexivity.
  - reflexivity.
  - intros H. apply app_inv_head in H. vm_compute in H. discriminate H.
Qed.
(** ** The questions of the command line *)

Section CommandLineProperties.

Local Arguments u : simpl never.

Variable R : Runtime.
Variable str_upper : pystr -> pystr.

Lemma py_int_raises_ValueError (v : pystr) (e : exn) :
  py_int R v = Raise e -> is_ValueError e = true.
Proof.
  unfold py_int. destruct (match strip v with [] => _ | _ => _ end);
    [discriminate|]. intros [= <-]. reflexivity.
Qed.

(** How a call of [print_menu] ends. *)
Lemma print_menu_outcome (title : pystr) (options : list pystr)
    (allow_skip : bool) (lines : list pystr) :
  match print_menu R title options allow_skip lines with
  | Answer idx rest =>
    ((allow_skip = true /\ idx = (-1)%Z)
     \/ (0 <= idx < Z.of_nat (length options))%Z)
    /\ exists read, read <> [] /\ lines = read ++ rest
  | EndOfInput => True
  | Uncaught _ | LookupFailed => False
  end.
Proof.
  induction lines as [|line rest IH]; cbn [print_menu]; [exact I|].
  assert (Hnext :
    match print_menu R title options allow_skip rest with
    | Answer idx rest' =>
      ((allow_skip = true /\ idx = (-1)%Z)
       \/ (0 <= idx < Z.of_nat (length options))%Z)
      /\ exists read, read <> [] /\ line :: rest = read ++ rest'
    | EndOfInput => True
    | Uncaught _ | LookupFailed => False
    end).
  { destruct (print_menu R title options allow_skip rest)
      as [idx rest'| | |]; auto.
    destruct IH as [Hidx (read & Hne & Hread)]. split; [exact Hidx|].
    exists (line :: read). split; [discriminate|]. now rewrite Hread. }
  destruct (negb (nonempty (strip line))); [exact Hnext|].
  destruct (py_int R (strip line)) as [num|e] eqn:Hint.
  - destruct (allow_skip && (num =? 0)%Z) eqn:Hskip.
    + apply andb_prop in Hskip as [Hallow _]. split; [now left|].
      exists [line]. split; [discriminate | reflexivity].
    + destruct ((1 <=? num)%Z && (num <=? Z.of_nat (length options))%Z)
        eqn:Hrange; [|exact Hnext].
      apply andb_prop in Hrange as [Hlo Hhi].
      apply Z.leb_le in Hlo, Hhi. split; [right; lia|].
      exists [line]. split; [discriminate | reflexivity].
  - rewrite (py_int_raises_ValueError _ _ Hint). exact Hnext.
Qed.

(** X22. [print_menu] returns only an index of the menu: a number from
    0 to the number of options minus 1, or -1 when skipping is allowed
    and only then.  It has then read at least one line; it rejects
    whatever else the user types and asks again, and no exception
    leaves it but the end of the input. *)
Theorem print_menu_valid_index (title : pystr) (options : list pystr)
    (allow_skip : bool) (lines : list pystr) :
  (forall idx rest,
     print_menu R title options allow_skip lines = Answer idx rest ->
     ((allow_skip = true /\ idx = (-1)%Z)
      \/ (0 <= idx < Z.of_nat (length options))%Z)
     /\ exists read, read <> [] /\ lines = read ++ rest)
  /\ (forall e, print_menu R title options allow_skip lines <> Uncaught e)
  /\ print_menu R title options allow_skip lines <> LookupFailed.
Proof.
  pose proof (print_menu_outcome title options allow_skip lines) as H.
  destruct (print_menu R title options allow_skip lines)
    as [idx rest| |e|]; try contradiction.
  - split; [|split; [intros e|]; discriminate].
    intros idx' rest' [= <- <-]. exact H.
  - split; [|split; [intros e|]; discriminate]. discriminate.
Qed.

(** The table of a menu: each name once. *)
Lemma dict_item_of_name (table : pydict) (idx : Z) (selected : pystr) :
  list_index (map fst table) idx = Some selected ->
  exists slug, dict_item selected table = Some slug /\ In slug (map snd table).
Proof.
  intros Hidx.
  assert (Hin : In selected (map fst table)).
  { unfold list_index in Hidx.
    destruct (0 <=? idx)%Z; [now apply nth_error_In in Hidx|].
    destruct (_ <=? idx)%Z; [now apply nth_error_In in Hidx | discriminate]. }
  clear Hidx. induction table as [|[k v] rest IH]; [contradiction|].
  cbn [dict_item]. destruct (py_eqb k selected) eqn:Hk.
  - exists v. split; [reflexivity | now left].
  - destruct Hin as [Heq|Hin].
    + simpl in Heq. subst k.
      assert (py_eqb selected selected = true) by now apply py_eqb_eq.
      congruence.
    + destruct (IH Hin) as (slug & Hslug & Hs). exists slug.
      split; [exact Hslug | now right].
Qed.

Lemma select_from_slug (title : pystr) (table : pydict)
    (lines : list pystr) :
  match select_from R title table lines with
  | Answer None _ => True
  | Answer (Some slug) _ => In slug (map snd table)
  | EndOfInput => True
  | Uncaught _ | LookupFailed => False
  end.
Proof.
  unfold select_from.
  pose proof (print_menu_outcome title (map fst table) true lines) as Hmenu.
  destruct (print_menu R title (map fst table) true lines)
    as [idx rest| | |]; auto.
  destruct (idx =? -1)%Z eqn:Hskip; [exact I|].
  apply Z.eqb_neq in Hskip.
  destruct Hmenu as [[(_ & Hidx)|Hidx] _]; [contradiction|].
  destruct (list_index (map fst table) idx) as [selected|] eqn:Hsel.
  - destruct (dict_item_of_name table idx selected Hsel)
      as (slug & Hslug & Hin).
    now rewrite Hslug.
  - unfold list_index in Hsel.
    replace (0 <=? idx)%Z with true in Hsel by (symmetry; lia).
    apply nth_error_None in Hsel. lia.
Qed.

Lemma slugs_not_empty :
  forallb nonempty (map snd ACTIVIDADES) = true
  /\ forallb nonempty (map snd PROVINCIAS) = true.
Proof. split; vm_compute; reflexivity. Qed.

(** X23. An activity chosen in the menu is a slug of the table
    [ACTIVIDADES], found without [IndexError] or [KeyError], and it is
    not empty: [build_listing_url] returns a URL for it, whatever the
    location and the page. *)
Theorem select_actividad_gives_listing_url (lines : list pystr) :
  (forall slug rest,
     select_actividad R lines = Answer (Some slug) rest ->
     In slug (map snd ACTIVIDADES)
     /\ forall provincia_slug localidad_slug page,
          exists url,
            build_listing_url (Some slug) provincia_slug localidad_slug page
            = Ok url)
  /\ (forall e, select_actividad R lines <> Uncaught e)
  /\ select_actividad R lines <> LookupFailed.
Proof.
  pose proof (select_from_slug (u "SELECCIONA ACTIVIDAD") ACTIVIDADES lines)
    as H.
  unfold select_actividad.
  destruct (select_from R (u "SELECCIONA ACTIVIDAD") ACTIVIDADES lines)
    as [[slug|] rest| |e|]; try contradiction.
  - split; [|split; [intros e|]; discriminate].
    intros slug' rest' [= <- <-]. split; [exact H|].
    intros provincia_slug localidad_slug page.
    destruct slugs_not_empty as [Hne _].
    rewrite forallb_forall in Hne. specialize (Hne slug H).
    unfold build_listing_url. destruct slug as [|c slug']; [discriminate Hne|].
    cbn [truthy orb negb]. eexists. reflexivity.
  - split; [|split; [intros e|]; discriminate]. discriminate.
  - split; [|split; [intros e|]; discriminate]. discriminate.
Qed.

Lemma replace_char_removes (old new : N) (s : pystr) :
  old <> new -> ~ In old (replace_char old new s).
Proof.
  intros Hne Hin. unfold replace_char in Hin.
  apply in_map_iff in Hin as (c & Hc & _).
  destruct (N.eqb_spec c old); congruence.
Qed.

(** X24. [select_ubicacion] returns at most one location: the province
    or the locality is [None].  A province is a slug of the table
    [PROVINCIAS]; a locality is not empty and holds no space, each
    space typed having become a hyphen.  No exception leaves the
    function but the end of the input. *)
Theorem select_ubicacion_one_location (lines : list pystr) :
  (forall provincia localidad rest,
     select_ubicacion R str_upper lines = Answer (provincia, localidad) rest ->
     (provincia = None \/ localidad = None)
     /\ (forall slug, provincia = Some slug ->
                      In slug (map snd PROVINCIAS))
     /\ (forall slug, localidad = Some slug ->
                      slug <> [] /\ ~ In 32%N slug))
  /\ (forall e, select_ubicacion R str_upper lines <> Uncaught e)
  /\ select_ubicacion R str_upper lines <> LookupFailed.
Proof.
  unfold select_ubicacion. cbv zeta.
  set (options := [_; _; _]).
  pose proof (print_menu_outcome (u "TIPO DE UBICACIÓN") options false lines)
    as Hmenu.
  destruct (print_menu R (u "TIPO DE UBICACIÓN") options false lines)
    as [idx rest| | |]; try contradiction.
  - destruct (idx =? 0)%Z.
    + pose proof (select_from_slug (u "SELECCIONA PROVINCIA") PROVINCIAS rest)
        as Hprov.
      unfold select_provincia.
      destruct (select_from R (u "SELECCIONA PROVINCIA") PROVINCIAS rest)
        as [provincia rest'| | |]; try contradiction.
      * split; [|split; [intros e|]; discriminate].
        intros p l r [= <- <- <-]. split; [now right|].
        split; [|discriminate]. intros slug ->. exact Hprov.
      * split; [|split; [intros e|]; discriminate]. discriminate.
    + destruct (idx =? 1)%Z.
      * unfold select_localidad. destruct rest as [|line rest'].
        -- split; [|split; [intros e|]; discriminate]. discriminate.
        -- destruct (str_upper (strip line)) as [|c up] eqn:Hup;
             cbn [nonempty negb].
           ++ split; [|split; [intros e|]; discriminate].
              intros p l r [= <- <- <-]. split; [now left|].
              split; discriminate.
           ++ split; [|split; [intros e|]; discriminate].
              intros p l r [= <- <- <-]. split; [now left|].
              split; [discriminate|]. intros slug [= <-].
              split; [discriminate|].
              apply (replace_char_removes 32 45 (c :: up)). discriminate.
      * split; [|split; [intros e|]; discriminate].
        intros p l r [= <- <- <-]. split; [now left|].
        split; discriminate.
  - split; [|split; [intros e|]; discriminate]. discriminate.
Qed.

Lemma select_max_results_outcome (lines : list pystr) :
  match select_max_results R lines with
  | Answer None _ => True
  | Answer (Some n) _ => (0 < n)%Z
  | EndOfInput => True
  | Uncaught _ | LookupFailed => False
  end.
Proof.
  induction lines as [|line rest IH]; cbn [select_max_results]; [exact I|].
  destruct (negb (nonempty (strip line)) || py_eqb (strip line) (u "0"));
    [exact I|].
  destruct (py_int R (strip line)) as [num|e] eqn:Hint.
  - destruct (num >? 0)%Z eqn:Hpos; [lia | exact IH].
  - rewrite (py_int_raises_ValueError _ _ Hint). exact IH.
Qed.

(** X25. The cap that [select_max_results] returns is [None] or a
    positive number: zero, negative numbers and what is no number are
    never passed on, so that for the scraper the cap it gets from the
    command line is either absent or given and positive. *)
Theorem select_max_results_positive (lines : list pystr) :
  (forall cap rest,
     select_max_results R lines = Answer cap rest ->
     cap = None
     \/ exists n, cap = Some n /\ (0 < n)%Z /\ cap_given cap = true)
  /\ (forall e, select_max_results R lines <> Uncaught e)
  /\ select_max_results R lines <> LookupFailed.
Proof.
  pose proof (select_max_results_outcome lines) as H.
  destruct (select_max_results R lines) as [[n|] rest| |e|];
    try contradiction.
  - split; [|split; [intros e|]; discriminate].
    intros cap rest' [= <- <-]. right. exists n.
    split; [reflexivity|]. split; [exact H|].
    unfold cap_given. cbn [truthy_int int_of].
    replace (n =? 0)%Z with false by (symmetry; lia).
    replace (n >? 0)%Z with true by (symmetry; lia). reflexivity.
  - split; [|split; [intros e|]; discriminate].
    intros cap rest' [= <- <-]. now left.
  - split; [|split; [intros e|]; discriminate]. discriminate.
Qed.

End CommandLineProperties.

(** * Examples

    A runtime and worlds on which the embedding can be evaluated.
    [lower_latin1] agrees with [str.lower()] on every string whose code
    points are below U+0100; the examples use no others, no character
    reference and no digit outside ASCII.  The parser of an example
    knows a few documents: given the markup that [render] writes for one
    of them it returns that document, as lxml does for markup this
    plain. *)

Definition lower_cp (c : N) : N :=
  if ((65 <=? c) && (c <=? 90))%N then (c + 32)%N
  else if ((192 <=? c) && (c <=? 222) && negb (c =? 215))%N then (c + 32)%N
  else c.

Definition lower_latin1 (s : pystr) : pystr := map lower_cp s.

Definition render_attr (kv : pystr * attrval) : pystr :=
  u " " ++ fst kv ++ u "='"
  ++ match snd kv with
     | AStr v => v
     | AList l => join (u " ") l
     end
  ++ u "'".

Fixpoint render (n : node) : pystr :=
  match n with
  | Text t => t
  | Elem name attrs cs =>
    let inner := concat (map render cs) in
    if py_eqb name (u "[document]") then inner
    else u "<" ++ name ++ concat (map render_attr attrs) ++ u ">"
         ++ inner ++ u "</" ++ name ++ u ">"
  end.

Definition tag (name : string) (attrs : list (string * string))
    (contents : list node) : node :=
  Elem (u name) (map (fun kv => (u (fst kv), AStr (u (snd kv)))) attrs)
       contents.

Definition document (contents : list node) : node :=
  Elem (u "[document]") [] contents.

Definition example_parser (known : list node) (markup : pystr) : node :=
  match List.find (fun t => py_eqb (render t) markup) known with
  | Some t => t
  | None => document []
  end.

Definition example_runtime (known : list node) : Runtime :=
  {| str_lower := lower_latin1;
     decimal_of := fun _ => None;
     charref_sub := fun s => s;
     BeautifulSoup := example_parser known;
     py_repr := fun s => u "'" ++ s ++ u "'";
     str_of_list := fun l => u "['" ++ join (u "', '") l ++ u "']" |}.


(** A response with status 200 and the given body. *)
Definition page (body : pystr) : outcome :=
  Responded {| status_code := 200; retry_after_header := None;
               text := body |}.

Definition status (code : Z) : outcome :=
  Responded {| status_code := code; retry_after_header := None;
               text := [] |}.

(** A site that answers by URL: the pages it has, 404 for the rest. *)
Definition site (pages : list (pystr * outcome)) : World :=
  {| http := fun _ url _ =>
       match List.find (fun p => py_eqb (fst p) url) pages with
       | Some p => snd p
       | None => status 404
       end;
     random := fun _ => (1 # 2)%Q;
     disk := fun _ => None;
     http_error_str := fun code url =>
       str_of_Z code ++ u " Error for url: " ++ url |}.

Lemma site_random_in_unit (pages : list (pystr * outcome)) :
  random_in_unit (site pages).
Proof. intros k. simpl. split; [discriminate | reflexivity]. Qed.

(** ** The URL builder *)

Definition PESCA : option pystr := Some (u "PESCA").

Definition VIGO_PAGE_2 : pystr :=
  u "https://empresite.eleconomista.es/Actividad/PESCA/localidad/VIGO-PONTEVEDRA/PgNum-2/".

Lemma build_listing_url_one_location_witness :
  build_listing_url PESCA (Some (u "PONTEVEDRA"))
    (Some (u "VIGO-PONTEVEDRA")) 2 = Ok VIGO_PAGE_2
  /\ listing_parts PESCA (Some (u "PONTEVEDRA")) (Some (u "VIGO-PONTEVEDRA"))
     = [BASE_URL]
       ++ (if truthy PESCA then [u "/Actividad/" ++ text_of PESCA] else [])
       ++ [u "/localidad/" ++ text_of (Some (u "VIGO-PONTEVEDRA"))]
  /\ existsb is_provincia_segment
       (listing_parts PESCA (Some (u "PONTEVEDRA"))
          (Some (u "VIGO-PONTEVEDRA"))) = false.
Proof.
  assert (Hurl : build_listing_url PESCA (Some (u "PONTEVEDRA"))
                   (Some (u "VIGO-PONTEVEDRA")) 2 = Ok VIGO_PAGE_2)
    by (vm_compute; reflexivity).
  split; [exact Hurl|].
  destruct (build_listing_url_one_location PESCA (Some (u "PONTEVEDRA"))
              (Some (u "VIGO-PONTEVEDRA")) 2 VIGO_PAGE_2 Hurl)
    as (_ & _ & _ & Hloc & _).
  exact (Hloc eq_refl).
Defined.

(** ** The field extractor *)

(** A company page whose heading for the phone has an empty sibling and
    whose title reads as a placeholder. *)
Definition company_page : node :=
  document
    [tag "html" []
       [tag "head" [] [tag "title" [] [Text (u "No consta - Empresite")]];
        tag "body" []
          [tag "div" []
             [tag "h3" [] [Text (u "CIF")];
              tag "p" [] [Text (u " B1234  5678 ")]];
           tag "div" []
             [tag "span" [] [Text (u "no")];
              tag "h3" [] [Text (u "Teléfono")];
              tag "span" [] [];
              tag "b" [] [Text (u "disponible")]];
           tag "div" []
             [tag "h3" [] [Text (u "Web")];
              tag "a" [] [Text (u "Añadir web")]]]]].

Definition company_runtime : Runtime := example_runtime [company_page].

Definition AGREGAR_URL : pystr :=
  u "https://empresite.eleconomista.es/AGREGAR-SL.html".

(** C1 as stated fails: the URL of a company whose name reads as a
    placeholder phrase is stored in [url_ficha] as it is. *)
Lemma placeholder_in_url_ficha :
  url_ficha (parse_company_page company_runtime (render company_page)
               AGREGAR_URL) = AGREGAR_URL
  /\ _is_placeholder company_runtime
       (url_ficha (parse_company_page company_runtime (render company_page)
                     AGREGAR_URL)) = true.
Proof. split; vm_compute; reflexivity. Qed.

(** On the same page: the value of the field next to its heading is
    taken, a placeholder for the site is cleared, and the two fallbacks
    that store unfiltered text show. *)
Example company_page_record :
  let e := parse_company_page company_runtime (render company_page)
             AGREGAR_URL in
  cif e = u "B1234 5678" /\ web e = []
  /\ razon_social e = u "No consta" /\ telefono e = u "no disponible".
Proof. vm_compute. repeat split; reflexivity. Qed.

(** ** The result count *)




Definition summary_element (n : string) : node :=
  tag "div" [("id", "filter-numresultados")%string]
    [Text (u "Hemos encontrado " ++ u n ++ u " empresas en Empresite")].



(** ** The page fetcher *)

Definition FICHA_URL : pystr :=
  u "https://empresite.eleconomista.es/NOVANTOLIN-PESCA.html".

(** A network whose first request times out and whose later requests
    are answered. *)
Definition flaky_start : World :=
  {| http := fun k _ _ =>
       match k with
       | O => RequestFailed (u "Read timed out.")
       | S _ => page (render company_page)
       end;
     random := fun _ => (1 # 2)%Q;
     disk := fun _ => None;
     http_error_str := fun code url =>
       str_of_Z code ++ u " Error for url: " ++ url |}.

(** C5 as stated fails: when the first request of a scraper raises a
    network error, the second request is issued without any randomized
    delay: the only sleep between the two is the backoff of 30 seconds,
    outside the window, and no random number has been drawn. *)
Lemma no_delay_after_failed_first_request :
  trace (snd (fetch_page company_runtime flaky_start FICHA_URL
                (new_scraper (u "output"))))
  = [EvGet FICHA_URL GPTBOT_USER_AGENT (page (render company_page));
     EvSleep 30;
     EvGet FICHA_URL GPTBOT_USER_AGENT (RequestFailed (u "Read timed out."))]
  /\ draws (snd (fetch_page company_runtime flaky_start FICHA_URL
                   (new_scraper (u "output")))) = 0
  /\ Qle_bool 30 REQUEST_DELAY_MAX = false.
Proof. repeat split; vm_compute; reflexivity. Qed.

(** Two pages fetched one after the other from a site that answers:
    the second request comes right after a delay of 7.5 seconds. *)
Definition two_pages : World :=
  site [(FICHA_URL, page (render company_page))].

Lemma fetch_page_keeps_polite_witness :
  random_in_unit two_pages
  /\ polite (snd (fetch_page company_runtime two_pages FICHA_URL
                    (new_scraper (u "output"))))
  /\ polite
       (snd (fetch_page company_runtime two_pages AGREGAR_URL
               (snd (fetch_page company_runtime two_pages FICHA_URL
                       (new_scraper (u "output")))))).
Proof.
  pose proof (site_random_in_unit [(FICHA_URL, page (render company_page))])
    as Hr.
  pose proof (fetch_page_keeps_polite company_runtime two_pages FICHA_URL
                (new_scraper (u "output")) Hr
                (new_scraper_polite (u "output"))) as H1.
  split; [exact Hr|]. split; [exact H1|].
  exact (fetch_page_keeps_polite company_runtime two_pages AGREGAR_URL _
           Hr H1).
Defined.

Example second_request_is_delayed :
  trace (snd (fetch_page company_runtime two_pages AGREGAR_URL
                (snd (fetch_page company_runtime two_pages FICHA_URL
                        (new_scraper (u "output"))))))
  = [EvGet AGREGAR_URL GPTBOT_USER_AGENT (status 404);
     EvSleep (15 # 2);
     EvGet FICHA_URL GPTBOT_USER_AGENT (page (render company_page))].
Proof. vm_compute. reflexivity. Qed.

(** ** The traversals *)

(** Scenario 5: of two company URLs the first is not found.  The
    failure is recorded under its URL, the second company is fetched
    and recorded as a success. *)
Example not_found_is_recorded_and_skipped :
  let s := snd (company_loop company_runtime two_pages None
                  [AGREGAR_URL; FICHA_URL] (new_scraper (u "output"))) in
  empresas_error (progress s)
  = [{| err_url := AGREGAR_URL;
        err_error := u "Página no encontrada (404): " ++ AGREGAR_URL |}]
  /\ map url_ficha (empresas_ok (progress s)) = [FICHA_URL]
  /\ gets s = 2.
Proof. vm_compute. repeat split; reflexivity. Qed.

(** A listing page: the summary of the results and the cards of the
    companies, [n] of them. *)
Definition card (page_no i : nat) : node :=
  Elem (u "div") [(u "class", AList [u "cardCompanyBox"])]
    [tag "meta"
       [("itemprop", "url")%string;
        ("content",
         "/EMPRESA-" ++ NilZero.string_of_uint (Nat.to_uint page_no)
         ++ "-" ++ NilZero.string_of_uint (Nat.to_uint i) ++ ".html")%string]
       []].

Definition listing_page (summary : list node) (page_no n : nat) : node :=
  document
    [tag "html" []
       [tag "body" [] (summary ++ map (card page_no) (seq 1 n))]].

(** C2 as stated fails: a first page that lists one company and shows
    no count.  One URL is collected, the count read is 0, and the
    traversal returns the empty list, not min(5, 1) = 1 URL. *)
Definition uncounted_page : node := listing_page [] 1 1.

Definition uncounted_site : World :=
  site [(u "https://empresite.eleconomista.es/Actividad/PESCA/",
         page (render uncounted_page))].

Lemma zero_count_returns_nothing :
  parse_listing_page (example_runtime [uncounted_page])
    (render uncounted_page)
  = [u "https://empresite.eleconomista.es/EMPRESA-1-1.html"]
  /\ fst (scrape_listing_urls (example_runtime [uncounted_page])
            uncounted_site PESCA None None (Some 5%Z)
            (new_scraper (u "output")))
     = Ok ([], 0%Z).
Proof. split; vm_compute; reflexivity. Qed.

(** Scenario 4: 65 results on three pages, a cap of 40. *)
Definition pesca_pages : list node :=
  [listing_page [summary_element "65"] 1 30;
   listing_page [summary_element "65"] 2 30;
   listing_page [summary_element "65"] 3 5].

Definition pesca_site : World :=
  site
    [(u "https://empresite.eleconomista.es/Actividad/PESCA/",
      page (render (listing_page [summary_element "65"] 1 30)));
     (u "https://empresite.eleconomista.es/Actividad/PESCA/PgNum-2/",
      page (render (listing_page [summary_element "65"] 2 30)));
     (u "https://empresite.eleconomista.es/Actividad/PESCA/PgNum-3/",
      page (render (listing_page [summary_element "65"] 3 5)))].

Definition pesca_run : result (list pystr * Z) * state :=
  scrape_listing_urls (example_runtime pesca_pages) pesca_site
    PESCA None None (Some 40%Z) (new_scraper (u "output")).

Definition pesca_urls : list pystr :=
  firstn 40
    (listing_urls_of (example_runtime pesca_pages)
       (listing_page [summary_element "65"] 1 30)
     ++ listing_urls_of (example_runtime pesca_pages)
          (listing_page [summary_element "65"] 2 30)).

Lemma scrape_listing_urls_cap_witness :
  (0 < 40)%Z
  /\ pesca_run = (Ok (pesca_urls, 65%Z), snd pesca_run)
  /\ length pesca_urls = 40
  /\ gets (snd pesca_run) = 2
  /\ remaining_pages 40 65 = [2%Z].
Proof.
  assert (Hrun : pesca_run = (Ok (pesca_urls, 65%Z), snd pesca_run))
    by (vm_compute; reflexivity).
  split; [reflexivity|]. split; [exact Hrun|].
  split; [vm_compute; reflexivity|]. split; [vm_compute; reflexivity|].
  destruct (scrape_listing_urls_cap (example_runtime pesca_pages) pesca_site
              PESCA None None 40 (new_scraper (u "output")) (snd pesca_run)
              pesca_urls 65 eq_refl Hrun) as (_ & _ & Hpages & _).
  exact Hpages.
Defined.

(** ** The scenarios of the specification *)

(** Scenario 1: one card with the URL annotation [/foo/bar.html]. *)
Definition one_card_page : node :=
  document
    [tag "html" []
       [tag "body" []
          [Elem (u "div") [(u "class", AList [u "cardCompanyBox"])]
             [tag "meta"
                [("itemprop", "url"); ("content", "/foo/bar.html")]%string
                []]]]].

Example listing_url_is_made_absolute :
  parse_listing_page (example_runtime [one_card_page]) (render one_card_page)
  = [u "https://empresite.eleconomista.es/foo/bar.html"].
Proof. vm_compute. reflexivity. Qed.

(** Scenario 2: the server answers 429, 429, 200.  The call sleeps 30
    and then 60 seconds of backoff (each retry also preceded by the
    delay between requests) and returns the body of the third answer. *)
Definition throttled : World :=
  {| http := fun k _ _ =>
       match k with
       | 0 | 1 => status 429
       | _ => page (render company_page)
       end;
     random := fun _ => (1 # 2)%Q;
     disk := fun _ => None;
     http_error_str := fun code url =>
       str_of_Z code ++ u " Error for url: " ++ url |}.

Example backoff_grows_until_the_page_arrives :
  fetch_page company_runtime throttled FICHA_URL (new_scraper (u "output"))
  = (Ok (render company_page),
     {| _request_count := 3; user_agent := GPTBOT_USER_AGENT;
        output_dir := u "output"; progress := new_ScrapeProgress;
        gets := 3; draws := 2; saves := 0;
        trace :=
          [EvGet FICHA_URL GPTBOT_USER_AGENT (page (render company_page));
           EvSleep (15 # 2);
           EvSleep 60;
           EvGet FICHA_URL GPTBOT_USER_AGENT (status 429);
           EvSleep (15 # 2);
           EvSleep 30;
           EvGet FICHA_URL GPTBOT_USER_AGENT (status 429)] |}).
Proof. vm_compute. reflexivity. Qed.

(** Scenario 3: 65 results, 30 per page, no cap: three listing pages
    are requested and all 65 URLs are returned. *)
Example three_pages_without_cap :
  let run := scrape_listing_urls (example_runtime pesca_pages) pesca_site
               PESCA None None None (new_scraper (u "output")) in
  gets (snd run) = 3
  /\ option_map (fun r => (length (fst r), snd r))
       (match fst run with Ok r => Some r | Raise _ => None end)
     = Some (65, 65%Z).
Proof. vm_compute. split; reflexivity. Qed.

(** A listing whose second page is missing. *)
Definition gapped_site : World :=
  site
    [(u "https://empresite.eleconomista.es/Actividad/PESCA/",
      page (render (listing_page [summary_element "65"] 1 30)));
     (u "https://empresite.eleconomista.es/Actividad/PESCA/PgNum-3/",
      page (render (listing_page [summary_element "65"] 3 5)))].

Definition PESCA_PAGE_2 : pystr :=
  u "https://empresite.eleconomista.es/Actividad/PESCA/PgNum-2/".

Lemma listing_pages_skips_failed_page_witness :
  cap_reached None [] = false
  /\ build_listing_url PESCA None None 2 = Ok PESCA_PAGE_2
  /\ is_ScraperError (NOT_FOUND PESCA_PAGE_2) = true
  /\ listing_pages (example_runtime pesca_pages) gapped_site PESCA None None
       None [2%Z; 3%Z] [] (new_scraper (u "output"))
     = listing_pages (example_runtime pesca_pages) gapped_site PESCA None None
         None [3%Z] []
         (snd (fetch_page (example_runtime pesca_pages) gapped_site
                 PESCA_PAGE_2 (new_scraper (u "output")))).
Proof.
  assert (Hurl : build_listing_url PESCA None None 2 = Ok PESCA_PAGE_2)
    by (vm_compute; reflexivity).
  assert (Hfetch :
            fetch_page (example_runtime pesca_pages) gapped_site PESCA_PAGE_2
              (new_scraper (u "output"))
            = (Raise (NOT_FOUND PESCA_PAGE_2),
               snd (fetch_page (example_runtime pesca_pages) gapped_site
                      PESCA_PAGE_2 (new_scraper (u "output")))))
    by (vm_compute; reflexivity).
  split; [reflexivity|]. split; [exact Hurl|]. split; [reflexivity|].
  exact (listing_pages_skips_failed_page (example_runtime pesca_pages)
           gapped_site PESCA None None None 2 [3%Z] []
           (new_scraper (u "output")) _ PESCA_PAGE_2 (NOT_FOUND PESCA_PAGE_2)
           eq_refl Hurl Hfetch eq_refl).
Defined.

(** A listing of two companies, the second of which is not found. *)
Definition two_company_listing : node :=
  listing_page [summary_element "2"] 1 2.

Definition small_site : World :=
  site
    [(u "https://empresite.eleconomista.es/Actividad/PESCA/",
      page (render two_company_listing));
     (u "https://empresite.eleconomista.es/EMPRESA-1-1.html",
      page (render company_page))].

Definition small_runtime : Runtime :=
  example_runtime [two_company_listing; company_page].

Definition small_urls : list pystr :=
  [u "https://empresite.eleconomista.es/EMPRESA-1-1.html";
   u "https://empresite.eleconomista.es/EMPRESA-1-2.html"].

Lemma run_survives_company_failures_witness :
  (forall k, disk small_site k = None)
  /\ exists p s',
       run small_runtime small_site PESCA None None None None
         (new_scraper (u "output")) = (Ok p, s')
       /\ p = progress s'
       /\ (Z.of_nat (length small_urls) <= total_procesadas p)%Z.
Proof.
  split; [reflexivity|].
  refine (run_survives_company_failures small_runtime small_site PESCA None
            None None None (new_scraper (u "output"))
            (snd (scrape_listing_urls small_runtime small_site PESCA None
                    None None
                    (with_progress new_ScrapeProgress
                       (new_scraper (u "output")))))
            small_urls 2 _ (fun _ => eq_refl)).
  vm_compute. reflexivity.
Defined.

Example small_run_ledger :
  let p := progress (snd (run small_runtime small_site PESCA None None None
                            None (new_scraper (u "output")))) in
  total_esperado p = 2%Z
  /\ map url_ficha (empresas_ok p)
     = [u "https://empresite.eleconomista.es/EMPRESA-1-1.html"]
  /\ map err_url (empresas_error p)
     = [u "https://empresite.eleconomista.es/EMPRESA-1-2.html"].
Proof. vm_compute. repeat split; reflexivity. Qed.

(** ** The rest of the program *)

Definition plain_runtime : Runtime := example_runtime [].

Lemma _clean_text_idempotent_witness :
  contains (u "&") (_clean_text plain_runtime (u "  Pesca   y  mar ")) = false
  /\ _clean_text plain_runtime (u "  Pesca   y  mar ") = u "Pesca y mar"
  /\ _clean_text plain_runtime
       (_clean_text plain_runtime (u "  Pesca   y  mar "))
     = _clean_text plain_runtime (u "  Pesca   y  mar ").
Proof.
  assert (Hamp : contains (u "&")
                   (_clean_text plain_runtime (u "  Pesca   y  mar "))
                 = false) by (vm_compute; reflexivity).
  split; [exact Hamp|]. split; [vm_compute; reflexivity|].
  exact (_clean_text_idempotent plain_runtime (u "  Pesca   y  mar ") Hamp).
Defined.

Lemma parse_company_page_normalised_witness :
  f_cif <> f_url_ficha
  /\ cif (parse_company_page company_runtime (render company_page)
            AGREGAR_URL) = u "B1234 5678"
  /\ strip (get_field f_cif
               (parse_company_page company_runtime (render company_page)
                  AGREGAR_URL))
     = get_field f_cif
         (parse_company_page company_runtime (render company_page)
            AGREGAR_URL).
Proof.
  assert (Hf : f_cif <> f_url_ficha) by discriminate.
  split; [exact Hf|]. split; [vm_compute; reflexivity|].
  exact (proj2 (parse_company_page_normalised company_runtime
                  (render company_page) AGREGAR_URL f_cif Hf)).
Defined.

Lemma _extract_field_value_needs_heading_witness :
  _extract_field_value company_runtime company_page (u "cif") <> []
  /\ exists h3,
       In h3 (find_all (has_name (u "h3")) company_page)
       /\ contains (str_lower company_runtime (u "cif"))
            (str_lower company_runtime
               (_clean_text company_runtime (get_text (here h3)))) = true.
Proof.
  assert (Hv : _extract_field_value company_runtime company_page (u "cif")
               <> []) by (vm_compute; discriminate).
  split; [exact Hv|].
  exact (_extract_field_value_needs_heading company_runtime company_page
           (u "cif") Hv).
Defined.

Lemma fetch_page_returns_page_witness :
  fetch_page company_runtime two_pages FICHA_URL (new_scraper (u "output"))
  = (Ok (render company_page),
     snd (fetch_page company_runtime two_pages FICHA_URL
            (new_scraper (u "output"))))
  /\ exists r older,
       trace (snd (fetch_page company_runtime two_pages FICHA_URL
                     (new_scraper (u "output"))))
       = EvGet FICHA_URL
           (user_agent (snd (fetch_page company_runtime two_pages FICHA_URL
                               (new_scraper (u "output")))))
           (Responded r) :: older
       /\ status_code r = 200%Z /\ text r = render company_page
       /\ _detect_captcha company_runtime (render company_page) = false.
Proof.
  assert (Hrun :
    fetch_page company_runtime two_pages FICHA_URL (new_scraper (u "output"))
    = (Ok (render company_page),
       snd (fetch_page company_runtime two_pages FICHA_URL
              (new_scraper (u "output")))))
    by (vm_compute; reflexivity).
  split; [exact Hrun|].
  exact (fetch_page_returns_page company_runtime two_pages FICHA_URL _ _ _
           Hrun).
Defined.




(** A network on which no request gets through. *)
Definition dead_network : World :=
  {| http := fun _ _ _ => RequestFailed (u "Connection refused");
     random := fun _ => (1 # 2)%Q;
     disk := fun _ => None;
     http_error_str := fun code url =>
       str_of_Z code ++ u " Error for url: " ++ url |}.

Lemma fetch_page_network_down_witness :
  random_in_unit dead_network
  /\ (forall k ua, responded (http dead_network k FICHA_URL ua) = false)
  /\ exists msg s',
       fetch_page company_runtime dead_network FICHA_URL
         (new_scraper (u "output")) = (Raise (NETWORK_ERROR msg), s')
       /\ gets s' = MAX_RETRIES
       /\ trace s'
          = [ EvSleep 240;
              EvGet FICHA_URL GPTBOT_USER_AGENT
                (RequestFailed (u "Connection refused"));
              EvSleep 120;
              EvGet FICHA_URL GPTBOT_USER_AGENT
                (RequestFailed (u "Connection refused"));
              EvSleep 60;
              EvGet FICHA_URL GPTBOT_USER_AGENT
                (RequestFailed (u "Connection refused"));
              EvSleep 30;
              EvGet FICHA_URL GPTBOT_USER_AGENT
                (RequestFailed (u "Connection refused")) ].
Proof.
  assert (Hrand : random_in_unit dead_network).
  { intros k. simpl. split; [discriminate | reflexivity]. }
  assert (Hdown : forall k ua,
            responded (http dead_network k FICHA_URL ua) = false)
    by reflexivity.
  split; [exact Hrand|]. split; [exact Hdown|].
  destruct (fetch_page_network_down company_runtime dead_network FICHA_URL
              (new_scraper (u "output")) Hrand Hdown)
    as (msg0 & msg1 & msg2 & msg3 & Hrun & Hgets & _ & _ & _).
  exists msg3. eexists. split; [exact Hrun|].
  split; [exact Hgets|]. vm_compute. reflexivity.
Defined.

(** A disk that is full, and a scraper that has extracted nine
    companies. *)
Definition full_disk : World :=
  {| http := http two_pages;
     random := fun _ => (1 # 2)%Q;
     disk := fun _ => Some (OSError (u "No space left on device"));
     http_error_str := fun code url =>
       str_of_Z code ++ u " Error for url: " ++ url |}.

Definition nine_done : state :=
  with_progress
    {| total_esperado := 10;
       empresas_ok := repeat (new_Empresa []) 9;
       empresas_error := [] |}
    (new_scraper (u "output")).

Lemma process_company_save_failure_witness :
  u "output/pesca.json" <> []
  /\ S (length (empresas_ok (progress nine_done))) mod SAVE_EVERY_N = 0
  /\ disk full_disk (saves nine_done)
     = Some (OSError (u "No space left on device"))
  /\ total_procesadas
       (progress (snd (process_company company_runtime full_disk
                         (Some (u "output/pesca.json")) FICHA_URL nine_done)))
     = 11%Z
  /\ map err_url
       (empresas_error
          (progress (snd (process_company company_runtime full_disk
                            (Some (u "output/pesca.json")) FICHA_URL
                            nine_done))))
     = [FICHA_URL].
Proof.
  assert (Hpath : u "output/pesca.json" <> []) by (vm_compute; discriminate).
  assert (Hscrape :
    scrape_company company_runtime full_disk FICHA_URL nine_done
    = (Ok (parse_company_page company_runtime (render company_page)
             FICHA_URL),
       snd (scrape_company company_runtime full_disk FICHA_URL nine_done)))
    by (vm_compute; reflexivity).
  split; [exact Hpath|]. split; [reflexivity|]. split; [reflexivity|].
  destruct (process_company_save_failure company_runtime full_disk
              (u "output/pesca.json") FICHA_URL nine_done _ _
              (OSError (u "No space left on device"))
              Hpath Hscrape eq_refl eq_refl)
    as (_ & _ & Herr & Htotal & _).
  split; [rewrite Htotal; reflexivity|].
  rewrite Herr. reflexivity.
Defined.

Lemma run_ledger_records_listing_witness :
  scrape_listing_urls small_runtime small_site PESCA None None None
    (with_progress new_ScrapeProgress (new_scraper (u "output")))
  = (Ok (small_urls, 2%Z),
     snd (scrape_listing_urls small_runtime small_site PESCA None None None
            (with_progress new_ScrapeProgress (new_scraper (u "output")))))
  /\ run small_runtime small_site PESCA None None None None
       (new_scraper (u "output"))
     = (Ok (progress
              (snd (run small_runtime small_site PESCA None None None None
                      (new_scraper (u "output"))))),
        snd (run small_runtime small_site PESCA None None None None
               (new_scraper (u "output"))))
  /\ (forall url,
        In url
          (recorded
             (progress
                (snd (run small_runtime small_site PESCA None None None None
                        (new_scraper (u "output"))))))
        <-> In url small_urls)
  /\ total_esperado
       (progress
          (snd (run small_runtime small_site PESCA None None None None
                  (new_scraper (u "output")))))
     = Z.of_nat (length small_urls).
Proof.
  assert (Hlist :
    scrape_listing_urls small_runtime small_site PESCA None None None
      (with_progress new_ScrapeProgress (new_scraper (u "output")))
    = (Ok (small_urls, 2%Z),
       snd (scrape_listing_urls small_runtime small_site PESCA None None None
              (with_progress new_ScrapeProgress
                 (new_scraper (u "output"))))))
    by (vm_compute; reflexivity).
  assert (Hrun :
    run small_runtime small_site PESCA None None None None
      (new_scraper (u "output"))
    = (Ok (progress
             (snd (run small_runtime small_site PESCA None None None None
                     (new_scraper (u "output"))))),
       snd (run small_runtime small_site PESCA None None None None
              (new_scraper (u "output")))))
    by (vm_compute; reflexivity).
  split; [exact Hlist|]. split; [exact Hrun|].
  exact (run_ledger_records_listing small_runtime small_site PESCA None None
           None None (new_scraper (u "output")) _ _ small_urls 2 _
           Hlist Hrun).
Defined.

Lemma run_closes_session_witness :
  scrape_listing_urls small_runtime small_site PESCA None None None
    (with_progress new_ScrapeProgress (new_scraper (u "output")))
  = (Ok (small_urls, 2%Z),
     snd (scrape_listing_urls small_runtime small_site PESCA None None None
            (with_progress new_ScrapeProgress (new_scraper (u "output")))))
  /\ run small_runtime small_site PESCA None None None None
       (new_scraper (u "output"))
     = (Ok (progress
              (snd (run small_runtime small_site PESCA None None None None
                      (new_scraper (u "output"))))),
        snd (run small_runtime small_site PESCA None None None None
               (new_scraper (u "output"))))
  /\ small_urls <> []
  /\ exists older,
       trace (snd (run small_runtime small_site PESCA None None None None
                     (new_scraper (u "output"))))
       = EvClose :: older.
Proof.
  assert (Hlist :
    scrape_listing_urls small_runtime small_site PESCA None None None
      (with_progress new_ScrapeProgress (new_scraper (u "output")))
    = (Ok (small_urls, 2%Z),
       snd (scrape_listing_urls small_runtime small_site PESCA None None None
              (with_progress new_ScrapeProgress
                 (new_scraper (u "output"))))))
    by (vm_compute; reflexivity).
  assert (Hrun :
    run small_runtime small_site PESCA None None None None
      (new_scraper (u "output"))
    = (Ok (progress
             (snd (run small_runtime small_site PESCA None None None None
                     (new_scraper (u "output"))))),
       snd (run small_runtime small_site PESCA None None None None
              (new_scraper (u "output")))))
    by (vm_compute; reflexivity).
  assert (Hurls : small_urls <> []) by (vm_compute; discriminate).
  split; [exact Hlist|]. split; [exact Hrun|]. split; [exact Hurls|].
  exact (proj2 (run_closes_session small_runtime small_site PESCA None None
                  None None (new_scraper (u "output")) _ _ small_urls 2 _
                  Hlist Hrun) Hurls).
Defined.

(** A negative cap: the 30 URLs of the first page, and one request. *)
Example negative_cap_stops_after_first_page :
  let run := scrape_listing_urls (example_runtime pesca_pages) pesca_site
               PESCA None None (Some (-1)%Z) (new_scraper (u "output")) in
  gets (snd run) = 1
  /\ option_map (fun r => (length (fst r), snd r))
       (match fst run with Ok r => Some r | Raise _ => None end)
     = Some (30, 65%Z).
Proof. vm_compute. split; reflexivity. Qed.

(** The page numbers 0 and 1 give the same URL, 2 and 3 two others. *)
Example first_page_has_no_suffix :
  build_listing_url PESCA None None 0
  = Ok (u "https://empresite.eleconomista.es/Actividad/PESCA/")
  /\ build_listing_url PESCA None None 1
     = Ok (u "https://empresite.eleconomista.es/Actividad/PESCA/")
  /\ build_listing_url PESCA None None 3
     = Ok (u "https://empresite.eleconomista.es/Actividad/PESCA/PgNum-3/").
Proof. repeat split; vm_compute; reflexivity. Qed.

(** A record written to a dictionary and read back, with a key that
    names no attribute. *)
Example record_through_dictionary :
  let e := parse_company_page company_runtime (render company_page)
             AGREGAR_URL in
  from_dict ((u "pagina", u "3") :: to_dict e) = e
  /\ nth_error (_dict_to_list CSV_COLUMNS (to_dict e)) 1 = Some (u "B1234 5678")
  /\ nth_error (_dict_to_list CSV_COLUMNS (to_dict e)) 19 = Some AGREGAR_URL
  /\ _dict_to_list CSV_COLUMNS [(u "cif", u "B1")]
     = [[]; u "B1"] ++ repeat [] 18.
Proof. vm_compute. repeat split; reflexivity. Qed.

(** The paths of an export, with and without a name. *)
Example paths_of_an_export :
  export_paths (u "output") (Some (u "pesca_vigo")) (u "20240131_120000")
  = (u "output/pesca_vigo.json", u "output/pesca_vigo.csv")
  /\ export_paths (u "output") None (u "20240131_120000")
     = (u "output/empresas_20240131_120000.json",
        u "output/empresas_20240131_120000.csv")
  /\ csv_path_of (u "output/pesca_vigo.json") None
     = u "output/pesca_vigo.csv".
Proof. repeat split; vm_compute; reflexivity. Qed.

(** ** The questions of the command line *)

Definition upper_cp (c : N) : N :=
  if ((97 <=? c) && (c <=? 122))%N then (c - 32)%N
  else if ((224 <=? c) && (c <=? 254) && negb (c =? 247))%N then (c - 32)%N
  else c.

(** Agrees with [str.upper()] on the strings of the examples. *)
Definition upper_latin1 (s : pystr) : pystr := map upper_cp s.

(** A menu of three options: an empty line, a word and a number out of
    range are asked again; the answer 2 selects the second option. *)
Example menu_asks_again :
  print_menu plain_runtime (u "TIPO")
    [u "Por provincia"; u "Por localidad"; u "Sin filtro"] false
    [[]; u "dos"; u "0"; u "7"; u " 2 "; u "3"]
  = Answer 1%Z [u "3"]
  /\ print_menu plain_runtime (u "TIPO")
       [u "Por provincia"; u "Por localidad"; u "Sin filtro"] true
       [u "0"]
     = Answer (-1)%Z []
  /\ print_menu plain_runtime (u "TIPO")
       [u "Por provincia"; u "Por localidad"; u "Sin filtro"] false
       [u "0"; u "x"]
     = EndOfInput.
Proof. repeat split; vm_compute; reflexivity. Qed.

(** The fifteenth activity of the menu is fishing; a locality typed in
    lower case with spaces becomes a slug. *)
Example questions_answered :
  select_actividad plain_runtime [u "15"] = Answer PESCA []
  /\ select_ubicacion plain_runtime upper_latin1
       [u "2"; u "  torre del campo jaen "]
     = Answer (None, Some (u "TORRE-DEL-CAMPO-JAEN")) []
  /\ select_ubicacion plain_runtime upper_latin1 [u "1"; u "38"]
     = Answer (Some (u "PONTEVEDRA"), None) []
  /\ select_max_results plain_runtime [u "-3"; u "00"; u "mil"; u " 25 "]
     = Answer (Some 25%Z) []
  /\ select_max_results plain_runtime [u "0"; u "25"] = Answer None [u "25"].
Proof. repeat split; vm_compute; reflexivity. Qed.

(** ** The file of the records *)

Lemma run_final_save_is_complete_witness :
  u "pesca" <> []
  /\ run small_runtime small_site PESCA None None None (Some (u "pesca"))
       (new_scraper (u "output"))
     = (Ok (progress
              (snd (run small_runtime small_site PESCA None None None
                      (Some (u "pesca")) (new_scraper (u "output"))))),
        snd (run small_runtime small_site PESCA None None None
               (Some (u "pesca")) (new_scraper (u "output"))))
  /\ exists older,
       trace (snd (run small_runtime small_site PESCA None None None
                     (Some (u "pesca")) (new_scraper (u "output"))))
       = EvClose
         :: EvSave (output_dir (new_scraper (u "output")) ++ u "/"
                    ++ u "pesca" ++ u ".json")
              (empresas_ok
                 (progress
                    (snd (run small_runtime small_site PESCA None None None
                            (Some (u "pesca")) (new_scraper (u "output"))))))
         :: older.
Proof.
  assert (Hname : u "pesca" <> []) by (vm_compute; discriminate).
  assert (Hrun :
    run small_runtime small_site PESCA None None None (Some (u "pesca"))
      (new_scraper (u "output"))
    = (Ok (progress
             (snd (run small_runtime small_site PESCA None None None
                     (Some (u "pesca")) (new_scraper (u "output"))))),
       snd (run small_runtime small_site PESCA None None None
              (Some (u "pesca")) (new_scraper (u "output")))))
    by (vm_compute; reflexivity).
  assert (Hok :
    empresas_ok
      (progress
         (snd (run small_runtime small_site PESCA None None None
                 (Some (u "pesca")) (new_scraper (u "output"))))) <> [])
    by (vm_compute; discriminate).
  split; [exact Hname|]. split; [exact Hrun|].
  exact (run_final_save_is_complete small_runtime small_site PESCA None None
           None (u "pesca") (new_scraper (u "output")) _ _ Hname Hrun Hok).
Defined.

Example records_are_saved_under_the_name :
  saves (snd (run small_runtime small_site PESCA None None None
                (Some (u "pesca")) (new_scraper (u "output")))) = 1
  /\ existsb (fun ev => match ev with
                        | EvSave path records =>
                          py_eqb path (u "output/pesca.json")
                          && (length records =? 1)
                        | _ => false
                        end)
       (trace (snd (run small_runtime small_site PESCA None None None
                      (Some (u "pesca")) (new_scraper (u "output")))))
     = true.
Proof. vm_compute. split; reflexivity. Qed.

Lemma export_all_json_path_witness :
  u "/tmp/pesca" <> [] /\ u "output" <> []
  /\ endswith (u "output") (u "/") = false
  /\ startswith (u "/tmp/pesca") (u "/") = true
  /\ fst (export_paths (u "output") (Some (u "/tmp/pesca")) (u "20240131"))
     = u "/tmp/pesca" ++ u ".json"
  /\ fst (export_paths (u "output") (Some (u "/tmp/pesca")) (u "20240131"))
     <> u "output" ++ u "/" ++ u "/tmp/pesca" ++ u ".json".
Proof.
  assert (Hname : u "/tmp/pesca" <> []) by (vm_compute; discriminate).
  assert (Hdir : u "output" <> []) by (vm_compute; discriminate).
  assert (Hend : endswith (u "output") (u "/") = false)
    by (vm_compute; reflexivity).
  assert (Hstart : startswith (u "/tmp/pesca") (u "/") = true)
    by (vm_compute; reflexivity).
  split; [exact Hname|]. split; [exact Hdir|]. split; [exact Hend|].
  split; [exact Hstart|].
  exact (proj2 (export_all_json_path (u "output") (u "/tmp/pesca")
                  (u "20240131") Hname Hdir Hend) Hstart).
Defined.
